(** * Telecom churn predictor: the dashboard's prediction logic

    A shallow embedding of the TypeScript front end: PredictPanel,
    InsightsPanel with the extraction of a request from a chat message,
    LineChart, BarChart and PieChart, App and Sidebar, MetricCard,
    Dashboard and UploadPanel.  The Python back end (the Flask
    application and the trained model) is not part of the sources at
    hand; the front end sees it through the outcome of its API calls.

    Layout: the definitions come first, module by module, in the order of
    the source files; the lemmas and theorems follow. *)

From Stdlib Require Import ZArith Lia Bool List String Ascii.
From Stdlib Require Import SpecFloat.
From stdpp Require Import base option strings list gmap.

Local Open Scope Z_scope.

(* ===================================================================== *)
(** * Part I: definitions                                                  *)
(* ===================================================================== *)

(** ** The JavaScript [number] type

    A JavaScript number is an IEEE 754 binary64 value.  The model is the
    specification of binary64 arithmetic that ships with Rocq
    ([SpecFloat], the reference semantics of the primitive floats), at
    precision 53 and maximal exponent 1024: signed zeros, infinities, NaN
    and finite values [(-1)^s * m * 2^e], with round-to-nearest-even
    arithmetic. *)
Module Number.

Definition prec : Z := 53.
Definition emax : Z := 1024.

Definition number : Type := spec_float.

(** The number denoted by an integer literal (exact up to [2^53]). *)
Definition of_Z (z : Z) : number := binary_normalize prec emax z 0 false.

Definition add (a b : number) : number := SFadd prec emax a b.
Definition sub (a b : number) : number := SFsub prec emax a b.
Definition mul (a b : number) : number := SFmul prec emax a b.
Definition div (a b : number) : number := SFdiv prec emax a b.

(** The relational operators [a < b], [a > b], [a <= b], [a === b]:
    all false as soon as one side is NaN. *)
Definition lt (a b : number) : bool := SFltb a b.
Definition gt (a b : number) : bool := SFltb b a.
Definition le (a b : number) : bool := SFleb a b.
Definition eq (a b : number) : bool := SFeqb a b.

Definition is_nan (a : number) : bool :=
  match a with S754_nan => true | _ => false end.

(** [+0] and [-0]. *)
Definition is_zero (a : number) : bool :=
  match a with S754_zero _ => true | _ => false end.

(** A number is well formed when it is one of the values a binary64 can
    hold: its mantissa has at most 53 bits and its exponent is the
    canonical one.  Every number a JavaScript program handles is. *)
Definition valid (a : number) : bool := valid_binary prec emax a.

(** A decimal literal [n / d] (with [n] and [d] exactly representable
    integers, [d] a power of ten) denotes the binary64 value closest to
    the rational [n / d], which is what a correctly rounded division of
    the two integers returns. *)
Definition decimal (n d : Z) : number := div (of_Z n) (of_Z d).

(** [Math.round]: the integral number closest to [x], the one closer to
    [+∞] on a tie; [x] itself when it is already integral, infinite or
    NaN.  For a finite [x = ±m * 2^e] with [e < 0] this is
    [floor (x + 1/2) = floor ((±2m + 2^(-e)) / 2^(-e+1))]; a result of
    zero keeps the sign of [x]. *)
Definition Math_round (x : number) : number :=
  match x with
  | S754_finite s m e =>
      if 0 <=? e then x
      else
        let q := (2 * cond_Zopp s (Zpos m) + 2 ^ (- e)) / 2 ^ (- e + 1) in
        if q =? 0 then S754_zero s else of_Z q
  | _ => x
  end.

(** [Math.max(...values)]: NaN as soon as one argument is NaN, else the
    largest argument ([+0] being larger than [-0]); [-∞] for no
    argument. *)
Definition max_step (highest : option number) (x : number) : option number :=
  match highest with
  | None => None
  | Some h =>
      if is_nan x then None
      else if gt x h then Some x
      else match x, h with
           | S754_zero false, S754_zero true => Some x
           | _, _ => Some h
           end
  end.

Definition Math_max (values : list number) : number :=
  match fold_left max_step values (Some (S754_infinity true)) with
  | Some h => h
  | None => S754_nan
  end.

(** The record after [k] right shifts of the mantissa [M]: the
    quotient, and, when the bits shifted out are all zero, neither a
    round bit nor a sticky bit. *)
Definition shifted (M k : Z) (mrs : shr_record) : Prop :=
  shr_m mrs = M / 2 ^ k
  /\ (M mod 2 ^ k = 0 -> shr_r mrs = false /\ shr_s mrs = false).

(** [x] is [+0] or a positive finite number [m * 2^e] with [e < 0] and
    [m * 2^e <= B]. *)
Definition at_most (B : Z) (x : number) : Prop :=
  x = S754_zero false
  \/ exists m e, x = S754_finite false m e /\ e < 0 /\ Z.pos m <= B * 2 ^ (- e).

(** Arithmetic is evaluated on demand ([vm_compute]), never by [simpl]. *)
Global Arguments of_Z : simpl never.
Global Arguments add : simpl never.
Global Arguments sub : simpl never.
Global Arguments mul : simpl never.
Global Arguments div : simpl never.
Global Arguments decimal : simpl never.
Global Arguments Math_round : simpl never.

End Number.
Export Number.

(** ** JavaScript strings and values

    A string is a sequence of code units; the model keeps the code units
    below 256 (one [ascii] each), which covers every literal of the
    source. *)
Module JS.

Definition nl : string := String "010"%char EmptyString.

(** The white space and line terminator code units (below 256) that
    [String.prototype.trim] strips: TAB, LF, VT, FF, CR, SP, NBSP. *)
Definition isWhiteSpace (c : ascii) : bool :=
  let n := nat_of_ascii c in
  ((9 <=? n) && (n <=? 13) || (n =? 32) || (n =? 160))%nat.

Fixpoint trimStart (s : string) : string :=
  match s with
  | String c s' => if isWhiteSpace c then trimStart s' else s
  | EmptyString => EmptyString
  end.

Definition trimEnd (s : string) : string :=
  String.rev (trimStart (String.rev s)).

Definition trim (s : string) : string := trimEnd (trimStart s).

Definition lowerChar (c : ascii) : ascii :=
  let n := nat_of_ascii c in
  if ((65 <=? n) && (n <=? 90))%nat then ascii_of_nat (n + 32) else c.

Definition upperChar (c : ascii) : ascii :=
  let n := nat_of_ascii c in
  if ((97 <=? n) && (n <=? 122))%nat then ascii_of_nat (n - 32) else c.

Fixpoint mapString (f : ascii -> ascii) (s : string) : string :=
  match s with
  | String c s' => String (f c) (mapString f s')
  | EmptyString => EmptyString
  end.

(** [toLowerCase] / [toUpperCase] on the letters A-Z / a-z. *)
Definition toLowerCase : string -> string := mapString lowerChar.
Definition toUpperCase : string -> string := mapString upperChar.

(** [s.includes(sub)] *)
Fixpoint includes (s sub : string) : bool :=
  String.prefix sub s
  || match s with
     | String _ s' => includes s' sub
     | EmptyString => false
     end.

(** [parts.join(sep)] *)
Fixpoint join (sep : string) (parts : list string) : string :=
  match parts with
  | [] => ""
  | [p] => p
  | p :: rest => p +:+ sep +:+ join sep rest
  end.

(** The values a property of a parsed JSON object or of a partially
    filled request can hold. *)
Inductive JsValue :=
| JUndefined
| JNull
| JBool (b : bool)
| JNum (n : number)
| JStr (s : string)
| JObject.

(** Truthiness, as [!x], [x || y] and [if (x)] see it. *)
Definition truthy (v : JsValue) : bool :=
  match v with
  | JUndefined | JNull => false
  | JBool b => b
  | JNum n => negb (is_zero n || is_nan n)
  | JStr s => negb (String.eqb s "")
  | JObject => true
  end.

(** [s || d] for an optional string [s]: the empty string is falsy. *)
Definition or_default (s : option string) (d : string) : string :=
  match s with
  | Some s => if String.eqb s "" then d else s
  | None => d
  end.

End JS.
Export JS.

(** ** The API client ([lib/api])

    The module itself is not part of the sources at hand; its types are
    the ones its callers use, and a call to [apiService.predictChurn] is
    an outcome handed to the caller: the promise resolves with a response
    or rejects with the thrown value. *)
Module Api.

Record PredictionRequest := {
  telecom_partner : string;
  gender : string;
  age : number;
  state : string;
  city : string;
  pincode : number;
  date_of_registration : string;
  num_dependents : number;
  estimated_salary : number;
  calls_made : number;
  sms_sent : number;
  data_used : number;
}.

Record PredictionResponse := {
  prediction_text : string;
  confidence : number;
  churn_probability : number;
  no_churn_probability : number;
}.

(** The thrown value, as far as the handlers look into it:
    [err.response], [err.response.data], [err.response.data.error]. *)
Record ErrorData := { error : option string }.
Record ErrorResponse := { data : option ErrorData }.
Record Thrown := { response : option ErrorResponse }.

(** [err?.response?.data?.error] *)
Definition response_data_error (err : Thrown) : option string :=
  match response err with
  | Some r => match data r with
              | Some d => error d
              | None => None
              end
  | None => None
  end.

Inductive Outcome (A : Type) :=
| Resolved (value : A)
| Rejected (err : Thrown).
Arguments Resolved {A} value.
Arguments Rejected {A} err.

End Api.
Export Api.

(** ** PredictPanel *)
Module PredictPanel.

Inductive RiskLevel := low | medium | high.

Definition RiskLevel_string (r : RiskLevel) : string :=
  match r with
  | low => "low"
  | medium => "medium"
  | high => "high"
  end.

Record PredictionResult := {
  churnProbability : number;
  loyaltyScore : number;
  riskLevel : RiskLevel;
  suggestions : list string;
}.

(** The component's state: [loading], [result], [error]. *)
Record State := {
  loading : bool;
  result : option PredictionResult;
  error : option string;
}.

Definition setLoading (b : bool) (st : State) : State :=
  {| loading := b; result := result st; error := error st |}.
Definition setResult (r : option PredictionResult) (st : State) : State :=
  {| loading := loading st; result := r; error := error st |}.
Definition setError (e : option string) (st : State) : State :=
  {| loading := loading st; result := result st; error := e |}.

(** The literals [0.6], [0.3], [1], [100], [80000], [0]. *)
Definition c0_6 : number := decimal 6 10.
Definition c0_3 : number := decimal 3 10.
Definition c1 : number := of_Z 1.
Definition c100 : number := of_Z 100.
Definition c80000 : number := of_Z 80000.
Definition c0 : number := of_Z 0.

(** [Math.round((1 - churnProbability) * 100)] *)
Definition computeLoyaltyScore (churnProbability : number) : number :=
  Math_round (mul (sub c1 churnProbability) c100).

(** [churnProbability > 0.6 ? 'high' : churnProbability > 0.3 ? 'medium' : 'low'] *)
Definition computeRiskLevel (churnProbability : number) : RiskLevel :=
  if gt churnProbability c0_6 then high
  else if gt churnProbability c0_3 then medium
  else low.

Definition baseSuggestions (churnProbability : number) : list string :=
  if gt churnProbability c0_6 then
    [ "Offer a loyalty discount or special promotion";
      "Contact customer to discuss service satisfaction";
      "Upgrade to a longer-term contract with benefits" ]
  else if gt churnProbability c0_3 then
    [ "Send personalized retention offers";
      "Improve service quality and customer support" ]
  else
    [ "Customer is satisfied - maintain service quality";
      "Consider upselling additional services" ].

(** The list [suggestions] once every [push] has run. *)
Definition pushedSuggestions (formData : PredictionRequest)
    (churnProbability : number) : list string :=
  let suggestions := baseSuggestions churnProbability in
  let suggestions :=
    if gt (estimated_salary formData) c80000
    then suggestions ++ ["Review pricing plan for potential savings"]
    else suggestions in
  let suggestions :=
    if gt (num_dependents formData) c0
    then suggestions ++ ["Provide family plan benefits"]
    else suggestions in
  suggestions.

(** The body of the [try] block after the awaited call has resolved. *)
Definition predictionResult (formData : PredictionRequest)
    (response : PredictionResponse) : PredictionResult :=
  let churnProbability := churn_probability response in
  {| churnProbability := churnProbability;
     loyaltyScore := computeLoyaltyScore churnProbability;
     riskLevel := computeRiskLevel churnProbability;
     suggestions := take 4 (pushedSuggestions formData churnProbability) |}.

Definition failureMessage : string :=
  "Failed to make prediction. Please try again.".

(** [makePrediction], given what [apiService.predictChurn(formData)]
    settles with. *)
Definition makePrediction (formData : PredictionRequest)
    (outcome : Outcome PredictionResponse) (st : State) : State :=
  let st := setLoading true st in
  let st := setResult None st in
  let st := setError None st in
  let st :=
    match outcome with
    | Resolved response => setResult (Some (predictionResult formData response)) st
    | Rejected err => setError (Some (or_default (response_data_error err) failureMessage)) st
    end in
  setLoading false st.

(** The form's initial content. *)
Definition initialFormData : PredictionRequest :=
  {| telecom_partner := "Reliance Jio";
     gender := "F";
     age := of_Z 35;
     state := "Karnataka";
     city := "Bangalore";
     pincode := of_Z 560001;
     date_of_registration := "1/1/2020";
     num_dependents := of_Z 2;
     estimated_salary := of_Z 75000;
     calls_made := of_Z 50;
     sms_sent := of_Z 30;
     data_used := of_Z 5000 |}.

End PredictPanel.

(** ** InsightsPanel *)
Module InsightsPanel.

Inductive Role := user | assistant.

Record Message := {
  id : string;
  role : Role;
  content : string;
  timestamp : number;  (* a [Date], as its time value *)
}.

Record State := {
  messages : list Message;
  input : string;
  loading : bool;
}.

Definition insight_factors : string :=
  "Based on our data, the primary churn factors include: 1) Month-to-month contracts show 40% higher churn rates, 2) Customers with fiber optic internet without tech support are 30% more likely to churn, 3) High monthly charges above $80 correlate with increased churn, 4) Customers with tenure under 12 months have significantly higher churn risk.".

Definition insight_retention : string :=
  "Key retention strategies: 1) Incentivize long-term contracts with discounts or perks, 2) Proactively offer tech support to fiber optic customers, 3) Implement tiered pricing to reduce monthly charges for loyal customers, 4) Create onboarding programs for new customers in first year, 5) Regular satisfaction surveys and proactive outreach to high-risk customers.".

Definition insight_profile : string :=
  "High-risk customer profile typically includes: Month-to-month contract, tenure less than 12 months, fiber optic internet without additional services, monthly charges over $70, electronic check payment method, no tech support or online security, and paperless billing. These customers show 65%+ churn probability.".

Definition insight_contract : string :=
  "Two-year contracts have the lowest churn rate at approximately 3-5%, followed by one-year contracts at 15-20%. Month-to-month contracts show the highest churn rate at 45-50%. This demonstrates the strong correlation between contract commitment and customer retention.".

Definition insight_generic : string :=
  "I understand your question about telecom churn analysis. Based on our machine learning model and historical data, I can provide insights on customer behavior patterns, churn risk factors, and retention strategies. Could you be more specific about what aspect you'd like to explore?".

Definition generateAIResponse (question : string) : string :=
  let lowerQuestion := toLowerCase question in
  if includes lowerQuestion "churn" && includes lowerQuestion "factor" then
    insight_factors
  else if includes lowerQuestion "retention" || includes lowerQuestion "improve" then
    insight_retention
  else if includes lowerQuestion "high-risk" || includes lowerQuestion "profile" then
    insight_profile
  else if includes lowerQuestion "contract" && includes lowerQuestion "churn" then
    insight_contract
  else insight_generic.

Definition requiredFields : list string :=
  [ "telecom_partner"; "gender"; "age"; "state"; "city"; "pincode";
    "date_of_registration"; "num_dependents"; "estimated_salary";
    "calls_made"; "sms_sent"; "data_used" ].

(** [maybeRequest[k]]: a key that is absent reads as [undefined]. *)
Definition get (maybeRequest : gmap string JsValue) (k : string) : JsValue :=
  default JUndefined (maybeRequest !! k).

(** [v === undefined || v === null || (typeof v === 'string' && v.trim() === '')] *)
Definition isMissing (v : JsValue) : bool :=
  match v with
  | JUndefined => true
  | JNull => true
  | JStr s => String.eqb (trim s) ""
  | _ => false
  end.

(** [requiredFields.filter(k => ...)] *)
Definition missingFields (maybeRequest : gmap string JsValue) : list string :=
  filter (fun k => isMissing (get maybeRequest k)) requiredFields.

Definition clarification (missing : list string) : string :=
  "To run a prediction, I still need: " +:+ join ", " missing
    +:+ ". Please provide them in a sentence or JSON.".

Definition predictionFailed : string :=
  "Prediction failed. Please check the backend and try again.".

Definition c0_6 : number := decimal 6 10.
Definition c0_3 : number := decimal 3 10.
Definition c100 : number := of_Z 100.
Definition c1 : number := of_Z 1.

(** The [risk] label of [formatPredictionMessage]. *)
Definition risk (churn_probability : number) : string :=
  if gt churn_probability c0_6 then "HIGH"
  else if gt churn_probability c0_3 then "MEDIUM"
  else "LOW".

Definition messageSuggestions (churn_probability : number) : list string :=
  if gt churn_probability c0_6 then
    [ "Offer loyalty discount or retention bundle";
      "Proactive support outreach";
      "Review plan suitability and pricing" ]
  else if gt churn_probability c0_3 then
    [ "Send targeted retention offer";
      "Check service quality and response times" ]
  else
    [ "Maintain service quality";
      "Consider upsell of value-added services" ].

(** The world [handleSend] talks to: the build-time environment, the
    extraction of a request from the text (an external collaborator:
    a regular-expression parse merged with the answer of a language
    model), the prediction API and the clock. *)
Record World := {
  (** [import.meta.env?.VITE_GEMINI_API_KEY] *)
  apiKey : option string;
  (** what [extractPredictionRequest(text)] resolves with; [None] when
      it rejects *)
  extractPredictionRequest : string -> option (gmap string JsValue);
  (** what [apiService.predictChurn(request)] settles with *)
  predictChurn : gmap string JsValue -> Outcome PredictionResponse;
  (** the readings of [Date.now()] and [new Date()] for the user's
      message and for the reply *)
  nowSent : number;
  dateSent : number;
  nowReplied : number;
  dateReplied : number;
}.

Section Runtime.

(** [Number.prototype.toFixed] and [Number.prototype.toString], the
    runtime's number formatting. *)
Variable toFixed : number -> nat -> string.
Variable numberToString : number -> string.

Definition percent (x : number) : string := toFixed (mul x c100) 1.

Definition formatPredictionMessage (pred : PredictionResponse) : string :=
  let risk := risk (churn_probability pred) in
  let suggestions := messageSuggestions (churn_probability pred) in
  join nl
    ([ "Prediction: " +:+ prediction_text pred
         +:+ " (confidence " +:+ percent (confidence pred) +:+ "%)";
       "Churn Probability: " +:+ percent (churn_probability pred)
         +:+ "% (Risk: " +:+ risk +:+ ")";
       "No-Churn Probability: " +:+ percent (no_churn_probability pred) +:+ "%";
       "";
       "Recommended Actions:" ]
     ++ map (fun s => "- " +:+ s) suggestions).

(** The reply to [text] and the requests sent to the prediction API
    on the way. *)
Definition respond (w : World) (text : string)
    : string * list (gmap string JsValue) :=
  match extractPredictionRequest w text with
  | Some maybeRequest =>
      let missing := missingFields maybeRequest in
      if (length missing =? 0)%nat then
        match predictChurn w maybeRequest with
        | Resolved prediction =>
            (formatPredictionMessage prediction, [maybeRequest])
        | Rejected err =>
            (or_default (response_data_error err) predictionFailed, [maybeRequest])
        end
      else if negb (String.eqb (default "" (apiKey w)) "") then
        (clarification missing, [])
      else
        (generateAIResponse text, [])
  | None => (generateAIResponse text, [])
  end.

(** [handleSend]: the next state and the requests sent to the
    prediction API. *)
Definition handleSend (w : World) (st : State)
    : State * list (gmap string JsValue) :=
  if String.eqb (trim (input st)) "" || loading st then (st, [])
  else
    let text := trim (input st) in
    let userMessage :=
      {| id := numberToString (nowSent w); role := user;
         content := text; timestamp := dateSent w |} in
    let '(reply, calls) := respond w text in
    let aiResponse :=
      {| id := numberToString (add (nowReplied w) c1); role := assistant;
         content := reply; timestamp := dateReplied w |} in
    ({| messages := messages st ++ [userMessage; aiResponse];
        input := "";
        loading := false |}, calls).

End Runtime.

End InsightsPanel.

(** ** Charts

    A division never fails in JavaScript; to speak about the divisors,
    the components are run in a writer that records, next to the result,
    the divisor of every division performed, in order. *)
Module Charts.

Definition Traced (A : Type) : Type := A * list number.

Definition ret {A} (a : A) : Traced A := (a, []).
Definition bind {A B} (m : Traced A) (k : A -> Traced B) : Traced B :=
  let '(a, ds) := m in
  let '(b, ds') := k a in
  (b, ds ++ ds').
Definition divide (a b : number) : Traced number := (div a b, [b]).

Notation "x <~ m ;; k" := (bind m (fun x => k))
  (at level 100, m at next level, right associativity).

Definition noData : string := "No data available".

Record LineItem := { label : string; value : number }.
Record Point := { x : number; y : number; pvalue : number }.

Inductive LineView :=
| LineNoData (text : string)
| LineSvg (pathData areaData : string) (points : list Point)
          (labels : list (number * string)).

Section Runtime.

Variable numberToString : number -> string.

(** [x || d] on numbers: [d] when [x] is [0] or NaN. *)
Definition number_or (x d : number) : number :=
  if truthy (JNum x) then x else d.

Definition LineChart (data : list LineItem) : Traced LineView :=
  if (length data =? 0)%nat then ret (LineNoData noData)
  else
    let maxValue := Math_max (map value data ++ [of_Z 1]) in
    let width := of_Z 800 in
    let height := of_Z 200 in
    let padding := of_Z 40 in
    let chartWidth := sub width (mul padding (of_Z 2)) in
    let chartHeight := sub height (mul padding (of_Z 2)) in
    xStep <~ divide chartWidth
               (number_or (sub (of_Z (Z.of_nat (length data))) (of_Z 1)) (of_Z 1)) ;;
    yScale <~ divide chartHeight maxValue ;;
    let points :=
      imap (fun index item =>
              {| x := add padding (mul (of_Z (Z.of_nat index)) xStep);
                 y := sub (sub height padding) (mul (value item) yScale);
                 pvalue := value item |}) data in
    let pathData :=
      join " "
        (imap (fun index point =>
                 (if (index =? 0)%nat then "M" else "L") +:+ " "
                   +:+ numberToString (x point) +:+ " "
                   +:+ numberToString (y point)) points) in
    let areaData :=
      pathData +:+ " L "
        +:+ from_option (fun p => numberToString (x p)) "undefined" (last points)
        +:+ " " +:+ numberToString (sub height padding)
        +:+ " L " +:+ numberToString padding
        +:+ " " +:+ numberToString (sub height padding) +:+ " Z" in
    ret (LineSvg pathData areaData points
           (imap (fun index item =>
                    (add padding (mul (of_Z (Z.of_nat index)) xStep), label item))
                 data)).

End Runtime.

Record BarItem := { blabel : string; churned : number; stayed : number }.
Record Bar := {
  churnedHeight : number;
  stayedHeight : number;
  total : number;
  caption : string;
}.

Inductive BarView :=
| BarNoData (text : string)
| BarColumns (bars : list Bar).

(** [maxValue > 0 ? 200 / maxValue : 0] *)
Definition barScale (maxValue : number) : Traced number :=
  if gt maxValue (of_Z 0) then divide (of_Z 200) maxValue else ret (of_Z 0).

Definition BarChart (data : list BarItem) : Traced BarView :=
  if (length data =? 0)%nat then ret (BarNoData noData)
  else
    let maxValue := Math_max (map (fun item => add (churned item) (stayed item)) data) in
    scale <~ barScale maxValue ;;
    ret (BarColumns
           (map (fun item =>
                   {| churnedHeight := mul (churned item) scale;
                      stayedHeight := mul (stayed item) scale;
                      total := add (churned item) (stayed item);
                      caption := blabel item |}) data)).

End Charts.

(** ** Observations and sample inputs *)

(** The content of the last message of the chat: the reply, once
    [handleSend] has run. *)
Definition reply (st : InsightsPanel.State) : option string :=
  InsightsPanel.content <$> last (InsightsPanel.messages st).

Module Samples.

(** A thrown value without a response: the back end is unreachable. *)
Definition unreachable : Thrown := {| response := None |}.

(** A rejection that carries the server's error text. *)
Definition serverError : Thrown :=
  {| response := Some {| data := Some {| error := Some "Model not loaded" |} |} |}.

(** A request with its 12 fields filled in. *)
Definition completeRequest : gmap string JsValue :=
  list_to_map
    [ ("telecom_partner", JStr "Reliance Jio"); ("gender", JStr "F");
      ("age", JNum (of_Z 35)); ("state", JStr "Karnataka");
      ("city", JStr "Bangalore"); ("pincode", JNum (of_Z 560001));
      ("date_of_registration", JStr "1/1/2020");
      ("num_dependents", JNum (of_Z 2));
      ("estimated_salary", JNum (of_Z 75000));
      ("calls_made", JNum (of_Z 50)); ("sms_sent", JNum (of_Z 30));
      ("data_used", JNum (of_Z 5000)) ].

(** What the regular-expression parse leaves when the text names no
    field: every key set to [undefined]. *)
Definition nothingExtracted : gmap string JsValue :=
  list_to_map ((fun k => (k, JUndefined)) <$> InsightsPanel.requiredFields).

(** A request where the age is absent, the city is [null] and the state
    is blank. *)
Definition partialRequest : gmap string JsValue :=
  delete "age" (<["city" := JNull]> (<["state" := JStr "  "]> completeRequest)).

Definition noFormat : number -> nat -> string := fun _ _ => "".
Definition noString : number -> string := fun _ => "".

(** A world whose extraction returns [request], whose back end rejects
    every call, with or without a Gemini key. *)
Definition world (key : option string) (request : gmap string JsValue)
    : InsightsPanel.World :=
  {| InsightsPanel.apiKey := key;
     InsightsPanel.extractPredictionRequest := fun _ => Some request;
     InsightsPanel.predictChurn := fun _ => Rejected unreachable;
     InsightsPanel.nowSent := of_Z 1000;
     InsightsPanel.dateSent := of_Z 1000;
     InsightsPanel.nowReplied := of_Z 1002;
     InsightsPanel.dateReplied := of_Z 1002 |}.

Definition chat (text : string) : InsightsPanel.State :=
  {| InsightsPanel.messages := [];
     InsightsPanel.input := text;
     InsightsPanel.loading := false |}.

Definition idle : PredictPanel.State :=
  {| PredictPanel.loading := false;
     PredictPanel.result := None;
     PredictPanel.error := None |}.

(** A response of the back end with churn probability [p]. *)
Definition responseWith (p : number) : PredictionResponse :=
  {| prediction_text := "No Churn";
     confidence := sub (of_Z 1) p;
     churn_probability := p;
     no_churn_probability := sub (of_Z 1) p |}.

End Samples.

(** ** InsightsPanel: extracting a request from the text *)
Module Extraction.

(** [text.indexOf(c)] for a one-character [c]; [None] stands for [-1]. *)
Fixpoint indexOf (c : ascii) (s : string) : option nat :=
  match s with
  | EmptyString => None
  | String a s' => if Ascii.eqb a c then Some 0%nat else S <$> indexOf c s'
  end.

(** [text.lastIndexOf(c)] for a one-character [c]. *)
Fixpoint lastIndexOf (c : ascii) (s : string) : option nat :=
  match s with
  | EmptyString => None
  | String a s' =>
      match lastIndexOf c s' with
      | Some i => Some (S i)
      | None => if Ascii.eqb a c then Some 0%nat else None
      end
  end.

(** [text.slice(start, end)] for [0 <= start <= end]. *)
Definition slice (start stop : nat) (s : string) : string :=
  String.substring start (stop - start) s.

Definition extractJsonBlock (text : string) : string :=
  match indexOf "{" text, lastIndexOf "}" text with
  | Some start, Some stop =>
      if (start <? stop)%nat then slice start (stop + 1) text else text
  | _, _ => text
  end.

(** The seven numeric fields, in the order [coerceTypes] visits them. *)
Definition numericFields : list string :=
  [ "age"; "pincode"; "num_dependents"; "estimated_salary";
    "calls_made"; "sms_sent"; "data_used" ].

Section Runtime.

(** [Number(s)] on strings and [JSON.parse], which yields the own
    properties of the parsed value or throws ([None]). *)
Variable Number : string -> number.
Variable JSON_parse : string -> option (gmap string JsValue).

Definition safeParseJson (text : string) : gmap string JsValue :=
  match JSON_parse (extractJsonBlock text) with
  | Some json => json
  | None => ∅
  end.

(** [typeof v === 'string' ? Number(v) : v] *)
Definition toNum (v : JsValue) : JsValue :=
  match v with
  | JStr s => JNum (Number s)
  | _ => v
  end.

(** [if (obj.k !== undefined) obj.k = toNum(obj.k)] *)
Definition coerceField (obj : gmap string JsValue) (k : string)
    : gmap string JsValue :=
  match InsightsPanel.get obj k with
  | JUndefined => obj
  | v => <[k := toNum v]> obj
  end.

Definition coerceTypes (obj : gmap string JsValue) : gmap string JsValue :=
  foldl coerceField obj numericFields.

End Runtime.

(** *** The regular expressions of the quick parse

    The three patterns are [label[:=]\s*([0-9]+)],
    [label[:=]\s*([A-Za-z ]+)] and
    [date_of_registration[:=]\s*([0-9/\-]+)], all with the [i] flag.  The
    labels are ASCII, so ignoring case is comparing upper-cased code
    units. *)

Definition isDigit (c : ascii) : bool :=
  let n := nat_of_ascii c in ((48 <=? n) && (n <=? 57))%nat.

(** [[A-Za-z ]] *)
Definition isLetterOrSpace (c : ascii) : bool :=
  let n := nat_of_ascii c in
  ((65 <=? n) && (n <=? 90) || (97 <=? n) && (n <=? 122) || (n =? 32))%nat.

(** [[0-9/\-]] *)
Definition isDateChar (c : ascii) : bool :=
  let n := nat_of_ascii c in
  ((48 <=? n) && (n <=? 57) || (n =? 47) || (n =? 45))%nat.

(** [[:=]] *)
Definition isSeparator (c : ascii) : bool :=
  let n := nat_of_ascii c in ((n =? 58) || (n =? 61))%nat.

Definition sameLetter (a b : ascii) : bool :=
  Ascii.eqb (upperChar a) (upperChar b).

(** Every character of [s] is in the class [p]. *)
Fixpoint allChars (p : ascii -> bool) (s : string) : bool :=
  match s with
  | String c s' => p c && allChars p s'
  | EmptyString => true
  end.

(** [s] starts with a character of the class [p]. *)
Definition startsWith (p : ascii -> bool) (s : string) : bool :=
  match s with
  | String c _ => p c
  | EmptyString => false
  end.

Definition notSeparator (c : ascii) : bool := negb (isSeparator c).

Definition isAscii (c : ascii) : bool := (nat_of_ascii c <? 128)%nat.

(** The longest prefix of [s] made of characters of the class [p]. *)
Fixpoint takeWhile (p : ascii -> bool) (s : string) : string :=
  match s with
  | String c s' => if p c then String c (takeWhile p s') else EmptyString
  | EmptyString => EmptyString
  end.

(** A group [(p+)]: greedy, at least one character. *)
Definition group (p : ascii -> bool) (s : string) : option string :=
  match takeWhile p s with
  | EmptyString => None
  | capture => Some capture
  end.

(** [\s*(p+)] at the start of [s]: the star takes a white-space
    character and as many more as lets the group match, and gives it
    back to the group otherwise. *)
Fixpoint spacesThenGroup (p : ascii -> bool) (s : string) : option string :=
  match s with
  | String c s' =>
      if isWhiteSpace c then
        match spacesThenGroup p s' with
        | Some capture => Some capture
        | None => group p s
        end
      else group p s
  | EmptyString => None
  end.

(** The rest of [s] after the label, when [s] starts with it (case
    ignored). *)
Fixpoint matchLabel (label s : string) : option string :=
  match label with
  | EmptyString => Some s
  | String l label' =>
      match s with
      | String t s' => if sameLetter t l then matchLabel label' s' else None
      | EmptyString => None
      end
  end.

(** The capture of [label[:=]\s*(p+)] when the pattern matches at the
    start of [s]. *)
Definition matchHere (p : ascii -> bool) (label s : string) : option string :=
  match matchLabel label s with
  | Some (String c rest) => if isSeparator c then spacesThenGroup p rest else None
  | _ => None
  end.

(** [regex.exec(text)]: the capture of the leftmost match. *)
Fixpoint exec (p : ascii -> bool) (label s : string) : option string :=
  match matchHere p label s with
  | Some capture => Some capture
  | None =>
      match s with
      | String _ s' => exec p label s'
      | EmptyString => None
      end
  end.

(** The integer a string of decimal digits denotes. *)
Definition digitsValue (digits : string) : Z :=
  fold_left (fun acc c => 10 * acc + (Z.of_nat (nat_of_ascii c) - 48))
            (list_ascii_of_string digits) 0.

(** [m ? Number(m[1]) : undefined]; [Number] of a string of digits is
    the number closest to the integer it denotes. *)
Definition numberFrom (label text : string) : JsValue :=
  match exec isDigit label text with
  | Some capture => JNum (of_Z (digitsValue capture))
  | None => JUndefined
  end.

(** [m ? m[1].trim() : undefined] *)
Definition stringFrom (label text : string) : JsValue :=
  match exec isLetterOrSpace label text with
  | Some capture => JStr (trim capture)
  | None => JUndefined
  end.

Definition dateFrom (text : string) : JsValue :=
  match exec isDateChar "date_of_registration" text with
  | Some capture => JStr capture
  | None => JUndefined
  end.

(** The object [quick] once its twelve keys are assigned. *)
Definition quickParse (text : string) : gmap string JsValue :=
  list_to_map
    [ ("age", numberFrom "age" text);
      ("pincode", numberFrom "pincode" text);
      ("num_dependents", numberFrom "num_dependents" text);
      ("estimated_salary", numberFrom "estimated_salary" text);
      ("calls_made", numberFrom "calls_made" text);
      ("sms_sent", numberFrom "sms_sent" text);
      ("data_used", numberFrom "data_used" text);
      ("gender", stringFrom "gender" text);
      ("state", stringFrom "state" text);
      ("city", stringFrom "city" text);
      ("telecom_partner", stringFrom "telecom_partner" text);
      ("date_of_registration", dateFrom text) ].

Section Gemini.

Variable Number : string -> number.
Variable JSON_parse : string -> option (gmap string JsValue).

(** What the call to the language model yields for the user's text: the
    text of its response ([None] when anything in the [try] block
    throws). *)
Variable generateContent : string -> option string.

(** [extractPredictionRequest]: the quick parse, overridden key by key
    by the model's JSON when a key is configured, then coerced. *)
Definition extractPredictionRequest (apiKey : option string) (text : string)
    : gmap string JsValue :=
  let quick := quickParse text in
  if negb (String.eqb (default "" apiKey) "") then
    match generateContent text with
    | Some raw =>
        let json := safeParseJson JSON_parse (trim raw) in
        coerceTypes Number (json ∪ quick)
    | None => coerceTypes Number quick
    end
  else coerceTypes Number quick.

(** The world of [handleSend] with this extraction in it. *)
Definition world (apiKey : option string)
    (predictChurn : gmap string JsValue -> Outcome PredictionResponse)
    (nowSent dateSent nowReplied dateReplied : number) : InsightsPanel.World :=
  {| InsightsPanel.apiKey := apiKey;
     InsightsPanel.extractPredictionRequest :=
       fun text => Some (extractPredictionRequest apiKey text);
     InsightsPanel.predictChurn := predictChurn;
     InsightsPanel.nowSent := nowSent;
     InsightsPanel.dateSent := dateSent;
     InsightsPanel.nowReplied := nowReplied;
     InsightsPanel.dateReplied := dateReplied |}.

End Gemini.

(** The questions behind the quick-insight buttons, with their
    answers. *)
Definition predefinedInsights : list (string * string) :=
  [ ("What are the main factors causing customer churn?",
     InsightsPanel.insight_factors);
    ("How can we improve customer retention?",
     InsightsPanel.insight_retention);
    ("What is the profile of a high-risk customer?",
     InsightsPanel.insight_profile);
    ("Which contract type has the lowest churn rate?",
     InsightsPanel.insight_contract) ].

End Extraction.

(** ** PredictPanel: the form and the risk badge *)
Module PredictForm.

(** The form's content as the object it is at run time: [handleInputChange]
    writes whatever key the changed input is named by. *)
Definition initialFormData : gmap string JsValue :=
  list_to_map
    [ ("telecom_partner", JStr "Reliance Jio");
      ("gender", JStr "F");
      ("age", JNum (of_Z 35));
      ("state", JStr "Karnataka");
      ("city", JStr "Bangalore");
      ("pincode", JNum (of_Z 560001));
      ("date_of_registration", JStr "1/1/2020");
      ("num_dependents", JNum (of_Z 2));
      ("estimated_salary", JNum (of_Z 75000));
      ("calls_made", JNum (of_Z 50));
      ("sms_sent", JNum (of_Z 30));
      ("data_used", JNum (of_Z 5000)) ].

(** [name === 'age' || name === 'pincode' || ... || name === 'data_used'] *)
Definition isNumericName (name : string) : bool :=
  String.eqb name "age" || String.eqb name "pincode"
  || String.eqb name "num_dependents" || String.eqb name "estimated_salary"
  || String.eqb name "calls_made" || String.eqb name "sms_sent"
  || String.eqb name "data_used".

Section Runtime.

(** The runtime's [Number(value)] conversion of a string. *)
Variable Number : string -> number.

(** [handleInputChange], for the change event of the input [name] whose
    content is now [value]. *)
Definition handleInputChange (name value : string)
    (prev : gmap string JsValue) : gmap string JsValue :=
  <[name := if isNumericName name then JNum (Number value) else JStr value]> prev.

(** The form after a sequence of change events, oldest first. *)
Definition afterChanges (events : list (string * string))
    (formData : gmap string JsValue) : gmap string JsValue :=
  foldl (fun prev e => handleInputChange e.1 e.2 prev) formData events.

End Runtime.

(** Every required field holds a value of its type: a number for the
    seven numeric names, a string for the other five. *)
Definition wellTyped (formData : gmap string JsValue) : Prop :=
  forall k, k ∈ InsightsPanel.requiredFields ->
    if isNumericName k
    then exists n, formData !! k = Some (JNum n)
    else exists s, formData !! k = Some (JStr s).

Definition green : string :=
  "text-green-600 dark:text-green-400 bg-green-100 dark:bg-green-900/30".
Definition orange : string :=
  "text-orange-600 dark:text-orange-400 bg-orange-100 dark:bg-orange-900/30".
Definition red : string :=
  "text-red-600 dark:text-red-400 bg-red-100 dark:bg-red-900/30".

Definition getRiskColor (level : string) : string :=
  if String.eqb level "low" then green
  else if String.eqb level "medium" then orange
  else red.

(** The class of the badge that shows [result.riskLevel]. *)
Definition badgeColor (result : PredictPanel.PredictionResult) : string :=
  getRiskColor (PredictPanel.RiskLevel_string (PredictPanel.riskLevel result)).

End PredictForm.

(** ** PieChart *)
Module Pie.
Import Charts.

Record PieItem := { label : string; value : number; color : string }.

(** A segment: the item's own properties, then [percentage] and [path]. *)
Record Segment := {
  slabel : string;
  svalue : number;
  scolor : string;
  percentage : string;
  path : string;
}.

Inductive PieView :=
| PieNoData (text : string)
| PieSvg (total : number) (segments : list Segment).

(** [Math.PI] *)
Definition Math_PI : number := decimal 3141592653589793 1000000000000000.

(** [data.reduce((sum, item) => sum + item.value, 0)] *)
Definition sum (data : list PieItem) : number :=
  foldl (fun sum item => add sum (value item)) (of_Z 0) data.

Section Runtime.

Variable numberToString : number -> string.
Variable toFixed : number -> nat -> string.
Variables Math_cos Math_sin : number -> number.

(** One call of the function mapped over [data]: the segment of [item]
    and the value [currentAngle] is left with. *)
Definition segment (total currentAngle : number) (item : PieItem)
    : Traced (Segment * number) :=
  share <~ divide (value item) total ;;
  let percentage := mul share (of_Z 100) in
  fraction <~ divide percentage (of_Z 100) ;;
  let angle := mul fraction (of_Z 360) in
  let startAngle := currentAngle in
  let currentAngle := add currentAngle angle in
  startRad <~ divide (mul startAngle Math_PI) (of_Z 180) ;;
  endRad <~ divide (mul currentAngle Math_PI) (of_Z 180) ;;
  let x1 := add (of_Z 100) (mul (of_Z 80) (Math_cos startRad)) in
  let y1 := add (of_Z 100) (mul (of_Z 80) (Math_sin startRad)) in
  let x2 := add (of_Z 100) (mul (of_Z 80) (Math_cos endRad)) in
  let y2 := add (of_Z 100) (mul (of_Z 80) (Math_sin endRad)) in
  let largeArc := if gt angle (of_Z 180) then of_Z 1 else of_Z 0 in
  ret ({| slabel := label item; svalue := value item; scolor := color item;
          percentage := toFixed percentage 1;
          path := "M 100 100 L " +:+ numberToString x1 +:+ " "
                    +:+ numberToString y1 +:+ " A 80 80 0 "
                    +:+ numberToString largeArc +:+ " 1 "
                    +:+ numberToString x2 +:+ " "
                    +:+ numberToString y2 +:+ " Z" |},
       currentAngle).

(** [data.map(...)], with [currentAngle] carried from item to item. *)
Fixpoint segments (total currentAngle : number) (data : list PieItem)
    : Traced (list Segment) :=
  match data with
  | [] => ret []
  | item :: rest =>
      sc <~ segment total currentAngle item ;;
      segs <~ segments total (snd sc) rest ;;
      ret (fst sc :: segs)
  end.

Definition PieChart (data : list PieItem) : Traced PieView :=
  let total := sum data in
  if eq total (of_Z 0) then ret (PieNoData noData)
  else
    segs <~ segments total (of_Z (-90)) data ;;
    ret (PieSvg total segs).

End Runtime.

End Pie.

(** ** App and Sidebar: the navigation *)
Module App.

Inductive View := DashboardView | PredictPanelView | InsightsPanelView.

(** The initial [activeView]. *)
Definition initialView : string := "dashboard".

Definition renderView (activeView : string) : View :=
  if String.eqb activeView "dashboard" then DashboardView
  else if String.eqb activeView "predict" then PredictPanelView
  else if String.eqb activeView "insights" then InsightsPanelView
  else DashboardView.

End App.

Module Sidebar.

Record MenuItem := { id : string; label : string }.

Definition menuItems : list MenuItem :=
  [ {| id := "dashboard"; label := "Dashboard" |};
    {| id := "predict"; label := "Predict" |};
    {| id := "insights"; label := "Insights" |} ].

(** [activeView === item.id] *)
Definition isActive (activeView : string) (item : MenuItem) : bool :=
  String.eqb activeView (id item).

(** The button of [item] is clicked: [onViewChange(item.id)], which is
    the application's [setActiveView]. *)
Definition onClick (item : MenuItem) (activeView : string) : string := id item.

(** [activeView] after the buttons of [clicks] have been clicked, oldest
    first. *)
Definition afterClicks (clicks : list MenuItem) (activeView : string) : string :=
  foldl (fun view item => onClick item view) activeView clicks.

End Sidebar.

(** ** MetricCard *)
Module MetricCard.

Inductive Trend := up | down | neutral.

(** [trend] is an optional property. *)
Definition getTrendColor (trend : option Trend) : string :=
  match trend with
  | None => ""
  | Some up => "text-green-600 dark:text-green-400"
  | Some down => "text-red-600 dark:text-red-400"
  | Some neutral => "text-slate-600 dark:text-slate-400"
  end.

Record Card := {
  title : string;
  value : string;
  (** the paragraph under the value, when [change] is truthy: its colour
      class and its text *)
  caption : option (string * string);
}.

Definition MetricCard (title value : string) (change : option string)
    (trend : option Trend) : Card :=
  {| title := title; value := value;
     caption :=
       match change with
       | Some text =>
           if String.eqb text "" then None else Some (getTrendColor trend, text)
       | None => None
       end |}.

End MetricCard.

(** ** Dashboard *)
Module Dashboard.

Record DashboardData := {
  totalCustomers : number;
  churnRate : number;
  avgMonthlyCharges : number;
  avgTenure : number;
  highRiskCount : number;
  churnData : list Pie.PieItem;
  tenureData : list Charts.BarItem;
  chargesData : list Charts.LineItem;
}.

Inductive ApiStatus := connected | disconnected | checking.

Record State := {
  data : DashboardData;
  loading : bool;
  apiStatus : ApiStatus;
}.

Definition setData (d : DashboardData) (st : State) : State :=
  {| data := d; loading := loading st; apiStatus := apiStatus st |}.
Definition setLoading (b : bool) (st : State) : State :=
  {| data := data st; loading := b; apiStatus := apiStatus st |}.
Definition setApiStatus (s : ApiStatus) (st : State) : State :=
  {| data := data st; loading := loading st; apiStatus := s |}.

(** The data of the initial state, also set when the API is not
    available. *)
Definition defaultData : DashboardData :=
  {| totalCustomers := of_Z 0;
     churnRate := of_Z 0;
     avgMonthlyCharges := of_Z 0;
     avgTenure := of_Z 0;
     highRiskCount := of_Z 0;
     churnData := [];
     tenureData := [];
     chargesData := [] |}.

Definition initialState : State :=
  {| data := defaultData; loading := true; apiStatus := checking |}.

Definition mockData : DashboardData :=
  {| totalCustomers := of_Z 1250;
     churnRate := decimal 185 10;
     avgMonthlyCharges := decimal 6550 100;
     avgTenure := decimal 243 10;
     highRiskCount := of_Z 45;
     churnData :=
       [ {| Pie.label := "Active"; Pie.value := of_Z 1018;
            Pie.color := "rgb(34, 197, 94)" |};
         {| Pie.label := "Churned"; Pie.value := of_Z 232;
            Pie.color := "rgb(239, 68, 68)" |} ];
     tenureData :=
       [ {| Charts.blabel := "0-12"; Charts.churned := of_Z 45;
            Charts.stayed := of_Z 120 |};
         {| Charts.blabel := "13-24"; Charts.churned := of_Z 38;
            Charts.stayed := of_Z 180 |};
         {| Charts.blabel := "25-36"; Charts.churned := of_Z 25;
            Charts.stayed := of_Z 220 |};
         {| Charts.blabel := "37-48"; Charts.churned := of_Z 15;
            Charts.stayed := of_Z 280 |};
         {| Charts.blabel := "49+"; Charts.churned := of_Z 8;
            Charts.stayed := of_Z 350 |} ];
     chargesData :=
       [ {| Charts.label := "$0-30"; Charts.value := decimal 52 10 |};
         {| Charts.label := "$31-60"; Charts.value := decimal 128 10 |};
         {| Charts.label := "$61-90"; Charts.value := decimal 285 10 |};
         {| Charts.label := "$91+"; Charts.value := decimal 452 10 |} ] |}.

(** [loadDashboardData], given what [apiService.healthCheck()] settles
    with; the response itself is not read. *)
Definition loadDashboardData {A} (healthCheck : Outcome A) (st : State) : State :=
  let st :=
    match healthCheck with
    | Resolved _ => setData mockData (setApiStatus connected st)
    | Rejected _ => setData defaultData (setApiStatus disconnected st)
    end in
  setLoading false st.

(** The text of the status badge. *)
Definition badge (status : ApiStatus) : string :=
  match status with
  | connected => "API Connected"
  | disconnected => "API Disconnected"
  | checking => "Checking..."
  end.

(** [data.churnRate < 20 ? 'Low risk' : 'High risk'] *)
Definition churnChange (d : DashboardData) : string :=
  if lt (churnRate d) (of_Z 20) then "Low risk" else "High risk".

Inductive View :=
| Spinner
| Overview (badge : string) (cards : list MetricCard.Card)
           (pie : Charts.Traced Pie.PieView)
           (bar : Charts.Traced Charts.BarView)
           (line : Charts.Traced Charts.LineView).

Section Runtime.

Variable numberToString : number -> string.
Variable toLocaleString : number -> string.
Variable toFixed : number -> nat -> string.
Variables Math_cos Math_sin : number -> number.

Definition cards (d : DashboardData) : list MetricCard.Card :=
  [ MetricCard.MetricCard "Total Customers" (toLocaleString (totalCustomers d))
      None None;
    MetricCard.MetricCard "Churn Rate" (numberToString (churnRate d) +:+ "%")
      (Some (churnChange d)) (Some MetricCard.down);
    MetricCard.MetricCard "Avg Monthly Charge"
      ("$" +:+ numberToString (avgMonthlyCharges d)) None None;
    MetricCard.MetricCard "Avg Tenure" (numberToString (avgTenure d) +:+ " mo")
      None None;
    MetricCard.MetricCard "High Risk" (numberToString (highRiskCount d))
      (Some "Needs attention") (Some MetricCard.neutral) ].

(** What the component renders in the state [st]. *)
Definition render (st : State) : View :=
  if loading st then Spinner
  else
    Overview (badge (apiStatus st)) (cards (data st))
      (Pie.PieChart numberToString toFixed Math_cos Math_sin (churnData (data st)))
      (Charts.BarChart (tenureData (data st)))
      (Charts.LineChart numberToString (chargesData (data st))).

End Runtime.

End Dashboard.

(** ** UploadPanel *)
Module UploadPanel.

(** [Math.floor]: the largest integral number not above [x]; [x] itself
    when it is already integral, infinite or NaN.  For a finite
    [x = ±m * 2^e] with [e < 0] this is [floor (±m / 2^(-e))]; a result of
    zero (for a positive [x] below 1) is [+0]. *)
Definition Math_floor (x : number) : number :=
  match x with
  | S754_finite s m e =>
      if 0 <=? e then x
      else
        let q := cond_Zopp s (Zpos m) / 2 ^ (- e) in
        if q =? 0 then S754_zero s else of_Z q
  | _ => x
  end.

Inductive UploadStatus := idle | processing | success | error.

Record Stats := { total : number; imported : number; errors : number }.

Record State := {
  dragActive : bool;
  status : UploadStatus;
  message : string;
  stats : Stats;
}.

(** What the component reads of a [File]. *)
Record File := { name : string; type : string; size : number }.

Definition setDragActive (b : bool) (st : State) : State :=
  {| dragActive := b; status := status st; message := message st;
     stats := stats st |}.
Definition setStatus (s : UploadStatus) (st : State) : State :=
  {| dragActive := dragActive st; status := s; message := message st;
     stats := stats st |}.
Definition setMessage (m : string) (st : State) : State :=
  {| dragActive := dragActive st; status := status st; message := m;
     stats := stats st |}.
Definition setStats (s : Stats) (st : State) : State :=
  {| dragActive := dragActive st; status := status st; message := message st;
     stats := s |}.

Definition noStats : Stats :=
  {| total := of_Z 0; imported := of_Z 0; errors := of_Z 0 |}.

Definition initialState : State :=
  {| dragActive := false; status := idle; message := ""; stats := noStats |}.

Definition validTypes : list string :=
  [ "text/csv";
    "application/vnd.ms-excel";
    "application/vnd.openxmlformats-officedocument.spreadsheetml.sheet" ].

(** [s.endsWith(suffix)] *)
Definition endsWith (s suffix : string) : bool :=
  let n := String.length s in
  let k := String.length suffix in
  (k <=? n)%nat && String.eqb (String.substring (n - k) k s) suffix.

(** [10 * 1024 * 1024] *)
Definition sizeLimit : number := mul (mul (of_Z 10) (of_Z 1024)) (of_Z 1024).

(** [handleFile]: the next state, and whether the processing timer was
    started. *)
Definition handleFile (file : File) (st : State) : State * bool :=
  if negb (existsb (String.eqb (type file)) validTypes)
     && negb (endsWith (name file) ".csv")
  then (setMessage "Please upload a CSV or Excel file" (setStatus error st), false)
  else if gt (size file) sizeLimit
  then (setMessage "File size must be less than 10MB" (setStatus error st), false)
  else (setMessage "Processing file..." (setStatus processing st), true).

Definition c0_95 : number := decimal 95 100.

(** The statistics the timer's callback makes up from [random], the
    value [Math.random()] returns. *)
Definition simulate (random : number) : Stats :=
  let total := add (Math_floor (mul random (of_Z 1000))) (of_Z 500) in
  let imported := Math_floor (mul total c0_95) in
  let errors := sub total imported in
  {| total := total; imported := imported; errors := errors |}.

Section Runtime.

Variable numberToString : number -> string.

(** The callback of [setTimeout], run 3 seconds after an accepted
    file. *)
Definition onTimeout (random : number) (st : State) : State :=
  let s := simulate random in
  let st := setStats s st in
  if eq (errors s) (of_Z 0) then
    setMessage ("Successfully imported " +:+ numberToString (imported s)
                  +:+ " records")
      (setStatus success st)
  else
    setMessage ("Imported " +:+ numberToString (imported s)
                  +:+ " records with " +:+ numberToString (errors s)
                  +:+ " errors")
      (setStatus success st).

End Runtime.

(** [resetUpload]; the pending timer, if any, is left running. *)
Definition resetUpload (st : State) : State :=
  setStats noStats (setMessage "" (setStatus idle st)).

(** [stats.total > 0 ? (stats.imported / stats.total) * 100 : 0], the
    width of the progress bar. *)
Definition barWidth (s : Stats) : Charts.Traced number :=
  if gt (total s) (of_Z 0) then
    Charts.bind (Charts.divide (imported s) (total s))
      (fun share => Charts.ret (mul share (of_Z 100)))
  else Charts.ret (of_Z 0).

(** The checks the made-up statistics pass: [500 <= total <= 1500],
    [25 <= errors <= 75], [imported + errors = total]. *)
Definition plausible (s : Stats) : bool :=
  le (of_Z 500) (total s) && le (total s) (of_Z 1500)
  && le (of_Z 25) (errors s) && le (errors s) (of_Z 75)
  && eq (add (imported s) (errors s)) (total s)
  && negb (eq (errors s) (of_Z 0))
  && gt (total s) (of_Z 0).

(** The statistics made up when [Math.floor(Math.random() * 1000)] is
    the integer [n]. *)
Definition statsFrom (n : Z) : Stats :=
  let total := add (of_Z n) (of_Z 500) in
  let imported := Math_floor (mul total c0_95) in
  {| total := total; imported := imported; errors := sub total imported |}.

End UploadPanel.

(** ** Messages that spell a request out

    What is needed to state how the quick parse reads a message of the
    form [label: value, label: value, ...]. *)
Module Spelling.
Import Extraction.

(** The class of characters the pattern of [label] captures. *)
Definition fieldClass (label : string) : ascii -> bool :=
  if bool_decide (label ∈ numericFields) then isDigit
  else if String.eqb label "date_of_registration" then isDateChar
  else isLetterOrSpace.

(** What the quick parse stores for [label] from the capture. *)
Definition fieldValue (label capture : string) : JsValue :=
  if bool_decide (label ∈ numericFields) then JNum (of_Z (digitsValue capture))
  else if String.eqb label "date_of_registration" then JStr capture
  else JStr (trim capture).

(** A field the message can spell: a required label and a non-empty
    value of the label's class that does not start with white space. *)
Definition wellFormedField (field : string * string) : bool :=
  bool_decide (field.1 ∈ InsightsPanel.requiredFields)
  && negb (String.eqb field.2 "")
  && allChars (fieldClass field.1) field.2
  && negb (startsWith isWhiteSpace field.2).

(** [label: value] *)
Definition spell (field : string * string) : string :=
  field.1 +:+ ": " +:+ field.2.

(** The fields spelt one after the other, separated by [, ]. *)
Definition spellOut (fields : list (string * string)) : string :=
  JS.join ", " (map spell fields).

(** The value of the first field named [label], if any. *)
Definition firstValue (label : string) (fields : list (string * string))
    : JsValue :=
  match List.find (fun field => String.eqb field.1 label) fields with
  | Some field => fieldValue label field.2
  | None => JUndefined
  end.

Definition notWhiteSpace (c : ascii) : bool := negb (isWhiteSpace c).

(** No suffix of [other], [other] included, is [label] in some letter
    case. *)
Fixpoint noSuffixIs (label other : string) : bool :=
  negb (String.eqb (toUpperCase other) (toUpperCase label))
  && match other with
     | String _ other' => noSuffixIs label other'
     | EmptyString => true
     end.

(** What the pattern of [label] needs of each field of the message. *)
Definition readable (p : ascii -> bool) (label : string)
    (field : string * string) : Prop :=
  allChars notSeparator field.1 = true
  /\ allChars notSeparator field.2 = true
  /\ if String.eqb field.1 label
     then field.2 <> "" /\ startsWith isWhiteSpace field.2 = false
          /\ allChars p field.2 = true
     else noSuffixIs label field.1 = true.

End Spelling.

(** ** A chat session

    [handleSend] is asynchronous: it appends the user's message, clears
    the input and sets [loading] at once, then awaits the extraction of
    a request and, for a complete request, the prediction API; the reply
    is appended and [loading] reset when the last promise has settled.
    In between the component is on display and takes other events. *)
Module Session.
Import InsightsPanel.

(** The message the chat opens with; [date] is the time the component
    was created at. *)
Definition greeting (date : number) : Message :=
  {| id := "1"; role := assistant;
     content := "Hello! I'm your AI assistant for telecom churn insights. Ask me anything about customer churn patterns, retention strategies, or data analysis.";
     timestamp := date |}.

Definition initialState (date : number) : State :=
  {| messages := [greeting date]; input := ""; loading := false |}.

(** [setInput(text)] *)
Definition setInput (text : string) (st : State) : State :=
  {| messages := messages st; input := text; loading := loading st |}.

(** Where a [handleSend] under way stands: it awaits
    [extractPredictionRequest], or [apiService.predictChurn] for the
    request it has sent. *)
Inductive Phase :=
| Extracting
| Predicting (request : gmap string JsValue).

(** A [handleSend] under way: the world it runs in (clock, extraction,
    API outcome), the text it took from the input, and its phase. *)
Record Pending := { world : World; text : string; phase : Phase }.

(** The component between two events: the state on display, the
    [handleSend] under way if any, and the requests sent to the
    prediction API so far. *)
Record Machine := {
  ui : State;
  pending : option Pending;
  calls : list (gmap string JsValue);
}.

Definition initial (date : number) : Machine :=
  {| ui := initialState date; pending := None; calls := [] |}.

(** What can happen: the user types in the text box (disabled while
    loading), clicks a quick-insight button, sends (Enter or the send
    button), or the promise the call under way awaits settles. *)
Inductive Event :=
| Typed (value : string)
| Clicked (question : string)
| Send (w : World)
| Settle.

Definition isSend (e : Event) : bool :=
  match e with Send _ => true | _ => false end.

Section Runtime.

Variable toFixed : number -> nat -> string.
Variable numberToString : number -> string.

(** [handleSend] up to its first [await]. *)
Definition begin (w : World) (m : Machine) : Machine :=
  let st := ui m in
  if String.eqb (trim (input st)) "" || loading st then m
  else
    let taken := trim (input st) in
    let userMessage :=
      {| id := numberToString (nowSent w); role := user;
         content := taken; timestamp := dateSent w |} in
    {| ui := {| messages := messages st ++ [userMessage];
                input := "";
                loading := true |};
       pending := Some {| world := w; text := taken; phase := Extracting |};
       calls := calls m |}.

(** The end of [handleSend]: the reply is appended and the [finally]
    block resets [loading]. *)
Definition finish (w : World) (answer : string) (m : Machine) : Machine :=
  let aiResponse :=
    {| id := numberToString (add (nowReplied w) c1); role := assistant;
       content := answer; timestamp := dateReplied w |} in
  {| ui := {| messages := messages (ui m) ++ [aiResponse];
              input := input (ui m);
              loading := false |};
     pending := None;
     calls := calls m |}.

(** [handleSend] from the [await] that has settled to the next one, or
    to its end. *)
Definition resume (p : Pending) (m : Machine) : Machine :=
  let w := world p in
  match phase p with
  | Extracting =>
      match extractPredictionRequest w (text p) with
      | Some maybeRequest =>
          let missing := missingFields maybeRequest in
          if (length missing =? 0)%nat then
            {| ui := ui m;
               pending := Some {| world := w; text := text p;
                                  phase := Predicting maybeRequest |};
               calls := calls m ++ [maybeRequest] |}
          else if negb (String.eqb (default "" (apiKey w)) "") then
            finish w (clarification missing) m
          else
            finish w (generateAIResponse (text p)) m
      | None => finish w (generateAIResponse (text p)) m
      end
  | Predicting request =>
      match predictChurn w request with
      | Resolved prediction =>
          finish w (formatPredictionMessage toFixed prediction) m
      | Rejected err =>
          finish w (or_default (response_data_error err) predictionFailed) m
      end
  end.

Definition step (m : Machine) (e : Event) : Machine :=
  match e with
  | Typed value =>
      if loading (ui m) then m
      else {| ui := setInput value (ui m); pending := pending m;
              calls := calls m |}
  | Clicked question =>
      {| ui := setInput question (ui m); pending := pending m;
         calls := calls m |}
  | Send w => begin w m
  | Settle =>
      match pending m with
      | Some p => resume p m
      | None => m
      end
  end.

Definition run (events : list Event) (date : number) : Machine :=
  fold_left step events (initial date).

End Runtime.

(** A question and its reply, as they stand in the history. *)
Definition exchange (e : Message * Message) : list Message := [e.1; e.2].

(** A user's message that is not empty, followed by a reply that is not
    empty either. *)
Definition answered (e : Message * Message) : Prop :=
  role e.1 = user /\ content e.1 <> ""
  /\ role e.2 = assistant /\ content e.2 <> "".

(** The end of the history while a reply is awaited: the user's message,
    not empty, that the call under way took from the input; nothing
    otherwise. *)
Definition unanswered (p : option Pending) (tail : list Message) : Prop :=
  match p with
  | Some p =>
      exists u, tail = [u] /\ role u = user /\ content u = text p
                /\ text p <> ""
  | None => tail = []
  end.

(** Whether a [handleSend] is under way. *)
Definition busy (m : Machine) : bool :=
  match pending m with Some _ => true | None => false end.

(** The number of calls to the prediction API that have not been
    answered yet. *)
Definition inFlight (m : Machine) : nat :=
  match pending m with
  | Some p => match phase p with Predicting _ => 1 | Extracting => 0 end
  | None => 0
  end.

(** The condition every state of a session meets, [sends] being the
    number of send events so far. *)
Definition wellFormed (date : number) (sends : nat) (m : Machine) : Prop :=
  loading (ui m) = busy m
  /\ exists exchanges tail,
       messages (ui m)
       = greeting date :: concat (map exchange exchanges) ++ tail
       /\ Forall answered exchanges
       /\ unanswered (pending m) tail
       /\ (length (calls m) <= length exchanges + inFlight m)%nat
       /\ (length exchanges + length tail <= sends)%nat.

End Session.

(** ** An upload session *)
Module UploadSession.
Import UploadPanel.

(** The component and the number of processing timers yet to fire. *)
Record Machine := { ui : State; timers : nat }.

Definition initial : Machine := {| ui := initialState; timers := 0 |}.

(** What can happen: a drag event of some type, a drop, a choice in the
    file input, a timer firing (with the value [Math.random()] then
    returns), a click on [Upload Another File]. *)
Inductive Event :=
| Drag (type : string)
| Drop (files : list File)
| FileInput (files : list File)
| Timeout (random : number)
| Reset.

Definition handleDrag (type : string) (st : State) : State :=
  if String.eqb type "dragenter" || String.eqb type "dragover"
  then setDragActive true st
  else if String.eqb type "dragleave" then setDragActive false st
  else st.

(** [if (files && files[0]) handleFile(files[0])] *)
Definition handleFiles (files : list File) (m : Machine) : Machine :=
  match files with
  | file :: _ =>
      let out := handleFile file (ui m) in
      {| ui := out.1; timers := if out.2 then S (timers m) else timers m |}
  | [] => m
  end.

Section Runtime.

Variable numberToString : number -> string.

(** One event.  The file input is disabled while a file is processed,
    the reset button is rendered only when the status is not idle, and a
    timer fires only if one is pending. *)
Definition step (m : Machine) (e : Event) : Machine :=
  match e with
  | Drag type => {| ui := handleDrag type (ui m); timers := timers m |}
  | Drop files =>
      handleFiles files {| ui := setDragActive false (ui m); timers := timers m |}
  | FileInput files =>
      match status (ui m) with
      | processing => m
      | _ => handleFiles files m
      end
  | Timeout random =>
      match timers m with
      | O => m
      | S n => {| ui := onTimeout numberToString random (ui m); timers := n |}
      end
  | Reset =>
      match status (ui m) with
      | idle => m
      | _ => {| ui := resetUpload (ui m); timers := timers m |}
      end
  end.

Definition run (events : list Event) : Machine := fold_left step events initial.

(** The status, the message and the statistics on display agree. *)
Definition consistent (st : State) : Prop :=
  match status st with
  | idle => message st = "" /\ stats st = noStats
  | processing => message st = "Processing file..."
  | error =>
      message st = "Please upload a CSV or Excel file"
      \/ message st = "File size must be less than 10MB"
  | success =>
      plausible (stats st) = true
      /\ message st
         = "Imported " +:+ numberToString (imported (stats st))
             +:+ " records with " +:+ numberToString (errors (stats st))
             +:+ " errors"
  end.

End Runtime.

(** [Math.random()] returns a number in [0, 1). *)
Definition randomInRange (e : Event) : Prop :=
  match e with
  | Timeout random =>
      valid random = true /\ le (of_Z 0) random = true
      /\ lt random (of_Z 1) = true
  | _ => True
  end.

End UploadSession.

(* ===================================================================== *)
(** * Part II: lemmas and theorems                                         *)
(* ===================================================================== *)

(** ** The definitions on concrete inputs *)

Example trim_strips_both_ends : trim (String "009"%char " a b  ") = "a b".
Proof. reflexivity. Qed.

Example Math_round_ties_go_up :
  Math_round (decimal 5 10) = of_Z 1
  /\ Math_round (SFopp (decimal 5 10)) = S754_zero true
  /\ Math_round (decimal 25 10) = of_Z 3
  /\ Math_round (SFopp (decimal 25 10)) = of_Z (-2).
Proof. repeat split; vm_compute; reflexivity. Qed.

Example Math_max_values :
  Math_max [of_Z 3; of_Z 7; of_Z 5] = of_Z 7
  /\ Math_max [] = S754_infinity true
  /\ Math_max [of_Z 3; S754_nan; of_Z 5] = S754_nan
  /\ Math_max [S754_zero true; S754_zero false] = S754_zero false.
Proof. repeat split; vm_compute; reflexivity. Qed.

(** A response with churn probability 0.72, for the initial form (two
    dependents, salary 75000). *)
Example makePrediction_resolved :
  PredictPanel.makePrediction PredictPanel.initialFormData
    (Resolved (Samples.responseWith (decimal 72 100))) Samples.idle
  = {| PredictPanel.loading := false;
       PredictPanel.result :=
         Some {| PredictPanel.churnProbability := decimal 72 100;
                 PredictPanel.loyaltyScore := of_Z 28;
                 PredictPanel.riskLevel := PredictPanel.high;
                 PredictPanel.suggestions :=
                   [ "Offer a loyalty discount or special promotion";
                     "Contact customer to discuss service satisfaction";
                     "Upgrade to a longer-term contract with benefits";
                     "Provide family plan benefits" ] |};
       PredictPanel.error := None |}.
Proof. vm_compute. reflexivity. Qed.

Example makePrediction_server_error :
  PredictPanel.makePrediction PredictPanel.initialFormData
    (Rejected Samples.serverError) Samples.idle
  = {| PredictPanel.loading := false;
       PredictPanel.result := None;
       PredictPanel.error := Some "Model not loaded" |}.
Proof. reflexivity. Qed.

(** NaN compares false with everything and lands in the last branch. *)
Example computeRiskLevel_values :
  PredictPanel.computeRiskLevel (decimal 61 100) = PredictPanel.high
  /\ PredictPanel.computeRiskLevel (decimal 31 100) = PredictPanel.medium
  /\ PredictPanel.computeRiskLevel (decimal 1 10) = PredictPanel.low
  /\ PredictPanel.computeRiskLevel S754_nan = PredictPanel.low.
Proof. repeat split; vm_compute; reflexivity. Qed.

Example generateAIResponse_values :
  InsightsPanel.generateAIResponse "Which FACTOR drives churn?"
  = InsightsPanel.insight_factors
  /\ InsightsPanel.generateAIResponse "what about this customer"
     = InsightsPanel.insight_generic.
Proof. split; vm_compute; reflexivity. Qed.

Example handleSend_asks_for_missing_fields :
  reply (fst (InsightsPanel.handleSend Samples.noFormat Samples.noString
                (Samples.world (Some "key") Samples.partialRequest)
                (Samples.chat "predict for this customer")))
  = Some "To run a prediction, I still need: age, state, city. Please provide them in a sentence or JSON.".
Proof. vm_compute. reflexivity. Qed.

Example handleSend_ignores_blank_input :
  InsightsPanel.handleSend Samples.noFormat Samples.noString
    (Samples.world (Some "key") Samples.completeRequest) (Samples.chat "   ")
  = (Samples.chat "   ", []).
Proof. reflexivity. Qed.

(** ** The literals *)

Example c0_6_bits :
  PredictPanel.c0_6 = S754_finite false 5404319552844595 (-53).
Proof. vm_compute. reflexivity. Qed.

Example c0_3_bits :
  PredictPanel.c0_3 = S754_finite false 5404319552844595 (-54).
Proof. vm_compute. reflexivity. Qed.

Example c1_bits : PredictPanel.c1 = S754_finite false 4503599627370496 (-52).
Proof. vm_compute. reflexivity. Qed.

Example c100_bits : PredictPanel.c100 = S754_finite false 7036874417766400 (-46).
Proof. vm_compute. reflexivity. Qed.

(** ** Order on numbers *)
Section NumberOrder.

Lemma SFcompare_antisym (a b : number) :
  SFcompare b a = option_map CompOpp (SFcompare a b).
Proof.
  destruct a as [sa|sa| |sa ma ea], b as [sb|sb| |sb mb eb]; simpl;
    try reflexivity;
    try (destruct sa; reflexivity); try (destruct sb; reflexivity);
    try (destruct sa, sb; reflexivity).
  destruct sa, sb; simpl; try reflexivity;
    rewrite (Z.compare_antisym ea eb);
    destruct (ea ?= eb); simpl; try reflexivity;
    rewrite !Pos.compare_cont_antisym; reflexivity.
Qed.

Lemma SFcompare_None (a b : number) :
  SFcompare a b = None -> is_nan a = true \/ is_nan b = true.
Proof.
  destruct a as [sa|sa| |sa ma ea], b as [sb|sb| |sb mb eb]; simpl;
    intros H; auto; discriminate H.
Qed.


(** On numbers (NaN apart), [a > b] failing means [a <= b]. *)
Lemma not_gt_le (a b : number) :
  is_nan a = false -> is_nan b = false -> gt a b = false -> le a b = true.
Proof.
  unfold le, gt, SFleb, SFltb. intros Ha Hb.
  rewrite (SFcompare_antisym a b).
  destruct (SFcompare a b) as [[ | | ]|] eqn:E; simpl; try congruence.
  destruct (SFcompare_None _ _ E); congruence.
Qed.

Lemma gt_not_nan (a b : number) : gt a b = true -> is_nan a = false.
Proof.
  unfold gt, SFltb. destruct a, b; simpl; congruence.
Qed.

Lemma le_not_nan (a b : number) : le a b = true -> is_nan a = false.
Proof.
  unfold le, SFleb. destruct a, b; simpl; congruence.
Qed.

(** Whatever is at most [0.3] is not above [0.6]. *)
Lemma le_c0_3_not_gt_c0_6 (p : number) :
  le p PredictPanel.c0_3 = true -> gt p PredictPanel.c0_6 = false.
Proof.
  rewrite c0_3_bits, c0_6_bits. unfold le, gt, SFleb, SFltb.
  destruct p as [s|s| |s m e]; cbn [SFcompare].
  - reflexivity.
  - destruct s; [reflexivity|discriminate].
  - reflexivity.
  - destruct s; [reflexivity|].
    destruct (Z.compare_spec e (-54)) as [He|He|He];
      destruct (Z.compare_spec (-53) e) as [He'|He'|He'];
      try reflexivity; try (exfalso; lia); discriminate.
Qed.

End NumberOrder.

(** ** Risk buckets *)
Section RiskBuckets.
Import PredictPanel.





End RiskBuckets.




(** ** Retention suggestions *)
Section Suggestions.
Import PredictPanel.
Local Open Scope nat_scope.

Lemma baseSuggestions_length (p : number) :
  length (baseSuggestions p) = if gt p c0_6 then 3 else 2.
Proof.
  unfold baseSuggestions.
  destruct (gt p c0_6); [reflexivity|].
  destruct (gt p c0_3); reflexivity.
Qed.

Lemma pushedSuggestions_length (formData : PredictionRequest) (p : number) :
  length (pushedSuggestions formData p)
  = length (baseSuggestions p)
    + (if gt (estimated_salary formData) c80000 then 1 else 0)
    + (if gt (num_dependents formData) c0 then 1 else 0).
Proof.
  unfold pushedSuggestions.
  destruct (gt (estimated_salary formData) c80000),
           (gt (num_dependents formData) c0);
    rewrite ?length_app; cbn [length]; lia.
Qed.

End Suggestions.

(** C9. The suggestions shown with a successful prediction.  When the
    call resolves, whatever the panel showed before, the result state
    holds a prediction whose suggestions are: 3 from the bucket when the
    probability is above 0.6 and 2 otherwise, one more when the estimated
    salary is above 80000, one more when there are dependents, the whole
    cut to its first 4 entries; hence between 2 and 4 suggestions. *)
Theorem suggestions_between_2_and_4
    (formData : PredictionRequest) (response : PredictionResponse)
    (st : PredictPanel.State) :
  let p := churn_probability response in
  let st' := PredictPanel.makePrediction formData (Resolved response) st in
  exists r,
    PredictPanel.result st' = Some r
    /\ (length (PredictPanel.baseSuggestions p)
        = if gt p PredictPanel.c0_6 then 3 else 2)%nat
    /\ (length (PredictPanel.pushedSuggestions formData p)
        = length (PredictPanel.baseSuggestions p)
          + (if gt (estimated_salary formData) PredictPanel.c80000 then 1 else 0)
          + (if gt (num_dependents formData) PredictPanel.c0 then 1 else 0))%nat
    /\ PredictPanel.suggestions r
       = take 4 (PredictPanel.pushedSuggestions formData p)
    /\ (length (PredictPanel.suggestions r)
        = Nat.min 4 (length (PredictPanel.pushedSuggestions formData p)))%nat
    /\ (2 <= length (PredictPanel.suggestions r) <= 4)%nat.
Proof.
  intros p st'. exists (PredictPanel.predictionResult formData response).
  split; [reflexivity|].
  cbn [PredictPanel.predictionResult PredictPanel.suggestions]. fold p.
  pose proof (baseSuggestions_length p) as Hb.
  pose proof (pushedSuggestions_length formData p) as Hp.
  rewrite length_take.
  split; [exact Hb|].
  split; [exact Hp|].
  split; [reflexivity|].
  split; [reflexivity|].
  rewrite Hp, Hb.
  destruct (gt p PredictPanel.c0_6),
           (gt (estimated_salary formData) PredictPanel.c80000),
           (gt (num_dependents formData) PredictPanel.c0); lia.
Qed.

(** ** Failing prediction calls *)
Section Failures.

Lemma or_default_nonempty (s : option string) (d : string) :
  d <> "" -> or_default s d <> "".
Proof.
  intros Hd. unfold or_default.
  destruct s as [s|]; [|exact Hd].
  destruct (String.eqb s "") eqn:E; [exact Hd|].
  intros ->. discriminate E.
Qed.

Lemma makePrediction_rejected
    (formData : PredictionRequest) (err : Thrown) (st : PredictPanel.State) :
  PredictPanel.makePrediction formData (Rejected err) st
  = {| PredictPanel.loading := false;
       PredictPanel.result := None;
       PredictPanel.error :=
         Some (or_default (response_data_error err) PredictPanel.failureMessage) |}.
Proof. reflexivity. Qed.

Variable toFixed : number -> nat -> string.
Variable numberToString : number -> string.

(** What [handleSend] does once past its guard. *)
Lemma handleSend_open (w : InsightsPanel.World) (st : InsightsPanel.State) :
  String.eqb (trim (InsightsPanel.input st)) "" = false ->
  InsightsPanel.loading st = false ->
  InsightsPanel.handleSend toFixed numberToString w st
  = let text := trim (InsightsPanel.input st) in
    let rc := InsightsPanel.respond toFixed w text in
    ({| InsightsPanel.messages :=
          InsightsPanel.messages st ++
          [ {| InsightsPanel.id := numberToString (InsightsPanel.nowSent w);
               InsightsPanel.role := InsightsPanel.user;
               InsightsPanel.content := text;
               InsightsPanel.timestamp := InsightsPanel.dateSent w |};
            {| InsightsPanel.id :=
                 numberToString (add (InsightsPanel.nowReplied w) InsightsPanel.c1);
               InsightsPanel.role := InsightsPanel.assistant;
               InsightsPanel.content := fst rc;
               InsightsPanel.timestamp := InsightsPanel.dateReplied w |} ];
        InsightsPanel.input := "";
        InsightsPanel.loading := false |}, snd rc).
Proof.
  intros Hin Hl. unfold InsightsPanel.handleSend. rewrite Hin, Hl.
  cbn [orb]. destruct (InsightsPanel.respond _ _ _); reflexivity.
Qed.

Lemma respond_rejected (w : InsightsPanel.World) (text : string)
    (req : gmap string JsValue) (err : Thrown) :
  InsightsPanel.extractPredictionRequest w text = Some req ->
  InsightsPanel.missingFields req = [] ->
  InsightsPanel.predictChurn w req = Rejected err ->
  InsightsPanel.respond toFixed w text
  = (or_default (response_data_error err) InsightsPanel.predictionFailed, [req]).
Proof.
  intros He Hm Hp. unfold InsightsPanel.respond. rewrite He, Hm, Hp.
  reflexivity.
Qed.

End Failures.

(** C4. A failing prediction call produces no prediction.  In the form
    panel the result stays [null], the error state holds a non-empty
    message (the server's, or else the fixed failure text) and loading is
    over.  In the chat panel the reply is that error text, not a formatted
    prediction. *)
Theorem failed_call_yields_error_only
    (toFixed : number -> nat -> string) (numberToString : number -> string)
    (formData : PredictionRequest) (err : Thrown) (st : PredictPanel.State)
    (w : InsightsPanel.World) (chat : InsightsPanel.State)
    (req : gmap string JsValue) :
  String.eqb (trim (InsightsPanel.input chat)) "" = false ->
  InsightsPanel.loading chat = false ->
  InsightsPanel.extractPredictionRequest w (trim (InsightsPanel.input chat)) = Some req ->
  InsightsPanel.missingFields req = [] ->
  InsightsPanel.predictChurn w req = Rejected err ->
  let st' := PredictPanel.makePrediction formData (Rejected err) st in
  let chat' := fst (InsightsPanel.handleSend toFixed numberToString w chat) in
  PredictPanel.result st' = None
  /\ PredictPanel.error st'
     = Some (or_default (response_data_error err) PredictPanel.failureMessage)
  /\ or_default (response_data_error err) PredictPanel.failureMessage <> ""
  /\ PredictPanel.loading st' = false
  /\ reply chat'
     = Some (or_default (response_data_error err) InsightsPanel.predictionFailed)
  /\ or_default (response_data_error err) InsightsPanel.predictionFailed <> "".
Proof.
  intros Hin Hl He Hm Hp st' chat'. subst st' chat'.
  rewrite makePrediction_rejected. cbn [PredictPanel.result PredictPanel.error PredictPanel.loading].
  rewrite (handleSend_open toFixed numberToString w chat Hin Hl). cbv zeta.
  rewrite (respond_rejected toFixed w _ req err He Hm Hp).
  cbn [fst snd InsightsPanel.messages]. unfold reply. cbn [InsightsPanel.messages].
  repeat split.
  - apply or_default_nonempty. discriminate.
  - change (?l ++ [?a; ?b]) with (l ++ [a] ++ [b]).
    rewrite app_assoc, last_snoc. reflexivity.
  - apply or_default_nonempty. discriminate.
Qed.

Lemma failed_call_yields_error_only_witness :
  reply (fst (InsightsPanel.handleSend Samples.noFormat Samples.noString
                (Samples.world (Some "key") Samples.completeRequest)
                (Samples.chat "predict churn for this customer")))
  = Some InsightsPanel.predictionFailed.
Proof.
  apply (failed_call_yields_error_only Samples.noFormat Samples.noString
           PredictPanel.initialFormData Samples.unreachable Samples.idle
           (Samples.world (Some "key") Samples.completeRequest)
           (Samples.chat "predict churn for this customer")
           Samples.completeRequest);
    vm_compute; reflexivity.
Defined.

(** ** Substrings *)
Section Substrings.

Lemma prefix_app (p s t : string) :
  String.prefix p s = true -> String.prefix p (s +:+ t) = true.
Proof.
  revert s. induction p as [|a p IH]; intros s H.
  - destruct (s +:+ t); reflexivity.
  - destruct s as [|b s]; [discriminate H|].
    simpl in *.
    destruct (ascii_dec a b); [apply IH; exact H|discriminate H].
Qed.

Lemma prefix_refl (s : string) : String.prefix s s = true.
Proof.
  induction s as [|a s IH]; [reflexivity|].
  cbn [String.prefix]. destruct (ascii_dec a a); [exact IH|congruence].
Qed.

Lemma includes_prefix (s sub : string) :
  String.prefix sub s = true -> includes s sub = true.
Proof. intros H. destruct s; cbn [includes]; rewrite H; reflexivity. Qed.

Lemma includes_app_l (s t sub : string) :
  includes s sub = true -> includes (s +:+ t) sub = true.
Proof.
  induction s as [|a s IH]; simpl; intros H.
  - rewrite orb_false_r in H. apply includes_prefix.
    apply (prefix_app sub "" t H).
  - apply orb_true_iff in H as [H|H].
    + apply (prefix_app sub (String a s) t) in H.
      simpl in H. rewrite H. reflexivity.
    + rewrite (IH H). apply orb_true_r.
Qed.

Lemma includes_app_r (s t sub : string) :
  includes t sub = true -> includes (s +:+ t) sub = true.
Proof.
  intros H. induction s as [|a s IH]; [exact H|].
  simpl. rewrite IH. apply orb_true_r.
Qed.

Lemma includes_refl (s : string) : includes s s = true.
Proof. apply includes_prefix, prefix_refl. Qed.

(** Every part shows in the joined string. *)
Lemma includes_join (sep : string) (parts : list string) (k : string) :
  k ∈ parts -> includes (join sep parts) k = true.
Proof.
  induction parts as [|p rest IH]; intros Hk.
  - apply elem_of_nil in Hk as [].
  - apply elem_of_cons in Hk as [->|Hk].
    + destruct rest; [apply includes_refl|].
      cbn [join]. apply includes_app_l, includes_refl.
    + destruct rest as [|q rest]; [apply elem_of_nil in Hk as []|].
      change (join sep (p :: q :: rest))
        with (p +:+ sep +:+ join sep (q :: rest)).
      apply includes_app_r, includes_app_r, IH, Hk.
Qed.

End Substrings.

(** ** Validation of a partial request *)
Section Validation.
Import InsightsPanel.

Lemma isMissing_spec (v : JsValue) :
  isMissing v = true
  <-> v = JUndefined \/ v = JNull \/ exists s, v = JStr s /\ trim s = "".
Proof.
  destruct v as [ | |b|n|s| ]; cbn [isMissing]; split;
    try (intros H; discriminate H); auto;
    try (intros [H|[H|[s' [H _]]]]; discriminate H).
  - intros H. right; right. exists s. split; [reflexivity|].
    apply String.eqb_eq, H.
  - intros [H|[H|[s' [H Hs]]]]; try discriminate H.
    injection H as ->. apply String.eqb_eq, Hs.
Qed.

Lemma missingFields_spec (req : gmap string JsValue) (k : string) :
  k ∈ missingFields req
  <-> k ∈ requiredFields /\ isMissing (get req k) = true.
Proof.
  unfold missingFields. rewrite list_elem_of_filter.
  rewrite Is_true_true. tauto.
Qed.

Lemma clarification_names (missing : list string) (k : string) :
  k ∈ missing -> includes (clarification missing) k = true.
Proof.
  intros Hk. unfold clarification.
  apply includes_app_r, includes_app_l, includes_join, Hk.
Qed.

Variable toFixed : number -> nat -> string.

Lemma respond_incomplete (w : World) (text : string)
    (req : gmap string JsValue) :
  extractPredictionRequest w text = Some req ->
  missingFields req <> [] ->
  respond toFixed w text
  = (if negb (String.eqb (default "" (apiKey w)) "")
     then clarification (missingFields req)
     else generateAIResponse text, []).
Proof.
  intros He Hm. unfold respond. rewrite He.
  destruct (missingFields req) as [|k ks] eqn:E; [congruence|].
  cbn [length Nat.eqb].
  destruct (negb (String.eqb (default "" (apiKey w)) "")); reflexivity.
Qed.

End Validation.

(** C2, as stated, fails: without a Gemini key the reply to an incomplete
    request is a canned insight that names none of the missing fields.
    Here the text names no field, all 12 are missing, and the reply does
    not mention the age. *)
Lemma missing_fields_unnamed_without_key :
  ~ (forall (toFixed : number -> nat -> string) (numberToString : number -> string)
            (w : InsightsPanel.World) (st : InsightsPanel.State)
            (req : gmap string JsValue),
        String.eqb (trim (InsightsPanel.input st)) "" = false ->
        InsightsPanel.loading st = false ->
        InsightsPanel.extractPredictionRequest w (trim (InsightsPanel.input st)) = Some req ->
        InsightsPanel.missingFields req <> [] ->
        exists r,
          reply (fst (InsightsPanel.handleSend toFixed numberToString w st)) = Some r
          /\ forall k, k ∈ InsightsPanel.missingFields req -> includes r k = true).
Proof.
  intros H.
  destruct (H Samples.noFormat Samples.noString
              (Samples.world None Samples.nothingExtracted)
              (Samples.chat "what about this customer")
              Samples.nothingExtracted) as [r [Hr Hk]];
    try (vm_compute; reflexivity).
  - vm_compute. discriminate.
  - vm_compute in Hr. injection Hr as <-.
    specialize (Hk "age").
    assert (Hage : "age" ∈ InsightsPanel.missingFields Samples.nothingExtracted)
      by (apply (bool_decide_unpack _); vm_compute; exact I).
    apply Hk in Hage. vm_compute in Hage. discriminate Hage.
Qed.

(** C2, amended.  The missing fields are exactly the required fields (12
    of them) whose value is [undefined], [null] or a string that is empty
    once trimmed.  When some field is missing, no prediction call is
    made; with a Gemini key configured the reply is the clarification,
    which names every missing field at once; without a key the reply is
    the canned insight for the text. *)
Theorem missing_fields_validation
    (toFixed : number -> nat -> string) (numberToString : number -> string)
    (w : InsightsPanel.World) (st : InsightsPanel.State)
    (req : gmap string JsValue) :
  String.eqb (trim (InsightsPanel.input st)) "" = false ->
  InsightsPanel.loading st = false ->
  InsightsPanel.extractPredictionRequest w (trim (InsightsPanel.input st)) = Some req ->
  let missing := InsightsPanel.missingFields req in
  let out := InsightsPanel.handleSend toFixed numberToString w st in
  length InsightsPanel.requiredFields = 12%nat
  /\ (forall k, k ∈ missing
        <-> k ∈ InsightsPanel.requiredFields
            /\ (InsightsPanel.get req k = JUndefined
                \/ InsightsPanel.get req k = JNull
                \/ exists s, InsightsPanel.get req k = JStr s /\ trim s = ""))
  /\ (missing <> [] ->
      snd out = []
      /\ (negb (String.eqb (default "" (InsightsPanel.apiKey w)) "") = true ->
          reply (fst out) = Some (InsightsPanel.clarification missing)
          /\ forall k, k ∈ missing ->
               includes (InsightsPanel.clarification missing) k = true)
      /\ (negb (String.eqb (default "" (InsightsPanel.apiKey w)) "") = false ->
          reply (fst out)
          = Some (InsightsPanel.generateAIResponse (trim (InsightsPanel.input st))))).
Proof.
  intros Hin Hl He missing out.
  split; [reflexivity|].
  split.
  { intros k. subst missing. rewrite missingFields_spec, isMissing_spec. tauto. }
  intros Hm. subst out.
  rewrite (handleSend_open toFixed numberToString w st Hin Hl). cbv zeta.
  rewrite (respond_incomplete toFixed w _ req He Hm).
  cbn [fst snd]. unfold reply. cbn [InsightsPanel.messages].
  change (InsightsPanel.messages st ++ [?a; ?b])
    with (InsightsPanel.messages st ++ [a] ++ [b]).
  rewrite app_assoc, last_snoc. cbn [fmap option_fmap option_map InsightsPanel.content].
  split; [reflexivity|].
  split.
  - intros Hkey. rewrite Hkey. split; [reflexivity|].
    intros k Hk. apply clarification_names, Hk.
  - intros Hkey. rewrite Hkey. reflexivity.
Qed.

Lemma missing_fields_validation_witness :
  InsightsPanel.missingFields Samples.partialRequest = ["age"; "state"; "city"]
  /\ snd (InsightsPanel.handleSend Samples.noFormat Samples.noString
            (Samples.world (Some "key") Samples.partialRequest)
            (Samples.chat "predict for this customer")) = [].
Proof.
  split; [vm_compute; reflexivity|].
  apply (missing_fields_validation Samples.noFormat Samples.noString
           (Samples.world (Some "key") Samples.partialRequest)
           (Samples.chat "predict for this customer")
           Samples.partialRequest);
    try (vm_compute; reflexivity).
  vm_compute. discriminate.
Defined.

(** ** Charts: the divisors *)
Section ChartDivisors.
Import Charts.

Lemma max_step_not_nan (values : list number) (h0 h : number) :
  is_nan h0 = false ->
  fold_left max_step values (Some h0) = Some h ->
  is_nan h = false.
Proof.
  revert h0. induction values as [|v values IH]; intros h0 H0 H.
  - injection H as <-. exact H0.
  - cbn [fold_left max_step] in H.
    destruct (is_nan v) eqn:Hv.
    + assert (Hnone : forall l, fold_left max_step l None = None)
        by (induction l; [reflexivity|assumption]).
      rewrite Hnone in H. discriminate H.
    + destruct (gt v h0); [exact (IH v Hv H)|].
      destruct v as [[|]| | |], h0 as [[|]| | |];
        first [exact (IH _ H0 H) | exact (IH _ Hv H)].
Qed.

(** With the literal [1] among its arguments, [Math.max] returns NaN or
    a number that is at least [1]. *)
Lemma Math_max_floor (values : list number) :
  let m := Math_max (values ++ [of_Z 1]) in
  is_nan m = true \/ le (of_Z 1) m = true.
Proof.
  unfold Math_max. rewrite fold_left_app. cbn [fold_left].
  destruct (fold_left max_step values (Some (S754_infinity true))) as [h|] eqn:E;
    [|left; reflexivity].
  right. pose proof (max_step_not_nan values (S754_infinity true) h eq_refl E) as Hh.
  unfold max_step. change (is_nan (of_Z 1)) with false. cbv iota.
  destruct (gt (of_Z 1) h) eqn:Hgt.
  - vm_compute. reflexivity.
  - replace (match of_Z 1 with
             | S754_zero false => match h with
                                  | S754_zero true => Some (of_Z 1)
                                  | _ => Some h
                                  end
             | _ => Some h
             end) with (Some h) by reflexivity.
    apply not_gt_le; [reflexivity|exact Hh|exact Hgt].
Qed.

Lemma le_one_not_zero (m : number) : le (of_Z 1) m = true -> is_zero m = false.
Proof. destruct m; [discriminate|reflexivity..]. Qed.

Lemma Math_max_floor_not_zero (values : list number) :
  is_zero (Math_max (values ++ [of_Z 1])) = false.
Proof.
  destruct (Math_max_floor values) as [H|H].
  - destruct (Math_max (values ++ [of_Z 1])); [discriminate H|reflexivity..].
  - apply le_one_not_zero, H.
Qed.

Lemma number_or_not_zero (x d : number) :
  is_zero d = false -> is_zero (number_or x d) = false.
Proof.
  intros Hd. unfold number_or, truthy.
  destruct (is_zero x) eqn:Hx; [exact Hd|].
  destruct (is_nan x); [exact Hd|exact Hx].
Qed.

Lemma gt_zero_not_zero (m : number) : gt m (of_Z 0) = true -> is_zero m = false.
Proof. destruct m; [discriminate|reflexivity..]. Qed.

Variable numberToString : number -> string.

Lemma LineChart_divisors (data : list LineItem) :
  snd (LineChart numberToString data)
  = match data with
    | [] => []
    | _ => [ number_or (sub (of_Z (Z.of_nat (length data))) (of_Z 1)) (of_Z 1);
             Math_max (map value data ++ [of_Z 1]) ]
    end.
Proof. destruct data; reflexivity. Qed.

Lemma barScale_divisors (m : number) :
  snd (barScale m) = if gt m (of_Z 0) then [m] else [].
Proof. unfold barScale. destruct (gt m (of_Z 0)); reflexivity. Qed.

Lemma BarChart_divisors (data : list BarItem) :
  snd (BarChart data)
  = match data with
    | [] => []
    | _ => snd (barScale
                  (Math_max (map (fun item => add (churned item) (stayed item)) data)))
    end.
Proof.
  destruct data as [|d data]; [reflexivity|].
  unfold BarChart. cbn [length Nat.eqb]. unfold bind, ret.
  destruct (barScale _) as [scale ds]. cbn [snd]. apply app_nil_r.
Qed.

End ChartDivisors.

(** C10. The charts on degenerate data.  An empty list renders the
    [No data available] placeholder and divides nothing.  For every list,
    no divisor of a division the components perform is zero: LineChart
    divides by [data.length - 1 || 1] and by [Math.max(...values, 1)],
    which is NaN or at least 1; BarChart divides by the largest stacked
    value only when it is above 0, and its scale is 0 when that value is
    zero. *)
Theorem charts_never_divide_by_zero (numberToString : number -> string) :
  Charts.LineChart numberToString [] = (Charts.LineNoData "No data available", [])
  /\ Charts.BarChart [] = (Charts.BarNoData "No data available", [])
  /\ (forall data,
        Forall (fun d => is_zero d = false)
               (snd (Charts.LineChart numberToString data)))
  /\ (forall data,
        Forall (fun d => is_zero d = false) (snd (Charts.BarChart data)))
  /\ (forall data,
        snd (Charts.LineChart numberToString data)
        = match data with
          | [] => []
          | _ => [ Charts.number_or
                     (sub (of_Z (Z.of_nat (length data))) (of_Z 1)) (of_Z 1);
                   Math_max (map Charts.value data ++ [of_Z 1]) ]
          end)
  /\ (forall values,
        is_nan (Math_max (values ++ [of_Z 1])) = true
        \/ le (of_Z 1) (Math_max (values ++ [of_Z 1])) = true)
  /\ (forall s, Charts.barScale (S754_zero s) = (of_Z 0, [])).
Proof.
  split; [reflexivity|].
  split; [reflexivity|].
  split.
  { intros data. rewrite LineChart_divisors.
    destruct data as [|d data]; [constructor|].
    repeat constructor.
    - apply number_or_not_zero. reflexivity.
    - apply Math_max_floor_not_zero. }
  split.
  { intros data. rewrite BarChart_divisors.
    destruct data as [|d data]; [constructor|].
    rewrite barScale_divisors.
    destruct (gt _ (of_Z 0)) eqn:E; [|constructor].
    repeat constructor. apply gt_zero_not_zero, E. }
  split; [apply LineChart_divisors|].
  split; [apply Math_max_floor|].
  intros [|]; reflexivity.
Qed.

(** ** Rounding in binary64

    What the loyalty score needs from floating-point arithmetic: rounding
    to nearest never crosses a small integer bound.  A non-negative
    finite value [m * 2^e] with [e < 0] is at most the integer [B] when
    [m <= B * 2^(-e)]. *)
Section Rounding.

Lemma fexp_eq (x : Z) : fexp prec emax x = Z.max (x - 53) (-1074).
Proof. reflexivity. Qed.

Lemma iter_pos_iter {A} (f : A -> A) (p : positive) (x : A) :
  SpecFloat.iter_pos f p x = Nat.iter (Pos.to_nat p) f x.
Proof.
  revert x. induction p as [p IH|p IH|]; intros x; cbn [SpecFloat.iter_pos].
  - rewrite !IH, Pos2Nat.inj_xI, <- Nat.iter_succ_r, <- Nat.iter_add.
    f_equal. lia.
  - rewrite !IH, Pos2Nat.inj_xO, <- Nat.iter_add. f_equal. lia.
  - reflexivity.
Qed.

Lemma digits2_pos_size (m : positive) : digits2_pos m = Pos.size m.
Proof. induction m; cbn [digits2_pos Pos.size]; congruence. Qed.

(** A number below [2^k] has at most [k] digits. *)
Lemma Zdigits2_le (m k : Z) : 0 <= m -> 0 <= k -> m < 2 ^ k -> Zdigits2 m <= k.
Proof.
  intros Hm Hk Hlt. destruct m as [|p|p]; [exact Hk| |lia].
  cbn [Zdigits2]. rewrite digits2_pos_size.
  pose proof (Pos.size_le p) as Hs.
  assert (H2 : 2 ^ Z.pos (Pos.size p) <= 2 * Z.pos p).
  { rewrite <- Pos2Z.inj_pow. change (2 * Z.pos p) with (Z.pos (p~0)). lia. }
  destruct (Z_lt_le_dec k (Z.pos (Pos.size p))) as [Hlt'|]; [|assumption].
  exfalso.
  assert (2 ^ (k + 1) <= 2 ^ Z.pos (Pos.size p))
    by (apply Z.pow_le_mono_r; lia).
  rewrite Z.pow_add_r in H by lia. lia.
Qed.

(** A number with [d] digits is below [2^d]. *)
Lemma Zdigits2_gt (p : positive) : Z.pos p < 2 ^ Zdigits2 (Z.pos p).
Proof.
  cbn [Zdigits2]. rewrite digits2_pos_size, <- Pos2Z.inj_pow.
  apply Pos2Z.pos_lt_pos, Pos.size_gt.
Qed.

Lemma iter_xO (m d : positive) : Z.pos (Pos.iter xO m d) = Z.pos m * 2 ^ Z.pos d.
Proof.
  induction d as [|d IH] using Pos.peano_ind.
  - cbn [Pos.iter]. lia.
  - rewrite Pos.iter_succ, Pos2Z.inj_xO, IH, Pos2Z.inj_succ, Z.pow_succ_r by lia.
    lia.
Qed.

(** *** Shifting right *)

Lemma shr_1_shifted (M k : Z) (mrs : shr_record) :
  0 <= M -> 0 <= k -> shifted M k mrs -> shifted M (k + 1) (shr_1 mrs).
Proof.
  intros HM Hk [Hm Hex].
  assert (Hpow : 0 < 2 ^ k) by (apply Z.pow_pos_nonneg; lia).
  assert (Hq : 0 <= M / 2 ^ k) by (apply Z.div_pos; lia).
  assert (Hdiv : M / 2 ^ (k + 1) = M / 2 ^ k / 2)
    by (rewrite Z.pow_add_r, Z.pow_1_r, Z.div_div by lia; reflexivity).
  assert (Hmod : M mod 2 ^ (k + 1) = 0 -> M mod 2 ^ k = 0 /\ (M / 2 ^ k) mod 2 = 0).
  { intros H0. rewrite Z.pow_add_r, Z.pow_1_r in H0 by lia.
    rewrite Z.rem_mul_r in H0 by lia.
    pose proof (Z.mod_pos_bound M (2 ^ k) Hpow).
    pose proof (Z.mod_pos_bound (M / 2 ^ k) 2 ltac:(lia)).
    nia. }
  destruct mrs as [m r s]. cbn [shr_m shr_r shr_s] in *.
  split.
  - rewrite Hdiv, <- Hm.
    destruct m as [|[p|p|]|p]; cbn [shr_1 shr_m]; try lia; try reflexivity.
    + rewrite Pos2Z.inj_xI. apply Z.div_unique with (r := 1); lia.
    + rewrite Pos2Z.inj_xO. apply Z.div_unique with (r := 0); lia.
  - intros H0. destruct (Hmod H0) as [H1 H2]. destruct (Hex H1) as [-> ->].
    rewrite <- Hm in H2.
    destruct m as [|[p|p|]|p]; cbn [shr_1 shr_r shr_s orb]; try lia; try tauto.
    + rewrite Pos2Z.inj_xI in H2.
      rewrite Z.add_comm, Z.mul_comm, Z.mod_add in H2 by lia. discriminate H2.
    + discriminate H2.
Qed.

Lemma shr_iter_shifted (M : Z) (n : nat) :
  0 <= M ->
  shifted M (Z.of_nat n) (Nat.iter n shr_1 (Build_shr_record M false false)).
Proof.
  intros HM. induction n as [|n IH].
  - split; cbn [Nat.iter shr_m shr_r shr_s]; [|tauto].
    rewrite Z.div_1_r. reflexivity.
  - rewrite Nat2Z.inj_succ. cbn [Nat.iter].
    apply shr_1_shifted; [exact HM|lia|exact IH].
Qed.

(** [shr_fexp] on an exact non-negative mantissa: the new exponent is
    the larger of the old one and the canonical one, and the mantissa
    is shifted by their difference. *)
Lemma shr_fexp_exact (m e : Z) :
  0 <= m ->
  let e' := Z.max e (fexp prec emax (Zdigits2 m + e)) in
  exists mrs,
    shr_fexp prec emax m e loc_Exact = (mrs, e')
    /\ shifted m (e' - e) mrs.
Proof.
  intros Hm e'. unfold shr_fexp, shr. cbn [shr_record_of_loc].
  destruct (fexp prec emax (Zdigits2 m + e) - e) as [|p|p] eqn:En.
  - exists (Build_shr_record m false false).
    replace e' with e by lia. rewrite Z.sub_diag.
    split; [reflexivity|]. apply (shr_iter_shifted m 0 Hm).
  - exists (SpecFloat.iter_pos shr_1 p (Build_shr_record m false false)).
    replace e' with (e + Z.pos p) by lia.
    split; [reflexivity|].
    rewrite iter_pos_iter.
    replace (e + Z.pos p - e) with (Z.of_nat (Pos.to_nat p)) by lia.
    apply shr_iter_shifted, Hm.
  - exists (Build_shr_record m false false).
    replace e' with e by lia. rewrite Z.sub_diag.
    split; [reflexivity|]. apply (shr_iter_shifted m 0 Hm).
Qed.

(** Rounding a shifted mantissa to nearest stays within any bound [K]
    that dominated the mantissa before the shift. *)
Lemma round_shifted_le (M k K : Z) (mrs : shr_record) :
  0 <= M -> 0 <= k -> shifted M k mrs -> M <= K * 2 ^ k ->
  let r := round_nearest_even (shr_m mrs) (loc_of_shr_record mrs) in
  0 <= r <= K.
Proof.
  intros HM Hk [Hm Hex] HK r.
  assert (Hpow : 0 < 2 ^ k) by (apply Z.pow_pos_nonneg; lia).
  assert (Hq : 0 <= M / 2 ^ k) by (apply Z.div_pos; lia).
  assert (Hle : M / 2 ^ k <= K)
    by (apply Z.div_le_upper_bound; lia).
  assert (Hr : r = shr_m mrs
               \/ (r = shr_m mrs + 1 /\ M mod 2 ^ k <> 0)).
  { subst r. destruct mrs as [m [|] [|]]; cbn [shr_m shr_r shr_s] in *;
      cbn [loc_of_shr_record round_nearest_even].
    - right. split; [reflexivity|]. intros H0. destruct (Hex H0); discriminate.
    - destruct (Z.even m); [left; reflexivity|].
      right. split; [reflexivity|]. intros H0. destruct (Hex H0); discriminate.
    - left; reflexivity.
    - left; reflexivity. }
  destruct Hr as [->|[-> Hne]]; [lia|].
  split; [lia|].
  assert (M / 2 ^ k < K); [|lia].
  apply Z.div_lt_upper_bound; [lia|].
  assert (M <> K * 2 ^ k); [|lia].
  intros ->. apply Hne. apply Z.mod_mul. lia.
Qed.

End Rounding.

(** ** The loyalty score *)
Section LoyaltyScore.

Lemma pow2_split (x y : Z) : x <= y -> y <= 0 -> 2 ^ (- x) = 2 ^ (- y) * 2 ^ (y - x).
Proof. intros Hxy Hy. rewrite <- Z.pow_add_r by lia. f_equal. lia. Qed.

Lemma pow2_pos (k : Z) : 0 <= k -> 0 < 2 ^ k.
Proof. intros Hk. apply Z.pow_pos_nonneg; lia. Qed.

(** The canonical exponent of a value at most [128] is negative. *)
Lemma small_exponent (m e : Z) :
  0 <= m -> e < 0 -> m <= 128 * 2 ^ (- e) ->
  Z.max e (fexp prec emax (Zdigits2 m + e)) < 0.
Proof.
  intros Hm He Hle.
  assert (Hd : Zdigits2 m <= 8 - e).
  { apply Zdigits2_le; [exact Hm|lia|].
    replace (8 - e) with (8 + - e) by lia. rewrite Z.pow_add_r by lia.
    pose proof (pow2_pos (- e)). change (2 ^ 8) with 256. lia. }
  rewrite fexp_eq. lia.
Qed.

Lemma round_aux_at_most (M : positive) (E B : Z) :
  E < 0 -> 0 <= B <= 128 -> Z.pos M <= B * 2 ^ (- E) ->
  at_most B (binary_round_aux prec emax false (Z.pos M) E loc_Exact).
Proof.
  intros HE HB HM. unfold binary_round_aux.
  pose proof (pow2_pos (- E)) as HpE.
  (* first shift *)
  destruct (shr_fexp_exact (Z.pos M) E) as [mrs1 [E1 S1]]; [lia|].
  rewrite E1. cbv beta iota.
  set (e1 := Z.max E (fexp prec emax (Zdigits2 (Z.pos M) + E))) in *.
  assert (He1 : e1 < 0) by (apply small_exponent; nia).
  assert (HEe1 : E <= e1) by (subst e1; lia).
  pose proof (pow2_pos (- e1)) as Hpe1.
  pose proof (pow2_pos (e1 - E)) as Hpd1.
  set (r := round_nearest_even (shr_m mrs1) (loc_of_shr_record mrs1)).
  assert (Hr : 0 <= r <= B * 2 ^ (- e1)).
  { apply (round_shifted_le (Z.pos M) (e1 - E) (B * 2 ^ (- e1)) mrs1);
      [lia|lia|exact S1|].
    rewrite <- Z.mul_assoc, <- pow2_split by lia. exact HM. }
  (* second shift *)
  destruct (shr_fexp_exact r e1) as [mrs2 [E2 [Hm2 _]]]; [lia|].
  rewrite E2. cbv beta iota.
  set (e2 := Z.max e1 (fexp prec emax (Zdigits2 r + e1))) in *.
  assert (He2 : e2 < 0) by (apply small_exponent; nia).
  assert (He12 : e1 <= e2) by (subst e2; lia).
  pose proof (pow2_pos (- e2)) as Hpe2.
  pose proof (pow2_pos (e2 - e1)) as Hpd2.
  assert (Hq : 0 <= shr_m mrs2 <= B * 2 ^ (- e2)).
  { rewrite Hm2. split; [apply Z.div_pos; lia|].
    apply Z.div_le_upper_bound; [lia|].
    rewrite (pow2_split e1 e2) in Hr by lia. lia. }
  destruct (shr_m mrs2) as [|m2|m2]; [left; reflexivity| |lia].
  replace (e2 <=? emax - prec) with true
    by (symmetry; apply Z.leb_le; change (emax - prec) with 971; lia).
  right. exists m2, e2. split; [reflexivity|]. split; [exact He2|lia].
Qed.

Lemma round_at_most (M : positive) (E B : Z) :
  E < 0 -> 0 <= B <= 128 -> Z.pos M <= B * 2 ^ (- E) ->
  at_most B (binary_round prec emax false M E).
Proof.
  intros HE HB HM. unfold binary_round, shl_align.
  destruct (fexp prec emax (Z.pos (digits2_pos M) + E) - E) as [|d|d] eqn:Ed;
    try (apply round_aux_at_most; assumption).
  apply round_aux_at_most; [lia|exact HB|].
  rewrite iter_xO.
  replace (fexp prec emax (Z.pos (digits2_pos M) + E)) with (E - Z.pos d) by lia.
  rewrite (pow2_split (E - Z.pos d) E) by lia.
  replace (E - (E - Z.pos d)) with (Z.pos d) by lia.
  pose proof (pow2_pos (Z.pos d)). nia.
Qed.

(** [1 - p] is in [0, 1] when [p] is. *)
Lemma sub_one_at_most (p : number) :
  valid p = true ->
  le PredictPanel.c0 p = true -> le p PredictPanel.c1 = true ->
  at_most 1 (sub PredictPanel.c1 p).
Proof.
  rewrite c1_bits. intros Hv H0 H1.
  destruct p as [s|s| |s m e].
  - right. exists 4503599627370496%positive, (-52).
    split; [reflexivity|]. split; [lia|]. vm_compute. discriminate.
  - destruct s; [discriminate H0|discriminate H1].
  - discriminate H0.
  - destruct s; [discriminate H0|].
    (* p = m * 2^e is canonical and at most 1 *)
    assert (Hm : e <= -52 /\ Z.pos m <= 2 ^ (- e)).
    { unfold valid, valid_binary, bounded, canonical_mantissa in Hv.
      apply andb_true_iff in Hv as [Hc _]. apply Z.eqb_eq in Hc.
      rewrite fexp_eq in Hc.
      pose proof (Zdigits2_gt m) as Hd. cbn [Zdigits2] in Hd.
      unfold le, SFleb in H1. cbn [SFcompare] in H1.
      destruct (Z.compare_spec e (-52)) as [He|He|He]; [| |discriminate H1].
      - subst e. split; [lia|]. change (2 ^ (- -52)) with 4503599627370496.
        rewrite Pos.compare_cont_spec in H1. cbn [Pos.switch_Eq] in H1.
        rewrite Pos2Z.inj_compare in H1.
        destruct (Z.compare_spec (Z.pos m) (Z.pos 4503599627370496)) as [Hc'|Hc'|Hc'];
          [lia|lia|discriminate H1].
      - split; [lia|].
        assert (2 ^ Z.pos (digits2_pos m) <= 2 ^ (- e))
          by (apply Z.pow_le_mono_r; lia).
        lia. }
    destruct Hm as [He Hm].
    unfold sub, SFsub. replace (Z.min (-52) e) with e by lia.
    assert (Hp : shl_align m e e = (m, e))
      by (unfold shl_align; rewrite Z.sub_diag; reflexivity).
    rewrite Hp. cbn [fst cond_Zopp].
    assert (Ho : Z.pos (fst (shl_align 4503599627370496 (-52) e)) = 2 ^ (- e)).
    { unfold shl_align. destruct (e - -52) as [|d|d] eqn:Ed; cbn [fst].
      - replace e with (-52) by lia. reflexivity.
      - lia.
      - rewrite iter_xO. change (Z.pos 4503599627370496) with (2 ^ 52).
        rewrite <- Z.pow_add_r by lia. f_equal. lia. }
    rewrite Ho.
    destruct (2 ^ (- e) - Z.pos m) as [|d|d] eqn:Ed; [left; reflexivity| |lia].
    cbn [binary_normalize]. apply round_at_most; lia.
Qed.

(** [x * 100] is in [0, 100] when [x] is in [0, 1]. *)
Lemma mul_100_at_most (x : number) :
  at_most 1 x -> at_most 100 (mul x PredictPanel.c100).
Proof.
  rewrite c100_bits. intros [->|[m [e [-> [He Hm]]]]]; [left; reflexivity|].
  unfold mul, SFmul. cbn [xorb]. apply round_aux_at_most; [lia|lia|].
  rewrite Pos2Z.inj_mul.
  rewrite (pow2_split (e + -46) e) by lia.
  replace (e - (e + -46)) with 46 by lia.
  change (Z.pos 7036874417766400) with (100 * 2 ^ 46).
  pose proof (pow2_pos (- e)). nia.
Qed.

(** [Math.round] of a number in [0, B] is an integer in [0, B]. *)
Lemma Math_round_at_most (B : Z) (x : number) :
  0 <= B -> at_most B x ->
  exists n, 0 <= n <= B /\ Math_round x = of_Z n.
Proof.
  intros HB [->|[m [e [-> [He Hm]]]]].
  - exists 0. split; [lia|reflexivity].
  - unfold Math_round. replace (0 <=? e) with false by (symmetry; apply Z.leb_gt, He).
    cbn [cond_Zopp].
    set (q := (2 * Z.pos m + 2 ^ (- e)) / 2 ^ (- e + 1)).
    pose proof (pow2_pos (- e)) as Hp.
    assert (Hpow : 2 ^ (- e + 1) = 2 * 2 ^ (- e))
      by (rewrite Z.pow_add_r by lia; lia).
    assert (Hq : 0 <= q <= B).
    { subst q. rewrite Hpow. split; [apply Z.div_pos; lia|].
      assert ((2 * Z.pos m + 2 ^ (- e)) / (2 * 2 ^ (- e)) < B + 1); [|lia].
      apply Z.div_lt_upper_bound; nia. }
    exists q. split; [exact Hq|].
    destruct (q =? 0) eqn:E0; [|reflexivity].
    apply Z.eqb_eq in E0. rewrite E0. reflexivity.
Qed.

End LoyaltyScore.

(** C8. The loyalty score shown with a successful prediction.  When the
    call resolves, whatever the panel showed before, the result state
    holds a prediction (and no error) for the probability of the
    response, whose loyalty score is
    [Math.round((1 - churn_probability) * 100)]; for every churn
    probability in [0, 1] that score is an integer between 0 and 100. *)
Theorem loyalty_score_range
    (formData : PredictionRequest) (response : PredictionResponse)
    (st : PredictPanel.State) :
  let p := churn_probability response in
  let st' := PredictPanel.makePrediction formData (Resolved response) st in
  valid p = true ->
  le (of_Z 0) p = true -> le p (of_Z 1) = true ->
  exists (r : PredictPanel.PredictionResult) (n : Z),
    PredictPanel.result st' = Some r
    /\ PredictPanel.error st' = None
    /\ PredictPanel.churnProbability r = p
    /\ PredictPanel.loyaltyScore r = Math_round (mul (sub (of_Z 1) p) (of_Z 100))
    /\ 0 <= n <= 100
    /\ PredictPanel.loyaltyScore r = of_Z n.
Proof.
  intros p st' Hv H0 H1.
  destruct (Math_round_at_most 100 (mul (sub PredictPanel.c1 p) PredictPanel.c100))
    as [n [Hn Hscore]]; [lia| |].
  { apply mul_100_at_most, sub_one_at_most; assumption. }
  exists (PredictPanel.predictionResult formData response), n.
  repeat split; try (apply Hn). exact Hscore.
Qed.

Example loyalty_score_of_0_005 :
  PredictPanel.computeLoyaltyScore (decimal 5 1000) = of_Z 100.
Proof. vm_compute. reflexivity. Qed.

Lemma loyalty_score_range_witness :
  exists (r : PredictPanel.PredictionResult) (n : Z),
    PredictPanel.result
      (PredictPanel.makePrediction PredictPanel.initialFormData
         (Resolved (Samples.responseWith (decimal 5 1000))) Samples.idle)
    = Some r
    /\ 0 <= n <= 100
    /\ PredictPanel.loyaltyScore r = of_Z n.
Proof.
  destruct (loyalty_score_range PredictPanel.initialFormData
              (Samples.responseWith (decimal 5 1000)) Samples.idle)
    as (r & n & Hr & _ & _ & _ & Hn & Hs);
    [vm_compute; reflexivity..|].
  exists r, n. repeat split; assumption || apply Hn.
Defined.

(* ===================================================================== *)
(** * Part III: the rest of the front end                                  *)
(* ===================================================================== *)

(** ** extractJsonBlock *)
Section JsonBlock.
Import Extraction.

Lemma append_cons (a : ascii) (s t : string) :
  String a s +:+ t = String a (s +:+ t).
Proof. reflexivity. Qed.

Lemma length_append (s t : string) :
  String.length (s +:+ t) = (String.length s + String.length t)%nat.
Proof. induction s as [|a s IH]; [reflexivity|simpl; congruence]. Qed.

Lemma append_assoc (s t u : string) : (s +:+ t) +:+ u = s +:+ (t +:+ u).
Proof.
  induction s as [|a s IH]; [reflexivity|].
  rewrite !append_cons, IH. reflexivity.
Qed.

Lemma append_empty_r (s : string) : s +:+ "" = s.
Proof.
  induction s as [|a s IH]; [reflexivity|].
  rewrite append_cons, IH. reflexivity.
Qed.

Lemma indexOf_fresh (c : ascii) (pre rest : string) :
  indexOf c pre = None ->
  indexOf c (pre +:+ String c rest) = Some (String.length pre).
Proof.
  induction pre as [|a pre IH]; intros H.
  - change ("" +:+ String c rest) with (String c rest). cbn [indexOf].
    rewrite Ascii.eqb_refl. reflexivity.
  - rewrite append_cons. cbn [indexOf String.length] in *.
    destruct (Ascii.eqb a c); [discriminate H|].
    destruct (indexOf c pre); [discriminate H|]. rewrite IH; reflexivity.
Qed.

Lemma lastIndexOf_fresh (c : ascii) (s post : string) :
  lastIndexOf c post = None ->
  lastIndexOf c (s +:+ String c post) = Some (String.length s).
Proof.
  intros H. induction s as [|a s IH].
  - change ("" +:+ String c post) with (String c post). cbn [lastIndexOf].
    rewrite H, Ascii.eqb_refl. reflexivity.
  - rewrite append_cons. cbn [lastIndexOf String.length]. rewrite IH.
    reflexivity.
Qed.

Lemma substring_prefix (mid post : string) :
  String.substring 0 (String.length mid) (mid +:+ post) = mid.
Proof.
  induction mid as [|b mid IH].
  - change ("" +:+ post) with post. destruct post; reflexivity.
  - rewrite append_cons. cbn [String.length String.substring]. rewrite IH.
    reflexivity.
Qed.

Lemma substring_middle (pre mid post : string) :
  String.substring (String.length pre) (String.length mid) (pre +:+ mid +:+ post)
  = mid.
Proof.
  induction pre as [|a pre IH].
  - exact (substring_prefix mid post).
  - rewrite append_cons. cbn [String.length String.substring]. exact IH.
Qed.

(** The first occurrence splits the text. *)
Lemma indexOf_Some (c : ascii) (s : string) (i : nat) :
  indexOf c s = Some i ->
  exists pre rest,
    s = pre +:+ String c rest /\ String.length pre = i /\ indexOf c pre = None.
Proof.
  revert i. induction s as [|a s IH]; cbn [indexOf]; intros i H;
    [discriminate H|].
  destruct (Ascii.eqb_spec a c) as [->|Hne].
  - injection H as <-. exists "", s. repeat split.
  - destruct (indexOf c s) as [j|]; [|discriminate H]. injection H as <-.
    destruct (IH j eq_refl) as [pre [rest [-> [Hl Hn]]]].
    exists (String a pre), rest. cbn [String.length indexOf].
    repeat split; [congruence|].
    destruct (Ascii.eqb_spec a c); [contradiction|]. rewrite Hn. reflexivity.
Qed.

(** The last occurrence splits the text. *)
Lemma lastIndexOf_Some (c : ascii) (s : string) (j : nat) :
  lastIndexOf c s = Some j ->
  exists front post,
    s = front +:+ String c post /\ String.length front = j
    /\ lastIndexOf c post = None.
Proof.
  revert j. induction s as [|a s IH]; cbn [lastIndexOf]; intros j H;
    [discriminate H|].
  destruct (lastIndexOf c s) as [k|] eqn:E.
  - injection H as <-. destruct (IH k eq_refl) as [front [post [-> [Hl Hn]]]].
    exists (String a front), post. cbn [String.length].
    repeat split; [congruence|exact Hn].
  - destruct (Ascii.eqb_spec a c) as [->|Hne]; [|discriminate H].
    injection H as <-. exists "", s. repeat split. exact E.
Qed.

Lemma lastIndexOf_append (c : ascii) (s t : string) :
  lastIndexOf c (s +:+ t)
  = match lastIndexOf c t with
    | Some k => Some (String.length s + k)%nat
    | None => lastIndexOf c s
    end.
Proof.
  induction s as [|a s IH].
  - change ("" +:+ t) with t. cbn [lastIndexOf String.length].
    destruct (lastIndexOf c t); reflexivity.
  - rewrite append_cons. cbn [lastIndexOf String.length]. rewrite IH.
    destruct (lastIndexOf c t); reflexivity.
Qed.

Lemma lastIndexOf_lt (c : ascii) (s : string) (j : nat) :
  lastIndexOf c s = Some j -> (j < String.length s)%nat.
Proof.
  intros H. destruct (lastIndexOf_Some c s j H) as [front [post [-> [<- _]]]].
  rewrite length_append. cbn [String.length]. lia.
Qed.

Lemma extractJsonBlock_wrapped (pre mid post : string) :
  indexOf "{" pre = None -> lastIndexOf "}" post = None ->
  extractJsonBlock (pre +:+ "{" +:+ mid +:+ "}" +:+ post) = "{" +:+ mid +:+ "}".
Proof.
  intros Hpre Hpost. unfold extractJsonBlock.
  change (pre +:+ "{" +:+ mid +:+ "}" +:+ post)
    with (pre +:+ String "{" (mid +:+ String "}" post)).
  rewrite (indexOf_fresh "{" pre _ Hpre).
  assert (Hlast : lastIndexOf "}" (pre +:+ String "{" (mid +:+ String "}" post))
                  = Some (String.length pre + S (String.length mid))%nat).
  { rewrite lastIndexOf_append.
    change (String "{" (mid +:+ String "}" post))
      with (String "{" mid +:+ String "}" post).
    rewrite (lastIndexOf_fresh "}" _ post Hpost). reflexivity. }
  rewrite Hlast.
  replace (String.length pre <? String.length pre + S (String.length mid))%nat
    with true by (symmetry; apply Nat.ltb_lt; lia).
  unfold slice.
  replace (String.length pre + S (String.length mid) + 1 - String.length pre)%nat
    with (String.length ("{" +:+ mid +:+ "}"))
    by (change ("{" +:+ mid +:+ "}") with (String "{" (mid +:+ "}"));
        cbn [String.length]; rewrite length_append; cbn [String.length]; lia).
  change (pre +:+ String "{" (mid +:+ String "}" post))
    with (pre +:+ String "{" (mid +:+ "}" +:+ post)).
  replace (String "{" (mid +:+ "}" +:+ post))
    with (("{" +:+ mid +:+ "}") +:+ post)
    by (change ("{" +:+ mid +:+ "}") with (String "{" (mid +:+ "}"));
        rewrite append_cons, append_assoc; reflexivity).
  apply substring_middle.
Qed.

(** Either the text has no brace pair and is returned as it is, or it
    splits around its first opening and last closing brace. *)
Lemma extractJsonBlock_cases (text : string) :
  extractJsonBlock text = text
  \/ exists pre mid post,
       text = pre +:+ "{" +:+ mid +:+ "}" +:+ post
       /\ indexOf "{" pre = None /\ lastIndexOf "}" post = None.
Proof.
  unfold extractJsonBlock.
  destruct (indexOf "{" text) as [i|] eqn:Ei; [|left; reflexivity].
  destruct (lastIndexOf "}" text) as [j|] eqn:Ej; [|left; reflexivity].
  destruct (i <? j)%nat eqn:Hlt; [|left; reflexivity].
  apply Nat.ltb_lt in Hlt. right.
  destruct (indexOf_Some _ _ _ Ei) as [pre [rest [-> [Hl Hpre]]]].
  rewrite lastIndexOf_append in Ej.
  destruct (lastIndexOf "}" (String "{" rest)) as [k|] eqn:Ek.
  - destruct (lastIndexOf_Some _ _ _ Ek) as [front [post [Hs [Hk Hpost]]]].
    destruct front as [|a front].
    + change ("" +:+ String "}" post) with (String "}" post) in Hs.
      injection Hs as Hc _. discriminate Hc.
    + rewrite append_cons in Hs. injection Hs as <- ->.
      exists pre, front, post. repeat split; assumption.
  - apply lastIndexOf_lt in Ej. lia.
Qed.

End JsonBlock.

(** X1. A JSON object wrapped in commentary is recovered: when no
    opening brace precedes it and no closing brace follows it,
    [extractJsonBlock] returns exactly the object, and [safeParseJson]
    parses the object alone. *)
Theorem extractJsonBlock_recovers_object
    (JSON_parse : string -> option (gmap string JsValue))
    (pre mid post : string) :
  Extraction.indexOf "{" pre = None ->
  Extraction.lastIndexOf "}" post = None ->
  Extraction.extractJsonBlock (pre +:+ "{" +:+ mid +:+ "}" +:+ post)
  = "{" +:+ mid +:+ "}"
  /\ Extraction.safeParseJson JSON_parse (pre +:+ "{" +:+ mid +:+ "}" +:+ post)
     = default ∅ (JSON_parse ("{" +:+ mid +:+ "}")).
Proof.
  intros Hpre Hpost.
  pose proof (extractJsonBlock_wrapped pre mid post Hpre Hpost) as H.
  split; [exact H|].
  unfold Extraction.safeParseJson. rewrite H.
  destruct (JSON_parse _); reflexivity.
Qed.

Lemma extractJsonBlock_recovers_object_witness :
  Extraction.extractJsonBlock ("Here it is: " +:+ "{" +:+ "age: 35" +:+ "}" +:+ " Done.")
  = "{age: 35}".
Proof.
  apply (extractJsonBlock_recovers_object (fun _ => None)
           "Here it is: " "age: 35" " Done."); reflexivity.
Defined.

(** X2. [extractJsonBlock] is idempotent, and its result always occurs
    in the text it was given. *)
Theorem extractJsonBlock_idempotent (text : string) :
  Extraction.extractJsonBlock (Extraction.extractJsonBlock text)
  = Extraction.extractJsonBlock text
  /\ includes text (Extraction.extractJsonBlock text) = true.
Proof.
  destruct (extractJsonBlock_cases text) as [H|[pre [mid [post [-> [Hpre Hpost]]]]]].
  - rewrite !H. split; [reflexivity|apply includes_refl].
  - rewrite (extractJsonBlock_wrapped pre mid post Hpre Hpost). split.
    + pose proof (extractJsonBlock_wrapped "" mid "" eq_refl eq_refl) as H.
      change ("" +:+ "{" +:+ mid +:+ "}" +:+ "") with ("{" +:+ mid +:+ "}" +:+ "") in H.
      change ("{" +:+ mid +:+ "}" +:+ "") with ("{" +:+ mid +:+ ("}" +:+ "")) in H.
      exact H.
    + apply includes_app_r.
      replace ("{" +:+ mid +:+ "}" +:+ post) with (("{" +:+ mid +:+ "}") +:+ post)
        by (change ("{" +:+ mid +:+ "}") with (String "{" (mid +:+ "}"));
            rewrite append_cons, append_assoc; reflexivity).
      apply includes_app_l, includes_refl.
Qed.

(** ** coerceTypes *)
Section Coercion.
Import Extraction.

Variable Number : string -> number.

Lemma toNum_idempotent (v : JsValue) : toNum Number (toNum Number v) = toNum Number v.
Proof. destruct v; reflexivity. Qed.

Lemma coerceField_lookup (obj : gmap string JsValue) (k k' : string) :
  coerceField Number obj k !! k'
  = if decide (k = k') then toNum Number <$> obj !! k' else obj !! k'.
Proof.
  unfold coerceField, InsightsPanel.get.
  destruct (decide (k = k')) as [<-|Hne].
  - destruct (obj !! k) as [v|] eqn:E;
      cbn [from_option id fmap option_fmap option_map].
    + destruct v; rewrite ?lookup_insert_eq, ?E; reflexivity.
    + exact E.
  - destruct (default JUndefined (obj !! k));
      rewrite ?lookup_insert_ne by exact Hne; reflexivity.
Qed.

Lemma coerceFields_lookup (ks : list string) (obj : gmap string JsValue)
    (k : string) :
  foldl (coerceField Number) obj ks !! k
  = if decide (k ∈ ks) then toNum Number <$> obj !! k else obj !! k.
Proof.
  revert obj. induction ks as [|k1 ks IH]; intros obj.
  - cbn [foldl]. destruct (decide (k ∈ [])) as [H|_]; [|reflexivity].
    apply elem_of_nil in H as [].
  - cbn [foldl]. rewrite IH, coerceField_lookup.
    destruct (decide (k1 = k)) as [->|Hne].
    + destruct (decide (k ∈ k :: ks)) as [_|H]; [|exfalso; apply H; left].
      destruct (decide (k ∈ ks)); [|reflexivity].
      destruct (obj !! k) as [v|]; cbn [fmap option_fmap option_map];
        [rewrite toNum_idempotent|]; reflexivity.
    + destruct (decide (k ∈ ks)) as [Hin|Hin];
        destruct (decide (k ∈ k1 :: ks)) as [Hin'|Hin']; try reflexivity.
      * exfalso. apply Hin'. right. exact Hin.
      * exfalso. apply elem_of_cons in Hin' as [->|Hin']; [congruence|contradiction].
Qed.

Lemma coerceTypes_lookup (obj : gmap string JsValue) (k : string) :
  coerceTypes Number obj !! k
  = if decide (k ∈ numericFields) then toNum Number <$> obj !! k else obj !! k.
Proof. apply coerceFields_lookup. Qed.

Lemma coerceTypes_get (obj : gmap string JsValue) (k : string) :
  InsightsPanel.get (coerceTypes Number obj) k
  = if decide (k ∈ numericFields)
    then toNum Number (InsightsPanel.get obj k)
    else InsightsPanel.get obj k.
Proof.
  unfold InsightsPanel.get. rewrite coerceTypes_lookup.
  destruct (decide (k ∈ numericFields)); [|reflexivity].
  destruct (obj !! k); reflexivity.
Qed.

Lemma numericFields_required (k : string) :
  k ∈ numericFields -> k ∈ InsightsPanel.requiredFields.
Proof.
  unfold numericFields. intros H.
  repeat (apply elem_of_cons in H as [->|H];
          [apply (bool_decide_unpack _); vm_compute; exact I|]).
  apply elem_of_nil in H as [].
Qed.

End Coercion.

(** X3. After [coerceTypes] a numeric field is never a string: a string
    has become [Number] of it and every other value is kept; the keys
    that are not numeric fields are untouched, and coercing twice
    changes nothing more. *)
Theorem coerceTypes_numeric_fields
    (Number : string -> number) (obj : gmap string JsValue) (k : string) :
  k ∈ Extraction.numericFields ->
  InsightsPanel.get (Extraction.coerceTypes Number obj) k
  = Extraction.toNum Number (InsightsPanel.get obj k)
  /\ (forall s, InsightsPanel.get (Extraction.coerceTypes Number obj) k <> JStr s)
  /\ (forall k', k' ∉ Extraction.numericFields ->
        Extraction.coerceTypes Number obj !! k' = obj !! k')
  /\ Extraction.coerceTypes Number (Extraction.coerceTypes Number obj)
     = Extraction.coerceTypes Number obj.
Proof.
  intros Hk.
  assert (Hget : InsightsPanel.get (Extraction.coerceTypes Number obj) k
                 = Extraction.toNum Number (InsightsPanel.get obj k)).
  { rewrite coerceTypes_get. destruct (decide (k ∈ Extraction.numericFields));
      [reflexivity|contradiction]. }
  split; [exact Hget|]. split.
  { intros s. rewrite Hget. destruct (InsightsPanel.get obj k); discriminate. }
  split.
  { intros k' Hk'. rewrite coerceTypes_lookup.
    destruct (decide (k' ∈ Extraction.numericFields)); [contradiction|reflexivity]. }
  apply map_eq. intros k'. rewrite !coerceTypes_lookup.
  destruct (decide (k' ∈ Extraction.numericFields)); [|reflexivity].
  destruct (obj !! k') as [v|]; cbn [fmap option_fmap option_map];
    [rewrite toNum_idempotent|]; reflexivity.
Qed.

Lemma coerceTypes_numeric_fields_witness :
  InsightsPanel.get
    (Extraction.coerceTypes (fun _ => of_Z 35) {[ "age" := JStr "35" ]}) "age"
  = JNum (of_Z 35).
Proof.
  destruct (coerceTypes_numeric_fields (fun _ => of_Z 35)
              {[ "age" := JStr "35" ]} "age") as [H _].
  - apply (bool_decide_unpack _). vm_compute. exact I.
  - rewrite H. reflexivity.
Defined.

(** X4. Validation runs on the coerced request, so a numeric field is
    reported missing exactly when it was [undefined] or [null]: any
    string, blank or not a number at all, has become a number and
    passes. *)
Theorem numeric_strings_pass_validation
    (Number : string -> number) (obj : gmap string JsValue) (k : string) :
  k ∈ Extraction.numericFields ->
  (k ∈ InsightsPanel.missingFields (Extraction.coerceTypes Number obj)
   <-> InsightsPanel.get obj k = JUndefined \/ InsightsPanel.get obj k = JNull)
  /\ (forall s, InsightsPanel.get obj k = JStr s ->
        k ∉ InsightsPanel.missingFields (Extraction.coerceTypes Number obj)).
Proof.
  intros Hk.
  assert (Hiff : k ∈ InsightsPanel.missingFields (Extraction.coerceTypes Number obj)
                 <-> InsightsPanel.get obj k = JUndefined
                     \/ InsightsPanel.get obj k = JNull).
  { rewrite missingFields_spec, coerceTypes_get.
    destruct (decide (k ∈ Extraction.numericFields)); [|contradiction].
    pose proof (numericFields_required k Hk) as Hreq.
    destruct (InsightsPanel.get obj k); cbn [Extraction.toNum InsightsPanel.isMissing];
      split; try (intros [_ H]; discriminate H); auto;
      intros [H|H]; discriminate H. }
  split; [exact Hiff|].
  intros s Hs Hin. apply Hiff in Hin as [H|H]; congruence.
Qed.

Lemma numeric_strings_pass_validation_witness :
  "age" ∉ InsightsPanel.missingFields
            (Extraction.coerceTypes (fun _ => S754_nan) {[ "age" := JStr "  " ]}).
Proof.
  apply (numeric_strings_pass_validation (fun _ => S754_nan)
           {[ "age" := JStr "  " ]} "age") with (s := "  ").
  - apply (bool_decide_unpack _). vm_compute. exact I.
  - vm_compute. reflexivity.
Defined.

(** ** The quick parse *)
Section QuickParse.
Import Extraction.

Ltac each_ascii c :=
  destruct c as [[|] [|] [|] [|] [|] [|] [|] [|]]; vm_compute;
  try reflexivity; try discriminate; auto.

Lemma notSeparator_upperChar (c : ascii) :
  notSeparator (upperChar c) = notSeparator c.
Proof. each_ascii c. Qed.

Lemma digit_not_white (c : ascii) : isDigit c = true -> isWhiteSpace c = false.
Proof. each_ascii c. Qed.

Lemma allChars_app (p : ascii -> bool) (s t : string) :
  allChars p (s +:+ t) = allChars p s && allChars p t.
Proof.
  induction s as [|a s IH]; [reflexivity|].
  rewrite append_cons. cbn [allChars]. rewrite IH, andb_assoc. reflexivity.
Qed.

Lemma allChars_upper (s : string) :
  allChars notSeparator (toUpperCase s) = allChars notSeparator s.
Proof.
  induction s as [|a s IH]; [reflexivity|].
  unfold toUpperCase in *. cbn [mapString allChars].
  rewrite IH, notSeparator_upperChar. reflexivity.
Qed.

Lemma length_upper (s : string) :
  String.length (toUpperCase s) = String.length s.
Proof.
  induction s as [|a s IH]; [reflexivity|].
  unfold toUpperCase in *. cbn [mapString String.length]. rewrite IH. reflexivity.
Qed.

Lemma takeWhile_app (p : ascii -> bool) (capture rest : string) :
  allChars p capture = true -> startsWith p rest = false ->
  takeWhile p (capture +:+ rest) = capture.
Proof.
  intros Hc Hr. induction capture as [|a capture IH].
  - change ("" +:+ rest) with rest. destruct rest as [|b rest]; [reflexivity|].
    cbn [startsWith] in Hr. cbn [takeWhile]. rewrite Hr. reflexivity.
  - rewrite append_cons. cbn [allChars] in Hc.
    apply andb_true_iff in Hc as [Ha Hc].
    cbn [takeWhile]. rewrite Ha, (IH Hc). reflexivity.
Qed.

Lemma takeWhile_allChars (p : ascii -> bool) (s : string) :
  allChars p (takeWhile p s) = true.
Proof.
  induction s as [|a s IH]; [reflexivity|].
  cbn [takeWhile]. destruct (p a) eqn:E; [|reflexivity].
  cbn [allChars]. rewrite E, IH. reflexivity.
Qed.

Lemma group_Some (p : ascii -> bool) (s capture : string) :
  group p s = Some capture -> capture <> "" /\ allChars p capture = true.
Proof.
  unfold group. pose proof (takeWhile_allChars p s) as H.
  destruct (takeWhile p s) as [|a t]; [discriminate|].
  intros E. injection E as <-. split; [discriminate|exact H].
Qed.

Lemma spacesThenGroup_Some (p : ascii -> bool) (s capture : string) :
  spacesThenGroup p s = Some capture ->
  capture <> "" /\ allChars p capture = true.
Proof.
  induction s as [|a s IH]; cbn [spacesThenGroup]; [discriminate|].
  destruct (isWhiteSpace a).
  - destruct (spacesThenGroup p s) as [c|].
    + intros E. injection E as <-. apply IH. reflexivity.
    + apply group_Some.
  - apply group_Some.
Qed.

(** White space, then a run of the class that does not start with white
    space: the group captures the whole run. *)
Lemma spacesThenGroup_found (p : ascii -> bool) (ws capture rest : string) :
  allChars isWhiteSpace ws = true ->
  capture <> "" -> startsWith isWhiteSpace capture = false ->
  allChars p capture = true -> startsWith p rest = false ->
  spacesThenGroup p (ws +:+ capture +:+ rest) = Some capture.
Proof.
  intros Hws Hne Hfirst Hc Hr.
  assert (Hgroup : group p (capture +:+ rest) = Some capture).
  { unfold group. rewrite (takeWhile_app p capture rest Hc Hr).
    destruct capture; [congruence|reflexivity]. }
  induction ws as [|a ws IH].
  - change ("" +:+ capture +:+ rest) with (capture +:+ rest).
    destruct capture as [|c capture]; [congruence|].
    rewrite append_cons in *. cbn [spacesThenGroup].
    cbn [startsWith] in Hfirst. rewrite Hfirst. exact Hgroup.
  - rewrite append_cons. cbn [allChars] in Hws.
    apply andb_true_iff in Hws as [Ha Hws].
    cbn [spacesThenGroup]. rewrite Ha, (IH Hws). reflexivity.
Qed.

Lemma matchLabel_same (label label' rest : string) :
  toUpperCase label' = toUpperCase label ->
  matchLabel label (label' +:+ rest) = Some rest.
Proof.
  revert label'. induction label as [|l label IH]; intros [|t label'] H;
    try discriminate H; [reflexivity|].
  unfold toUpperCase in *. cbn [mapString] in H. injection H as Hc H.
  rewrite append_cons. cbn [matchLabel]. unfold sameLetter.
  rewrite Hc, Ascii.eqb_refl. apply IH, H.
Qed.

(** A match of the label at the start of [s] is followed by the
    character [s] has right after the label's length: it is no
    separator when [s] begins with more separator-free characters than
    the label is long. *)
Lemma matchLabel_no_separator (label s front back rest : string) (c : ascii) :
  matchLabel label s = Some (String c rest) ->
  s = front +:+ back ->
  (String.length label < String.length front)%nat ->
  allChars notSeparator front = true ->
  isSeparator c = false.
Proof.
  revert s front. induction label as [|l label IH]; intros s front Hm Hs Hlen Hall.
  - cbn [matchLabel] in Hm. injection Hm as ->.
    destruct front as [|a front]; [cbn in Hlen; lia|].
    rewrite append_cons in Hs. injection Hs as <- _.
    cbn [allChars] in Hall. apply andb_true_iff in Hall as [Ha _].
    unfold notSeparator in Ha. apply negb_true_iff in Ha. exact Ha.
  - destruct s as [|t s]; [discriminate Hm|]. cbn [matchLabel] in Hm.
    destruct (sameLetter t l); [|discriminate Hm].
    destruct front as [|a front]; [cbn in Hlen; lia|].
    rewrite append_cons in Hs. injection Hs as _ Hs.
    cbn [allChars] in Hall. apply andb_true_iff in Hall as [_ Hall].
    cbn [String.length] in Hlen.
    apply (IH s front Hm Hs); [lia|exact Hall].
Qed.

Lemma matchHere_no_separator (p : ascii -> bool) (label front back : string) :
  (String.length label < String.length front)%nat ->
  allChars notSeparator front = true ->
  matchHere p label (front +:+ back) = None.
Proof.
  intros Hlen Hall. unfold matchHere.
  destruct (matchLabel label (front +:+ back)) as [[|c rest]|] eqn:E;
    try reflexivity.
  rewrite (matchLabel_no_separator label _ front back rest c E eq_refl Hlen Hall).
  reflexivity.
Qed.

(** The search passes over a separator-free prefix. *)
Lemma exec_skip (p : ascii -> bool) (label pre label' tail : string) :
  String.length label' = String.length label ->
  allChars notSeparator pre = true ->
  allChars notSeparator label' = true ->
  exec p label (pre +:+ label' +:+ tail) = exec p label (label' +:+ tail).
Proof.
  intros Hlen Hpre Hlab. induction pre as [|a pre IH]; [reflexivity|].
  assert (Hhere : matchHere p label (String a (pre +:+ label' +:+ tail)) = None).
  { replace (String a (pre +:+ label' +:+ tail))
      with ((String a pre +:+ label') +:+ tail)
      by (rewrite append_assoc; reflexivity).
    apply matchHere_no_separator.
    - rewrite length_append. cbn [String.length]. lia.
    - rewrite allChars_app, Hpre, Hlab. reflexivity. }
  rewrite append_cons. cbn [exec]. rewrite Hhere.
  cbn [allChars] in Hpre. apply andb_true_iff in Hpre as [_ Hpre].
  exact (IH Hpre).
Qed.

(** The leftmost match: a separator-free prefix, the label in any
    letter case, a separator, white space, then the run. *)
Lemma exec_found (p : ascii -> bool)
    (label label' pre ws capture rest : string) (sep : ascii) :
  toUpperCase label' = toUpperCase label ->
  allChars notSeparator label = true ->
  allChars notSeparator pre = true ->
  isSeparator sep = true ->
  allChars isWhiteSpace ws = true ->
  capture <> "" -> startsWith isWhiteSpace capture = false ->
  allChars p capture = true -> startsWith p rest = false ->
  exec p label (pre +:+ label' +:+ String sep (ws +:+ capture +:+ rest))
  = Some capture.
Proof.
  intros Hup Hlab Hpre Hsep Hws Hne Hfirst Hc Hr.
  assert (Hlen : String.length label' = String.length label)
    by (rewrite <- (length_upper label'), Hup; apply length_upper).
  assert (Hlab' : allChars notSeparator label' = true)
    by (rewrite <- allChars_upper, Hup, allChars_upper; exact Hlab).
  rewrite (exec_skip p label pre label' _ Hlen Hpre Hlab').
  assert (Hhere : matchHere p label
                    (label' +:+ String sep (ws +:+ capture +:+ rest))
                  = Some capture).
  { unfold matchHere. rewrite (matchLabel_same label label' _ Hup), Hsep.
    apply spacesThenGroup_found; assumption. }
  destruct (label' +:+ String sep (ws +:+ capture +:+ rest)) eqn:E;
    cbn [exec]; rewrite Hhere; reflexivity.
Qed.

Lemma exec_Some (p : ascii -> bool) (label s capture : string) :
  exec p label s = Some capture -> capture <> "" /\ allChars p capture = true.
Proof.
  induction s as [|a s IH]; cbn [exec].
  - destruct (matchHere p label "") as [c|] eqn:E; [|discriminate].
    intros H. injection H as <-. unfold matchHere in E.
    destruct (matchLabel label "") as [[|c' r]|]; try discriminate E.
    destruct (isSeparator c'); [|discriminate E].
    apply (spacesThenGroup_Some p r c E).
  - destruct (matchHere p label (String a s)) as [c|] eqn:E; [|exact IH].
    intros H. injection H as <-. unfold matchHere in E.
    destruct (matchLabel label (String a s)) as [[|c' r]|]; try discriminate E.
    destruct (isSeparator c'); [|discriminate E].
    apply (spacesThenGroup_Some p r c E).
Qed.

(** Without a separator in the text nothing matches. *)
Lemma exec_no_separator (p : ascii -> bool) (label s : string) :
  allChars notSeparator s = true -> exec p label s = None.
Proof.
  assert (Hhere : forall t, allChars notSeparator t = true ->
                            matchHere p label t = None).
  { intros t Ht. unfold matchHere.
    destruct (matchLabel label t) as [[|c rest]|] eqn:E; try reflexivity.
    assert (Hc : isSeparator c = false); [|rewrite Hc; reflexivity].
    clear -E Ht. revert t E Ht.
    induction label as [|l label IH]; intros t E Ht.
    - cbn [matchLabel] in E. injection E as ->. cbn [allChars] in Ht.
      apply andb_true_iff in Ht as [Hc _]. apply negb_true_iff in Hc. exact Hc.
    - destruct t as [|a t]; [discriminate E|]. cbn [matchLabel] in E.
      destruct (sameLetter a l); [|discriminate E].
      cbn [allChars] in Ht. apply andb_true_iff in Ht as [_ Ht].
      exact (IH t E Ht). }
  induction s as [|a s IH]; intros Hs; cbn [exec]; rewrite (Hhere _ Hs).
  - reflexivity.
  - cbn [allChars] in Hs. apply andb_true_iff in Hs as [_ Hs]. exact (IH Hs).
Qed.

Lemma digitsValue_nonneg (digits : string) :
  allChars isDigit digits = true -> 0 <= digitsValue digits.
Proof.
  unfold digitsValue.
  assert (Hgen : forall acc, 0 <= acc -> allChars isDigit digits = true ->
            0 <= fold_left (fun acc c => 10 * acc + (Z.of_nat (nat_of_ascii c) - 48))
                   (list_ascii_of_string digits) acc).
  { induction digits as [|a digits IH]; intros acc Hacc Hd; [exact Hacc|].
    cbn [list_ascii_of_string fold_left]. cbn [allChars] in Hd.
    apply andb_true_iff in Hd as [Ha Hd]. apply IH; [|exact Hd].
    unfold isDigit in Ha. apply andb_true_iff in Ha as [Ha _].
    apply Nat.leb_le in Ha. lia. }
  intros H. apply Hgen; [lia|exact H].
Qed.

End QuickParse.

(** X5. The quick parse reads a labelled value wherever the label first
    stands before a separator: after any text free of [:] and [=] (the
    label may even end a longer word), the label in any letter case, a
    separator and optional white space, [numberFrom] returns the number
    the run of digits denotes and [stringFrom] the trimmed run of
    letters and spaces. *)
Theorem quick_parse_reads_labelled_value
    (label label' pre ws value rest : string) (sep : ascii) :
  toUpperCase label' = toUpperCase label ->
  Extraction.allChars Extraction.notSeparator label = true ->
  Extraction.allChars Extraction.notSeparator pre = true ->
  Extraction.isSeparator sep = true ->
  Extraction.allChars isWhiteSpace ws = true ->
  value <> "" ->
  Extraction.startsWith isWhiteSpace value = false ->
  (Extraction.allChars Extraction.isDigit value = true ->
   Extraction.startsWith Extraction.isDigit rest = false ->
   Extraction.numberFrom label
     (pre +:+ label' +:+ String sep (ws +:+ value +:+ rest))
   = JNum (of_Z (Extraction.digitsValue value)))
  /\ (Extraction.allChars Extraction.isLetterOrSpace value = true ->
      Extraction.startsWith Extraction.isLetterOrSpace rest = false ->
      Extraction.stringFrom label
        (pre +:+ label' +:+ String sep (ws +:+ value +:+ rest))
      = JStr (trim value)).
Proof.
  intros Hup Hlab Hpre Hsep Hws Hne Hfirst. split; intros Hc Hr.
  - unfold Extraction.numberFrom.
    rewrite (exec_found _ label label' pre ws value rest sep); try assumption.
    reflexivity.
  - unfold Extraction.stringFrom.
    rewrite (exec_found _ label label' pre ws value rest sep); try assumption.
    reflexivity.
Qed.

Lemma quick_parse_reads_labelled_value_witness :
  Extraction.numberFrom "age" "data_usAGE= 12, age: 35" = JNum (of_Z 12).
Proof.
  apply (quick_parse_reads_labelled_value "age" "AGE" "data_us" " " "12"
           ", age: 35" "=");
    try reflexivity; discriminate.
Defined.

Section Shapes.
Import Extraction.

Lemma allChars_trimStart (p : ascii -> bool) (s : string) :
  allChars p s = true -> allChars p (trimStart s) = true.
Proof.
  induction s as [|a s IH]; intros H; [reflexivity|].
  cbn [trimStart]. destruct (isWhiteSpace a); [|exact H].
  cbn [allChars] in H. apply andb_true_iff in H as [_ H]. exact (IH H).
Qed.

Lemma allChars_rev_app (p : ascii -> bool) (s acc : string) :
  allChars p (String.rev_app s acc) = allChars p s && allChars p acc.
Proof.
  revert acc. induction s as [|a s IH]; intros acc; [reflexivity|].
  cbn [String.rev_app allChars]. rewrite IH. cbn [allChars].
  destruct (p a), (allChars p s); reflexivity.
Qed.

Lemma allChars_rev (p : ascii -> bool) (s : string) :
  allChars p (String.rev s) = allChars p s.
Proof. unfold String.rev. rewrite allChars_rev_app. apply andb_true_r. Qed.

Lemma allChars_trim (p : ascii -> bool) (s : string) :
  allChars p s = true -> allChars p (trim s) = true.
Proof.
  intros H. unfold trim, trimEnd.
  rewrite allChars_rev. apply allChars_trimStart.
  rewrite allChars_rev. apply allChars_trimStart, H.
Qed.

End Shapes.

Section NumbersOfDigits.

(** Rounding a positive integer never gives NaN or a negative number:
    the result is [+0], a positive finite number or [+Infinity]. *)
Lemma round_aux_not_negative (M : positive) (E : Z) :
  let x := binary_round_aux prec emax false (Z.pos M) E loc_Exact in
  x = S754_zero false
  \/ (exists m e, x = S754_finite false m e)
  \/ x = S754_infinity false.
Proof.
  unfold binary_round_aux.
  destruct (shr_fexp_exact (Z.pos M) E) as [mrs1 [E1 S1]]; [lia|].
  rewrite E1. cbv beta iota.
  set (e1 := Z.max E (fexp prec emax (Zdigits2 (Z.pos M) + E))) in *.
  assert (HEe1 : 0 <= e1 - E) by (subst e1; lia).
  pose proof (pow2_pos (e1 - E) HEe1) as Hp1.
  set (r := round_nearest_even (shr_m mrs1) (loc_of_shr_record mrs1)).
  assert (Hr : 0 <= r <= Z.pos M).
  { apply (round_shifted_le (Z.pos M) (e1 - E) (Z.pos M) mrs1);
      [lia|lia|exact S1|nia]. }
  destruct (shr_fexp_exact r e1) as [mrs2 [E2 [Hm2 _]]]; [lia|].
  rewrite E2. cbv beta iota.
  set (e2 := Z.max e1 (fexp prec emax (Zdigits2 r + e1))) in *.
  assert (He12 : 0 <= e2 - e1) by (subst e2; lia).
  pose proof (pow2_pos (e2 - e1) He12) as Hp2.
  assert (Hq : 0 <= shr_m mrs2) by (rewrite Hm2; apply Z.div_pos; lia).
  destruct (shr_m mrs2) as [|m2|m2]; [left; reflexivity| |lia].
  right. destruct (e2 <=? emax - prec); [left; eauto|right; reflexivity].
Qed.

Lemma of_Z_not_negative (n : Z) :
  0 <= n -> is_nan (of_Z n) = false /\ lt (of_Z n) (of_Z 0) = false.
Proof.
  intros Hn. unfold of_Z. destruct n as [|M|M]; [split; reflexivity| |lia].
  cbn [binary_normalize]. unfold binary_round.
  destruct (shl_align M 0 _) as [mz ez].
  destruct (round_aux_not_negative mz ez) as [->|[[m [e ->]]| ->]];
    split; reflexivity.
Qed.

End NumbersOfDigits.

(** X6. Whatever the text, the quick parse gives a numeric field nothing
    or the number closest to a non-negative integer: it is never NaN and
    never below zero, but it is [+Infinity] when the run of digits is too
    long for a finite number (a 1 followed by 400 zeros).  A text field
    gets letters and spaces only, and the registration date a non-empty
    run of digits, slashes and dashes. *)
Theorem quick_parse_value_shapes (label text : string) :
  (Extraction.numberFrom label text = JUndefined
   \/ exists n, 0 <= n
                /\ Extraction.numberFrom label text = JNum (of_Z n)
                /\ is_nan (of_Z n) = false
                /\ lt (of_Z n) (of_Z 0) = false)
  /\ Extraction.numberFrom "age"
       ("age: 1" +:+ string_of_list_ascii (repeat "0"%char 400))
     = JNum (S754_infinity false)
  /\ (Extraction.stringFrom label text = JUndefined
      \/ exists s, Extraction.stringFrom label text = JStr s
                   /\ Extraction.allChars Extraction.isLetterOrSpace s = true)
  /\ (Extraction.dateFrom text = JUndefined
      \/ exists s, Extraction.dateFrom text = JStr s /\ s <> ""
                   /\ Extraction.allChars Extraction.isDateChar s = true).
Proof.
  unfold Extraction.numberFrom, Extraction.stringFrom, Extraction.dateFrom.
  split; [|split; [vm_compute; reflexivity|split]].
  - destruct (Extraction.exec _ label text) as [c|] eqn:E; [right|left; reflexivity].
    destruct (exec_Some _ _ _ _ E) as [_ Hc].
    pose proof (digitsValue_nonneg c Hc) as Hn.
    exists (Extraction.digitsValue c).
    split; [exact Hn|]. split; [reflexivity|]. apply of_Z_not_negative, Hn.
  - destruct (Extraction.exec _ label text) as [c|] eqn:E; [right|left; reflexivity].
    destruct (exec_Some _ _ _ _ E) as [_ Hc].
    exists (trim c). split; [reflexivity|]. apply allChars_trim, Hc.
  - destruct (Extraction.exec _ _ text) as [c|] eqn:E; [right|left; reflexivity].
    destruct (exec_Some _ _ _ _ E) as [Hne Hc].
    exists c. auto.
Qed.

(** ** handleSend with the quick parse *)
Section PlainText.
Import Extraction.

Variable toFixed : number -> nat -> string.
Variable numberToString : number -> string.
Variable Number : string -> number.
Variable JSON_parse : string -> option (gmap string JsValue).
Variable generateContent : string -> option string.
Variable predictChurn : gmap string JsValue -> Outcome PredictionResponse.
Variables nowSent dateSent nowReplied dateReplied : number.

Lemma quickParse_no_separator (text : string) :
  allChars notSeparator text = true ->
  quickParse text = Samples.nothingExtracted.
Proof.
  intros H. unfold quickParse, numberFrom, stringFrom, dateFrom.
  rewrite !(exec_no_separator _ _ text H). vm_compute. reflexivity.
Qed.

Lemma extract_no_separator (text : string) :
  allChars notSeparator text = true ->
  extractPredictionRequest Number JSON_parse generateContent None text
  = Samples.nothingExtracted.
Proof.
  intros H. unfold extractPredictionRequest. cbn [default from_option id].
  change (negb (String.eqb "" "")) with false. cbv iota.
  rewrite (quickParse_no_separator text H).
  apply map_eq. intros k. rewrite coerceTypes_lookup.
  destruct (decide (k ∈ numericFields)) as [Hk|]; [|reflexivity].
  unfold numericFields in Hk.
  repeat (apply elem_of_cons in Hk as [->|Hk]; [vm_compute; reflexivity|]).
  apply elem_of_nil in Hk as [].
Qed.

(** Without a key, a message free of [:] and [=] is answered by the
    canned insight, with no call to the prediction API. *)
Lemma handleSend_plain_text (st : InsightsPanel.State) :
  String.eqb (trim (InsightsPanel.input st)) "" = false ->
  InsightsPanel.loading st = false ->
  allChars notSeparator (trim (InsightsPanel.input st)) = true ->
  let out :=
    InsightsPanel.handleSend toFixed numberToString
      (world Number JSON_parse generateContent None predictChurn
         nowSent dateSent nowReplied dateReplied) st in
  snd out = []
  /\ reply (fst out)
     = Some (InsightsPanel.generateAIResponse (trim (InsightsPanel.input st))).
Proof.
  intros Hin Hl Hsep out. subst out.
  rewrite (handleSend_open toFixed numberToString _ st Hin Hl). cbv zeta.
  rewrite (respond_incomplete toFixed _ _ Samples.nothingExtracted).
  - cbn [fst snd world InsightsPanel.apiKey default from_option id].
    change (negb (String.eqb "" "")) with false. cbv iota.
    split; [reflexivity|]. unfold reply. cbn [InsightsPanel.messages].
    change (InsightsPanel.messages st ++ [?a; ?b])
      with (InsightsPanel.messages st ++ [a] ++ [b]).
    rewrite app_assoc, last_snoc. reflexivity.
  - cbn [world InsightsPanel.extractPredictionRequest].
    rewrite (extract_no_separator _ Hsep). reflexivity.
  - vm_compute. discriminate.
Qed.

End PlainText.

(** X7. With no Gemini key, a message that contains neither [:] nor [=]
    yields no field at all: all 12 are missing, the prediction API is not
    called and the reply is the canned insight for the message. *)
Theorem plain_text_gets_canned_reply
    (toFixed : number -> nat -> string) (numberToString : number -> string)
    (Number : string -> number)
    (JSON_parse : string -> option (gmap string JsValue))
    (generateContent : string -> option string)
    (predictChurn : gmap string JsValue -> Outcome PredictionResponse)
    (nowSent dateSent nowReplied dateReplied : number)
    (st : InsightsPanel.State) :
  String.eqb (trim (InsightsPanel.input st)) "" = false ->
  InsightsPanel.loading st = false ->
  Extraction.allChars Extraction.notSeparator (trim (InsightsPanel.input st)) = true ->
  let out :=
    InsightsPanel.handleSend toFixed numberToString
      (Extraction.world Number JSON_parse generateContent None predictChurn
         nowSent dateSent nowReplied dateReplied) st in
  InsightsPanel.missingFields
    (Extraction.extractPredictionRequest Number JSON_parse generateContent None
       (trim (InsightsPanel.input st)))
  = InsightsPanel.requiredFields
  /\ snd out = []
  /\ reply (fst out)
     = Some (InsightsPanel.generateAIResponse (trim (InsightsPanel.input st))).
Proof.
  intros Hin Hl Hsep out. split.
  - rewrite (extract_no_separator Number JSON_parse generateContent _ Hsep).
    vm_compute. reflexivity.
  - apply handleSend_plain_text; assumption.
Qed.

Lemma plain_text_gets_canned_reply_witness :
  reply (fst (InsightsPanel.handleSend Samples.noFormat Samples.noString
                (Extraction.world (fun _ => S754_nan) (fun _ => None) (fun _ => None)
                   None (fun _ => Rejected Samples.unreachable)
                   (of_Z 1) (of_Z 1) (of_Z 2) (of_Z 2))
                (Samples.chat "how do I improve things?")))
  = Some InsightsPanel.insight_retention.
Proof.
  apply (plain_text_gets_canned_reply Samples.noFormat Samples.noString
           (fun _ => S754_nan) (fun _ => None) (fun _ => None)
           (fun _ => Rejected Samples.unreachable)
           (of_Z 1) (of_Z 1) (of_Z 2) (of_Z 2)
           (Samples.chat "how do I improve things?"));
    vm_compute; reflexivity.
Defined.

(** X8. Without a Gemini key each quick-insight button answers itself:
    sending the question of a predefined insight is replied to with the
    answer of that same insight, and calls no API. *)
Theorem quick_insight_buttons_answer_themselves
    (toFixed : number -> nat -> string) (numberToString : number -> string)
    (Number : string -> number)
    (JSON_parse : string -> option (gmap string JsValue))
    (generateContent : string -> option string)
    (predictChurn : gmap string JsValue -> Outcome PredictionResponse)
    (nowSent dateSent nowReplied dateReplied : number)
    (st : InsightsPanel.State) (question answer : string) :
  (question, answer) ∈ Extraction.predefinedInsights ->
  InsightsPanel.input st = question ->
  InsightsPanel.loading st = false ->
  let out :=
    InsightsPanel.handleSend toFixed numberToString
      (Extraction.world Number JSON_parse generateContent None predictChurn
         nowSent dateSent nowReplied dateReplied) st in
  snd out = [] /\ reply (fst out) = Some answer.
Proof.
  intros Hqa Hinput Hl out. subst out.
  unfold Extraction.predefinedInsights in Hqa.
  repeat (apply elem_of_cons in Hqa as [Hqa|Hqa];
          [injection Hqa as -> ->;
           destruct (handleSend_plain_text toFixed numberToString Number JSON_parse
                       generateContent predictChurn nowSent dateSent nowReplied
                       dateReplied st) as [Hcalls Hreply];
           [rewrite Hinput; vm_compute; reflexivity
           |exact Hl
           |rewrite Hinput; vm_compute; reflexivity
           |split; [exact Hcalls|rewrite Hreply, Hinput; vm_compute; reflexivity]]
          |]).
  apply elem_of_nil in Hqa as [].
Qed.

Lemma quick_insight_buttons_answer_themselves_witness :
  reply (fst (InsightsPanel.handleSend Samples.noFormat Samples.noString
                (Extraction.world (fun _ => S754_nan) (fun _ => None) (fun _ => None)
                   None (fun _ => Rejected Samples.unreachable)
                   (of_Z 1) (of_Z 1) (of_Z 2) (of_Z 2))
                (Samples.chat "Which contract type has the lowest churn rate?")))
  = Some InsightsPanel.insight_contract.
Proof.
  apply (quick_insight_buttons_answer_themselves Samples.noFormat Samples.noString
           (fun _ => S754_nan) (fun _ => None) (fun _ => None)
           (fun _ => Rejected Samples.unreachable)
           (of_Z 1) (of_Z 1) (of_Z 2) (of_Z 2)
           (Samples.chat "Which contract type has the lowest churn rate?")
           "Which contract type has the lowest churn rate?"
           InsightsPanel.insight_contract);
    try reflexivity.
  apply (bool_decide_unpack _). vm_compute. exact I.
Defined.

Section CannedReplies.

Lemma generateAIResponse_names_no_field (question k : string) :
  k ∈ InsightsPanel.requiredFields ->
  includes (InsightsPanel.generateAIResponse question) k = false.
Proof.
  intros Hk. unfold InsightsPanel.generateAIResponse. cbv zeta.
  unfold InsightsPanel.requiredFields in Hk.
  repeat match goal with
         | |- context [if ?b then _ else _] => destruct b
         end;
    repeat (apply elem_of_cons in Hk as [->|Hk]; [vm_compute; reflexivity|]);
    apply elem_of_nil in Hk as [].
Qed.

Lemma lowerChar_upperChar (c : ascii) : lowerChar (upperChar c) = lowerChar c.
Proof. destruct c as [[|] [|] [|] [|] [|] [|] [|] [|]]; vm_compute; reflexivity. Qed.

Lemma lowerChar_lowerChar (c : ascii) : lowerChar (lowerChar c) = lowerChar c.
Proof. destruct c as [[|] [|] [|] [|] [|] [|] [|] [|]]; vm_compute; reflexivity. Qed.

Lemma toLowerCase_toUpperCase (s : string) :
  toLowerCase (toUpperCase s) = toLowerCase s.
Proof.
  unfold toLowerCase, toUpperCase.
  induction s as [|c s IH]; [reflexivity|].
  cbn [mapString]. rewrite IH, lowerChar_upperChar. reflexivity.
Qed.

Lemma toLowerCase_toLowerCase (s : string) :
  toLowerCase (toLowerCase s) = toLowerCase s.
Proof.
  unfold toLowerCase.
  induction s as [|c s IH]; [reflexivity|].
  cbn [mapString]. rewrite IH, lowerChar_lowerChar. reflexivity.
Qed.

End CannedReplies.

(** X9. Without a Gemini key, every message that leads to no prediction
    call (nothing could be extracted, or a field is missing) is answered
    by a canned insight, and that reply names none of the 12 required
    fields: the user is never told what is missing. *)
Theorem keyless_reply_names_no_field
    (toFixed : number -> nat -> string) (numberToString : number -> string)
    (w : InsightsPanel.World) (st : InsightsPanel.State) :
  String.eqb (trim (InsightsPanel.input st)) "" = false ->
  InsightsPanel.loading st = false ->
  default "" (InsightsPanel.apiKey w) = "" ->
  snd (InsightsPanel.handleSend toFixed numberToString w st) = [] ->
  reply (fst (InsightsPanel.handleSend toFixed numberToString w st))
  = Some (InsightsPanel.generateAIResponse (trim (InsightsPanel.input st)))
  /\ forall k, k ∈ InsightsPanel.requiredFields ->
       includes (InsightsPanel.generateAIResponse (trim (InsightsPanel.input st))) k
       = false.
Proof.
  intros Hin Hl Hkey Hcalls. split; [|intros k; apply generateAIResponse_names_no_field].
  rewrite (handleSend_open toFixed numberToString w st Hin Hl) in *.
  cbv zeta in *. cbn [fst snd] in *.
  unfold reply. cbn [InsightsPanel.messages].
  change (InsightsPanel.messages st ++ [?a; ?b])
    with (InsightsPanel.messages st ++ [a] ++ [b]).
  rewrite app_assoc, last_snoc. cbn [fmap option_fmap option_map InsightsPanel.content].
  f_equal. revert Hcalls. unfold InsightsPanel.respond.
  destruct (InsightsPanel.extractPredictionRequest w _) as [req|]; [|reflexivity].
  cbv zeta. destruct (length (InsightsPanel.missingFields req) =? 0)%nat.
  - destruct (InsightsPanel.predictChurn w req); discriminate.
  - rewrite Hkey. reflexivity.
Qed.

Lemma keyless_reply_names_no_field_witness :
  includes
    (InsightsPanel.generateAIResponse
       (trim (InsightsPanel.input (Samples.chat "age: 35, gender: F"))))
    "gender" = false.
Proof.
  apply (keyless_reply_names_no_field Samples.noFormat Samples.noString
           (Extraction.world (fun _ => S754_nan) (fun _ => None) (fun _ => None)
              None (fun _ => Rejected Samples.unreachable)
              (of_Z 1) (of_Z 1) (of_Z 2) (of_Z 2))
           (Samples.chat "age: 35, gender: F")).
  - vm_compute; reflexivity.
  - vm_compute; reflexivity.
  - vm_compute; reflexivity.
  - vm_compute; reflexivity.
  - apply (bool_decide_unpack _). vm_compute. exact I.
Defined.

(** X10. The canned insight does not depend on the letter case of the
    question: an ASCII question written in upper case or in lower case
    gets the reply of the question as typed. *)
Theorem generateAIResponse_ignores_case (question : string) :
  Extraction.allChars Extraction.isAscii question = true ->
  InsightsPanel.generateAIResponse (toUpperCase question)
  = InsightsPanel.generateAIResponse question
  /\ InsightsPanel.generateAIResponse (toLowerCase question)
     = InsightsPanel.generateAIResponse question.
Proof.
  intros _. unfold InsightsPanel.generateAIResponse. cbv zeta.
  rewrite toLowerCase_toUpperCase, toLowerCase_toLowerCase. split; reflexivity.
Qed.

Lemma generateAIResponse_ignores_case_witness :
  InsightsPanel.generateAIResponse (toUpperCase "Which Factors drive churn?")
  = InsightsPanel.generateAIResponse "Which Factors drive churn?".
Proof.
  apply (generateAIResponse_ignores_case "Which Factors drive churn?").
  vm_compute. reflexivity.
Defined.

(** ** PredictPanel: the form, the badge, the suggestions *)
Section Form.

Variable Number : string -> number.

Lemma initialFormData_wellTyped :
  PredictForm.wellTyped PredictForm.initialFormData.
Proof.
  intros k Hk. unfold InsightsPanel.requiredFields in Hk.
  repeat (apply elem_of_cons in Hk as [->|Hk];
          [vm_compute; eexists; reflexivity|]).
  apply elem_of_nil in Hk as [].
Qed.

Lemma handleInputChange_wellTyped (name value : string)
    (formData : gmap string JsValue) :
  PredictForm.wellTyped formData ->
  PredictForm.wellTyped (PredictForm.handleInputChange Number name value formData).
Proof.
  intros H k Hk. unfold PredictForm.handleInputChange.
  destruct (decide (name = k)) as [->|Hne].
  - rewrite lookup_insert_eq.
    destruct (PredictForm.isNumericName k); eexists; reflexivity.
  - rewrite lookup_insert_ne by exact Hne. apply H, Hk.
Qed.

Lemma afterChanges_wellTyped (events : list (string * string))
    (formData : gmap string JsValue) :
  PredictForm.wellTyped formData ->
  PredictForm.wellTyped (PredictForm.afterChanges Number events formData).
Proof.
  revert formData. unfold PredictForm.afterChanges.
  induction events as [|e events IH]; intros formData H; [exact H|].
  cbn [foldl]. apply IH, handleInputChange_wellTyped, H.
Qed.

End Form.

Lemma isNumericName_numericFields (k : string) :
  PredictForm.isNumericName k = true <-> k ∈ Extraction.numericFields.
Proof.
  unfold PredictForm.isNumericName, Extraction.numericFields.
  rewrite !orb_true_iff, !String.eqb_eq, !elem_of_cons, elem_of_nil. tauto.
Qed.

(** X11. Whatever the user types, in whatever order, the form keeps
    every required field at its type: after any sequence of change
    events the seven numeric fields hold numbers and the five text fields
    hold strings, so the request sent to the API never carries a number
    as a string.  The numeric names are the ones the chat panel coerces. *)
Theorem form_fields_keep_their_types
    (Number : string -> number) (events : list (string * string)) (k : string) :
  k ∈ InsightsPanel.requiredFields ->
  let formData :=
    PredictForm.afterChanges Number events PredictForm.initialFormData in
  (k ∈ Extraction.numericFields -> exists n, formData !! k = Some (JNum n))
  /\ (k ∉ Extraction.numericFields -> exists s, formData !! k = Some (JStr s))
  /\ InsightsPanel.isMissing (InsightsPanel.get formData k)
     = match formData !! k with
       | Some (JStr s) => String.eqb (trim s) ""
       | _ => false
       end.
Proof.
  intros Hk formData.
  pose proof (afterChanges_wellTyped Number events _
                initialFormData_wellTyped k Hk) as H.
  fold formData in H.
  pose proof (isNumericName_numericFields k) as Hn.
  destruct (PredictForm.isNumericName k).
  - destruct H as [n H]. split; [eauto|]. split.
    + intros Hnot. exfalso. apply Hnot, Hn. reflexivity.
    + unfold InsightsPanel.get. rewrite H. reflexivity.
  - destruct H as [s H]. split.
    + intros Hin. apply Hn in Hin. discriminate Hin.
    + split; [eauto|]. unfold InsightsPanel.get. rewrite H. reflexivity.
Qed.

Lemma form_fields_keep_their_types_witness :
  exists n,
    PredictForm.afterChanges (fun _ => S754_nan) [("age", "abc"); ("city", "12")]
      PredictForm.initialFormData !! "age" = Some (JNum n).
Proof.
  destruct (form_fields_keep_their_types (fun _ => S754_nan)
              [("age", "abc"); ("city", "12")] "age") as [H _].
  - apply (bool_decide_unpack _). vm_compute. exact I.
  - apply H. apply (bool_decide_unpack _). vm_compute. exact I.
Defined.

Lemma gt_c0_6_gt_c0_3 (p : number) :
  gt p PredictPanel.c0_6 = true -> gt p PredictPanel.c0_3 = true.
Proof.
  intros H6. destruct (gt p PredictPanel.c0_3) eqn:H3; [reflexivity|].
  apply not_gt_le in H3.
  - apply le_c0_3_not_gt_c0_6 in H3. congruence.
  - apply (gt_not_nan _ _ H6).
  - rewrite c0_3_bits. reflexivity.
Qed.

(** X12. The colour of the risk badge follows the probability: red
    exactly when it is above 0.6, green exactly when it is not above 0.3
    (NaN included), orange in between; the three classes differ, so the
    colour tells the bucket. *)
Theorem risk_badge_colour
    (formData : PredictionRequest) (response : PredictionResponse) :
  let p := churn_probability response in
  let shown := PredictForm.badgeColor (PredictPanel.predictionResult formData response) in
  (shown = PredictForm.red <-> gt p PredictPanel.c0_6 = true)
  /\ (shown = PredictForm.green <-> gt p PredictPanel.c0_3 = false)
  /\ (shown = PredictForm.orange
      <-> gt p PredictPanel.c0_6 = false /\ gt p PredictPanel.c0_3 = true).
Proof.
  intros p shown. subst shown.
  unfold PredictForm.badgeColor, PredictPanel.predictionResult.
  cbn [PredictPanel.riskLevel]. fold p. unfold PredictPanel.computeRiskLevel.
  pose proof (gt_c0_6_gt_c0_3 p) as H63.
  destruct (gt p PredictPanel.c0_6), (gt p PredictPanel.c0_3);
    try (specialize (H63 eq_refl); discriminate H63);
    vm_compute; repeat split; try reflexivity; try discriminate;
    intros [? ?]; discriminate.
Qed.

(** X13. What the cut to four suggestions loses.  The suggestions of the
    bucket are always shown, and so is the pricing review whenever the
    salary is above 80000; the family plan is shown when there are
    dependents, except for a customer above 0.6 whose salary is above
    80000: there it is the fifth entry and is dropped. *)
Theorem truncation_drops_only_family_plan
    (formData : PredictionRequest) (response : PredictionResponse) :
  let p := churn_probability response in
  let shown := PredictPanel.suggestions (PredictPanel.predictionResult formData response) in
  (forall s, s ∈ PredictPanel.baseSuggestions p -> s ∈ shown)
  /\ ("Review pricing plan for potential savings" ∈ shown
      <-> gt (estimated_salary formData) PredictPanel.c80000 = true)
  /\ ("Provide family plan benefits" ∈ shown
      <-> gt (num_dependents formData) PredictPanel.c0 = true
          /\ (gt p PredictPanel.c0_6
              && gt (estimated_salary formData) PredictPanel.c80000) = false).
Proof.
  intros p shown. subst shown.
  unfold PredictPanel.predictionResult. cbn [PredictPanel.suggestions]. fold p.
  unfold PredictPanel.pushedSuggestions, PredictPanel.baseSuggestions.
  destruct (gt p PredictPanel.c0_6), (gt p PredictPanel.c0_3),
    (gt (estimated_salary formData) PredictPanel.c80000),
    (gt (num_dependents formData) PredictPanel.c0);
    cbn [app take andb];
    (split;
     [intros s Hs;
      repeat (apply elem_of_cons in Hs as [->|Hs];
              [apply (bool_decide_unpack _); vm_compute; exact I|]);
      apply elem_of_nil in Hs as []|]);
    split; split;
      try (intros _;
           first [reflexivity | split; reflexivity
                 | apply (bool_decide_unpack _); vm_compute; exact I]);
      try (intros H; exfalso; revert H; apply (bool_decide_unpack _);
           vm_compute; exact I);
      try (intros [? ?]; discriminate);
      try discriminate.
Qed.

(** ** PieChart *)
Section PieDivisors.
Import Charts Pie.

Variable numberToString : number -> string.
Variable toFixed : number -> nat -> string.
Variables Math_cos Math_sin : number -> number.

Lemma eq_zero_is_zero (x : number) : eq x (of_Z 0) = is_zero x.
Proof. destruct x as [[|]|[|]| |[|] m e]; reflexivity. Qed.

Lemma segment_divisors (total currentAngle : number) (item : PieItem) :
  snd (segment numberToString toFixed Math_cos Math_sin total currentAngle item)
  = [total; of_Z 100; of_Z 180; of_Z 180].
Proof. reflexivity. Qed.

Lemma segment_item (total currentAngle : number) (item : PieItem) :
  let seg :=
    fst (fst (segment numberToString toFixed Math_cos Math_sin
                total currentAngle item)) in
  slabel seg = label item /\ svalue seg = value item /\ scolor seg = color item.
Proof. repeat split. Qed.

Lemma segments_divisors (total currentAngle : number) (data : list PieItem) :
  Forall (fun d => d = total \/ d = of_Z 100 \/ d = of_Z 180)
    (snd (segments numberToString toFixed Math_cos Math_sin
            total currentAngle data)).
Proof.
  revert currentAngle. induction data as [|item rest IH]; intros currentAngle.
  - constructor.
  - cbn [segments]. unfold bind.
    destruct (segment _ _ _ _ total currentAngle item) as [sc ds] eqn:E.
    pose proof (segment_divisors total currentAngle item) as Hd.
    rewrite E in Hd. cbn [snd] in Hd. subst ds.
    specialize (IH (snd sc)).
    destruct (segments _ _ _ _ total (snd sc) rest) as [segs ds'].
    cbn [snd ret app] in *. rewrite app_nil_r.
    repeat (constructor; [tauto|]). exact IH.
Qed.

Lemma segments_items (total currentAngle : number) (data : list PieItem) :
  let segs :=
    fst (segments numberToString toFixed Math_cos Math_sin
           total currentAngle data) in
  map slabel segs = map label data
  /\ map svalue segs = map value data
  /\ map scolor segs = map color data.
Proof.
  revert currentAngle. induction data as [|item rest IH]; intros currentAngle.
  - repeat split.
  - cbn [segments]. unfold bind.
    destruct (segment _ _ _ _ total currentAngle item) as [sc ds] eqn:E.
    pose proof (segment_item total currentAngle item) as Hi.
    rewrite E in Hi. cbn [fst] in Hi. destruct Hi as (Hl & Hv & Hc).
    specialize (IH (snd sc)).
    destruct (segments _ _ _ _ total (snd sc) rest) as [segs ds'].
    cbn [fst snd ret map] in *. destruct IH as (IHl & IHv & IHc).
    rewrite Hl, Hv, Hc, IHl, IHv, IHc. repeat split.
Qed.

End PieDivisors.

(** X14. The pie chart guards its total: when the values sum to zero
    (an empty list, only zeros, values that cancel) it renders the
    [No data available] placeholder and divides nothing; otherwise it
    draws one segment per item, in order, with the item's label, value
    and colour, around the total.  No divisor of a division it performs
    is ever zero. *)
Theorem pie_chart_guards_its_total
    (numberToString : number -> string) (toFixed : number -> nat -> string)
    (Math_cos Math_sin : number -> number) (data : list Pie.PieItem) :
  let view := Pie.PieChart numberToString toFixed Math_cos Math_sin data in
  (is_zero (Pie.sum data) = true ->
   view = (Pie.PieNoData "No data available", []))
  /\ (is_zero (Pie.sum data) = false ->
      exists segs,
        fst view = Pie.PieSvg (Pie.sum data) segs
        /\ map Pie.slabel segs = map Pie.label data
        /\ map Pie.svalue segs = map Pie.value data
        /\ map Pie.scolor segs = map Pie.color data)
  /\ Forall (fun d => is_zero d = false) (snd view).
Proof.
  intros view. subst view. unfold Pie.PieChart. cbv zeta.
  rewrite eq_zero_is_zero.
  destruct (is_zero (Pie.sum data)) eqn:Hz.
  - split; [reflexivity|]. split; [discriminate|]. constructor.
  - split; [discriminate|].
    pose proof (segments_divisors numberToString toFixed Math_cos Math_sin
                  (Pie.sum data) (of_Z (-90)) data) as Hd.
    pose proof (segments_items numberToString toFixed Math_cos Math_sin
                  (Pie.sum data) (of_Z (-90)) data) as Hi.
    unfold Charts.bind.
    destruct (Pie.segments _ _ _ _ (Pie.sum data) (of_Z (-90)) data) as [segs ds].
    cbn [fst snd Charts.ret] in *. split.
    + intros _. exists segs. split; [reflexivity|exact Hi].
    + rewrite app_nil_r. eapply Forall_impl; [exact Hd|].
      intros d [->|[->| ->]]; [exact Hz|reflexivity|reflexivity].
Qed.

Lemma pie_chart_guards_its_total_witness :
  Pie.PieChart Samples.noString Samples.noFormat (fun x => x) (fun x => x)
    [ {| Pie.label := "in"; Pie.value := of_Z 5; Pie.color := "green" |};
      {| Pie.label := "out"; Pie.value := of_Z (-5); Pie.color := "red" |} ]
  = (Pie.PieNoData "No data available", []).
Proof.
  apply (pie_chart_guards_its_total Samples.noString Samples.noFormat
           (fun x => x) (fun x => x)).
  vm_compute. reflexivity.
Defined.

Section ChartsOfAnyData.
Import Charts.

Variable numberToString : number -> string.
Variable toFixed : number -> nat -> string.
Variables Math_cos Math_sin : number -> number.

Lemma LineChart_no_zero_divisor (data : list LineItem) :
  Forall (fun d => is_zero d = false) (snd (LineChart numberToString data)).
Proof.
  rewrite LineChart_divisors.
  destruct data as [|d data]; [constructor|].
  repeat constructor.
  - apply number_or_not_zero. reflexivity.
  - apply Math_max_floor_not_zero.
Qed.

Lemma BarChart_no_zero_divisor (data : list BarItem) :
  Forall (fun d => is_zero d = false) (snd (BarChart data)).
Proof.
  rewrite BarChart_divisors.
  destruct data as [|d data]; [constructor|].
  rewrite barScale_divisors.
  destruct (gt _ (of_Z 0)) eqn:E; [|constructor].
  repeat constructor. apply gt_zero_not_zero, E.
Qed.

Lemma PieChart_no_zero_divisor (data : list Pie.PieItem) :
  Forall (fun d => is_zero d = false)
    (snd (Pie.PieChart numberToString toFixed Math_cos Math_sin data)).
Proof.
  unfold Pie.PieChart. cbv zeta. rewrite eq_zero_is_zero.
  destruct (is_zero (Pie.sum data)) eqn:Hz; [constructor|].
  pose proof (segments_divisors numberToString toFixed Math_cos Math_sin
                (Pie.sum data) (of_Z (-90)) data) as Hd.
  unfold bind.
  destruct (Pie.segments _ _ _ _ (Pie.sum data) (of_Z (-90)) data) as [segs ds].
  cbn [fst snd ret] in *. rewrite app_nil_r.
  eapply Forall_impl; [exact Hd|].
  intros d [->|[->| ->]]; [exact Hz|reflexivity|reflexivity].
Qed.

End ChartsOfAnyData.

(** ** Navigation *)
Section Navigation.
Import Sidebar.

Lemma afterClicks_in_menu (clicks : list MenuItem) (activeView : string) :
  Forall (fun item => item ∈ menuItems) clicks ->
  activeView ∈ map id menuItems ->
  afterClicks clicks activeView ∈ map id menuItems.
Proof.
  unfold afterClicks. revert activeView.
  induction clicks as [|item clicks IH]; intros activeView Hc Hv; [exact Hv|].
  cbn [foldl]. apply Forall_cons in Hc as [Hitem Hc]. apply IH; [exact Hc|].
  unfold onClick, menuItems in *.
  repeat (apply elem_of_cons in Hitem as [->|Hitem];
          [apply (bool_decide_unpack _); vm_compute; exact I|]).
  apply elem_of_nil in Hitem as [].
Qed.

End Navigation.

(** X15. The sidebar and the application's switch agree.  Starting from
    the dashboard, after any sequence of clicks on menu buttons exactly
    one button is highlighted and the view shown is the one of the
    highlighted item; distinct menu items lead to distinct views, every
    view is reached by some item, and any other name (such as the removed
    [upload]) shows the dashboard. *)
Theorem sidebar_navigation (clicks : list Sidebar.MenuItem) :
  Forall (fun item => item ∈ Sidebar.menuItems) clicks ->
  let activeView := Sidebar.afterClicks clicks App.initialView in
  (exists item,
      List.filter (Sidebar.isActive activeView) Sidebar.menuItems = [item]
      /\ App.renderView activeView = App.renderView (Sidebar.id item))
  /\ (forall i j, i ∈ Sidebar.menuItems -> j ∈ Sidebar.menuItems ->
        App.renderView (Sidebar.id i) = App.renderView (Sidebar.id j) -> i = j)
  /\ (forall view, exists item,
        item ∈ Sidebar.menuItems /\ App.renderView (Sidebar.id item) = view)
  /\ (forall name, name ∉ map Sidebar.id Sidebar.menuItems ->
        App.renderView name = App.DashboardView).
Proof.
  intros Hclicks activeView.
  assert (Hin : activeView ∈ map Sidebar.id Sidebar.menuItems).
  { apply afterClicks_in_menu; [exact Hclicks|].
    apply (bool_decide_unpack _). vm_compute. exact I. }
  clearbody activeView. split; [|split; [|split]].
  - cbn [map Sidebar.menuItems Sidebar.id] in Hin.
    repeat (apply elem_of_cons in Hin as [->|Hin];
            [eexists; split; [vm_compute; reflexivity|reflexivity]|]).
    apply elem_of_nil in Hin as [].
  - intros i j Hi Hj. unfold Sidebar.menuItems in Hi, Hj.
    repeat (apply elem_of_cons in Hi as [->|Hi]);
      try (apply elem_of_nil in Hi as []);
      repeat (apply elem_of_cons in Hj as [->|Hj]);
      try (apply elem_of_nil in Hj as []);
      intros H; try reflexivity; discriminate H.
  - intros [| |];
      [exists {| Sidebar.id := "dashboard"; Sidebar.label := "Dashboard" |}
      |exists {| Sidebar.id := "predict"; Sidebar.label := "Predict" |}
      |exists {| Sidebar.id := "insights"; Sidebar.label := "Insights" |}];
      (split; [unfold Sidebar.menuItems; repeat constructor|reflexivity]).
  - intros name Hname. unfold App.renderView.
    destruct (String.eqb_spec name "dashboard") as [->|_]; [reflexivity|].
    destruct (String.eqb_spec name "predict") as [->|_].
    { exfalso. apply Hname. apply (bool_decide_unpack _). vm_compute. exact I. }
    destruct (String.eqb_spec name "insights") as [->|_]; [|reflexivity].
    exfalso. apply Hname. apply (bool_decide_unpack _). vm_compute. exact I.
Qed.

Lemma sidebar_navigation_witness :
  App.renderView
    (Sidebar.afterClicks
       [ {| Sidebar.id := "insights"; Sidebar.label := "Insights" |};
         {| Sidebar.id := "predict"; Sidebar.label := "Predict" |} ]
       App.initialView)
  = App.PredictPanelView.
Proof.
  destruct (sidebar_navigation
              [ {| Sidebar.id := "insights"; Sidebar.label := "Insights" |};
                {| Sidebar.id := "predict"; Sidebar.label := "Predict" |} ])
    as [[item [Hactive Hview]] _].
  - unfold Sidebar.menuItems. repeat constructor.
  - rewrite Hview. injection Hactive as <-. reflexivity.
Defined.

(** X16. The dashboard once [loadDashboardData] has run, whatever the
    state before and whether the health check resolved or was rejected:
    the spinner is gone, the badge tells the outcome (never
    [Checking...]), the churn-rate card reads [Low risk] in the red of a
    downward trend, the total in the pie is the Total Customers metric,
    and no chart divides by zero.  After a rejected check the three
    charts are [No data available] placeholders and divide nothing. *)
Theorem dashboard_after_load
    {A : Type} (healthCheck : Outcome A) (st : Dashboard.State)
    (numberToString toLocaleString : number -> string)
    (toFixed : number -> nat -> string) (Math_cos Math_sin : number -> number) :
  let st' := Dashboard.loadDashboardData healthCheck st in
  exists cards pie bar line,
    Dashboard.render numberToString toLocaleString toFixed Math_cos Math_sin st'
    = Dashboard.Overview
        (match healthCheck with
         | Resolved _ => "API Connected"
         | Rejected _ => "API Disconnected"
         end) cards pie bar line
    /\ MetricCard.caption <$> cards !! 1%nat
       = Some (Some ("text-red-600 dark:text-red-400", "Low risk"))
    /\ Pie.sum (Dashboard.churnData (Dashboard.data st'))
       = Dashboard.totalCustomers (Dashboard.data st')
    /\ Forall (fun d => is_zero d = false) (snd pie ++ snd bar ++ snd line)
    /\ (forall err, healthCheck = Rejected err ->
          pie = (Pie.PieNoData "No data available", [])
          /\ bar = (Charts.BarNoData "No data available", [])
          /\ line = (Charts.LineNoData "No data available", [])).
Proof.
  intros st'. subst st'. unfold Dashboard.render.
  destruct healthCheck as [response|err];
    cbn [Dashboard.loadDashboardData Dashboard.setLoading Dashboard.setData
         Dashboard.setApiStatus Dashboard.loading Dashboard.data
         Dashboard.apiStatus Dashboard.badge];
    eexists _, _, _, _; (split; [reflexivity|]);
    (split; [vm_compute; reflexivity|]);
    (split; [vm_compute; reflexivity|]);
    (split;
     [rewrite !Forall_app; repeat split;
      [apply PieChart_no_zero_divisor
      |apply BarChart_no_zero_divisor
      |apply LineChart_no_zero_divisor]|]).
  - intros err H. discriminate H.
  - intros _ _. repeat split.
Qed.

(** X17. With a Gemini key, the fields of the model's JSON answer win
    over the quick parse, which fills in only the keys the answer lacks;
    numeric fields given as strings are converted either way.  When the
    call fails or the answer does not parse, the result is exactly the
    key-less one: the quick parse is never lost. *)
Theorem gemini_answer_merges_over_quick_parse
    (Number : string -> number)
    (JSON_parse : string -> option (gmap string JsValue))
    (generateContent : string -> option string) (key text : string) :
  key <> "" ->
  let answer :=
    match generateContent text with
    | Some raw => Extraction.safeParseJson JSON_parse (trim raw)
    | None => ∅
    end in
  let withKey :=
    Extraction.extractPredictionRequest Number JSON_parse generateContent
      (Some key) text in
  let withoutKey :=
    Extraction.extractPredictionRequest Number JSON_parse generateContent
      None text in
  (forall k v, answer !! k = Some v ->
     withKey !! k
     = Some (if decide (k ∈ Extraction.numericFields)
             then Extraction.toNum Number v else v))
  /\ (forall k, answer !! k = None -> withKey !! k = withoutKey !! k)
  /\ (generateContent text = None -> withKey = withoutKey)
  /\ (forall raw, generateContent text = Some raw ->
        JSON_parse (Extraction.extractJsonBlock (trim raw)) = None ->
        withKey = withoutKey).
Proof.
  intros Hkey answer withKey withoutKey.
  assert (Hwith : withKey
                  = Extraction.coerceTypes Number (answer ∪ Extraction.quickParse text)).
  { subst withKey answer. unfold Extraction.extractPredictionRequest.
    cbn [default from_option id]. cbv zeta.
    apply String.eqb_neq in Hkey. rewrite Hkey. cbn [negb].
    destruct (generateContent text); [reflexivity|].
    rewrite (left_id_L ∅ (∪)). reflexivity. }
  assert (Hwithout : withoutKey
                     = Extraction.coerceTypes Number (Extraction.quickParse text)).
  { reflexivity. }
  assert (Hnone : forall k, answer !! k = None -> withKey !! k = withoutKey !! k).
  { intros k Hk. rewrite Hwith, Hwithout, !coerceTypes_lookup, lookup_union, Hk.
    destruct (Extraction.quickParse text !! k); reflexivity. }
  assert (Hempty : answer = ∅ -> withKey = withoutKey).
  { intros He. apply map_eq. intros k. apply Hnone. rewrite He. apply lookup_empty. }
  split; [|split; [exact Hnone|split]].
  - intros k v Hk. rewrite Hwith, coerceTypes_lookup, lookup_union, Hk.
    destruct (Extraction.quickParse text !! k);
      destruct (decide (k ∈ Extraction.numericFields)); reflexivity.
  - intros Hg. apply Hempty. subst answer. rewrite Hg. reflexivity.
  - intros raw Hg Hp. apply Hempty. subst answer. rewrite Hg.
    unfold Extraction.safeParseJson. rewrite Hp. reflexivity.
Qed.

Lemma gemini_answer_merges_over_quick_parse_witness :
  Extraction.extractPredictionRequest (fun _ => of_Z 41) (fun _ => None)
    (fun _ => Some "sorry, no JSON") (Some "key") "age: 35"
  = Extraction.extractPredictionRequest (fun _ => of_Z 41) (fun _ => None)
      (fun _ => Some "sorry, no JSON") None "age: 35".
Proof.
  destruct (gemini_answer_merges_over_quick_parse (fun _ => of_Z 41)
              (fun _ => None) (fun _ => Some "sorry, no JSON") "key" "age: 35")
    as (_ & _ & _ & H).
  - discriminate.
  - apply (H "sorry, no JSON"); reflexivity.
Defined.

(** ** UploadPanel: the simulated import *)
Section SimulatedImport.
Import UploadPanel.

Lemma lt_le (a b : number) : lt a b = true -> le a b = true.
Proof.
  unfold lt, le, SFltb, SFleb.
  destruct (SFcompare a b) as [[ | | ]|]; congruence.
Qed.

(** A well-formed number in [0, 1] is [-0] or at most 1 in the sense of
    [at_most]. *)
Lemma unit_at_most (r : number) :
  valid r = true -> le (of_Z 0) r = true -> le r (of_Z 1) = true ->
  r = S754_zero true \/ at_most 1 r.
Proof.
  change (of_Z 1) with PredictPanel.c1. rewrite c1_bits. intros Hv H0 H1.
  destruct r as [s|s| |s m e].
  - destruct s; [left|right; left]; reflexivity.
  - destruct s; [discriminate H0|discriminate H1].
  - discriminate H0.
  - destruct s; [discriminate H0|]. right. right. exists m, e.
    split; [reflexivity|].
    unfold valid, valid_binary, bounded, canonical_mantissa in Hv.
    apply andb_true_iff in Hv as [Hc _]. apply Z.eqb_eq in Hc.
    rewrite fexp_eq in Hc.
    pose proof (Zdigits2_gt m) as Hd. cbn [Zdigits2] in Hd.
    unfold le, SFleb in H1. cbn [SFcompare] in H1.
    destruct (Z.compare_spec e (-52)) as [He|He|He]; [| |discriminate H1].
    + subst e. split; [lia|]. change (2 ^ (- -52)) with 4503599627370496.
      rewrite Pos.compare_cont_spec in H1. cbn [Pos.switch_Eq] in H1.
      rewrite Pos2Z.inj_compare in H1.
      destruct (Z.compare_spec (Z.pos m) (Z.pos 4503599627370496)) as [Hc'|Hc'|Hc'];
        [lia|lia|discriminate H1].
    + split; [lia|].
      assert (2 ^ Z.pos (digits2_pos m) <= 2 ^ (- e))
        by (apply Z.pow_le_mono_r; lia).
      lia.
Qed.

(** The canonical exponent of a value at most [2^20] is negative. *)
Lemma small_exponent_wide (m e : Z) :
  0 <= m -> e < 0 -> m <= 2 ^ 20 * 2 ^ (- e) ->
  Z.max e (fexp prec emax (Zdigits2 m + e)) < 0.
Proof.
  intros Hm He Hle.
  assert (Hd : Zdigits2 m <= 21 - e).
  { apply Zdigits2_le; [exact Hm|lia|].
    replace (21 - e) with (21 + - e) by lia. rewrite Z.pow_add_r by lia.
    pose proof (pow2_pos (- e)).
    change (2 ^ 21) with (2 * 2 ^ 20). lia. }
  rewrite fexp_eq. lia.
Qed.

Lemma round_aux_at_most_wide (M : positive) (E B : Z) :
  E < 0 -> 0 <= B <= 2 ^ 20 -> Z.pos M <= B * 2 ^ (- E) ->
  at_most B (binary_round_aux prec emax false (Z.pos M) E loc_Exact).
Proof.
  intros HE HB HM. unfold binary_round_aux.
  pose proof (pow2_pos (- E)) as HpE.
  destruct (shr_fexp_exact (Z.pos M) E) as [mrs1 [E1 S1]]; [lia|].
  rewrite E1. cbv beta iota.
  set (e1 := Z.max E (fexp prec emax (Zdigits2 (Z.pos M) + E))) in *.
  assert (He1 : e1 < 0) by (apply small_exponent_wide; nia).
  assert (HEe1 : E <= e1) by (subst e1; lia).
  pose proof (pow2_pos (- e1)) as Hpe1.
  pose proof (pow2_pos (e1 - E)) as Hpd1.
  set (r := round_nearest_even (shr_m mrs1) (loc_of_shr_record mrs1)).
  assert (Hr : 0 <= r <= B * 2 ^ (- e1)).
  { apply (round_shifted_le (Z.pos M) (e1 - E) (B * 2 ^ (- e1)) mrs1);
      [lia|lia|exact S1|].
    rewrite <- Z.mul_assoc, <- pow2_split by lia. exact HM. }
  destruct (shr_fexp_exact r e1) as [mrs2 [E2 [Hm2 _]]]; [lia|].
  rewrite E2. cbv beta iota.
  set (e2 := Z.max e1 (fexp prec emax (Zdigits2 r + e1))) in *.
  assert (He2 : e2 < 0) by (apply small_exponent_wide; nia).
  assert (He12 : e1 <= e2) by (subst e2; lia).
  pose proof (pow2_pos (- e2)) as Hpe2.
  pose proof (pow2_pos (e2 - e1)) as Hpd2.
  assert (Hq : 0 <= shr_m mrs2 <= B * 2 ^ (- e2)).
  { rewrite Hm2. split; [apply Z.div_pos; lia|].
    apply Z.div_le_upper_bound; [lia|].
    rewrite (pow2_split e1 e2) in Hr by lia. lia. }
  destruct (shr_m mrs2) as [|m2|m2]; [left; reflexivity| |lia].
  replace (e2 <=? emax - prec) with true
    by (symmetry; apply Z.leb_le; change (emax - prec) with 971; lia).
  right. exists m2, e2. split; [reflexivity|]. split; [exact He2|lia].
Qed.

Lemma c1000_bits : of_Z 1000 = S754_finite false 8796093022208000 (-43).
Proof. vm_compute. reflexivity. Qed.

(** [x * 1000] is in [0, 1000] when [x] is in [0, 1]. *)
Lemma mul_1000_at_most (x : number) :
  at_most 1 x -> at_most 1000 (mul x (of_Z 1000)).
Proof.
  rewrite c1000_bits. intros [->|[m [e [-> [He Hm]]]]]; [left; reflexivity|].
  unfold mul, SFmul. cbn [xorb]. apply round_aux_at_most_wide; [lia| |].
  { change (2 ^ 20) with 1048576. lia. }
  rewrite Pos2Z.inj_mul.
  rewrite (pow2_split (e + -43) e) by lia.
  replace (e - (e + -43)) with 43 by lia.
  change (Z.pos 8796093022208000) with (1000 * 2 ^ 43).
  pose proof (pow2_pos (- e)). nia.
Qed.

(** [Math.floor] of a number in [0, B] is an integer in [0, B]. *)
Lemma Math_floor_at_most (B : Z) (x : number) :
  0 <= B -> at_most B x ->
  exists n, 0 <= n <= B /\ Math_floor x = of_Z n.
Proof.
  intros HB [->|[m [e [-> [He Hm]]]]].
  - exists 0. split; [lia|reflexivity].
  - unfold Math_floor. replace (0 <=? e) with false by (symmetry; apply Z.leb_gt, He).
    cbn [cond_Zopp].
    set (q := Z.pos m / 2 ^ (- e)).
    pose proof (pow2_pos (- e)) as Hp.
    assert (Hq : 0 <= q <= B).
    { subst q. split; [apply Z.div_pos; lia|].
      apply Z.div_le_upper_bound; lia. }
    exists q. split; [exact Hq|].
    destruct (q =? 0) eqn:E0; [|reflexivity].
    apply Z.eqb_eq in E0. rewrite E0. reflexivity.
Qed.

Lemma statsFrom_plausible (n : Z) :
  0 <= n <= 1000 -> plausible (statsFrom n) = true.
Proof.
  intros Hn.
  assert (Hall : forallb (fun k => plausible (statsFrom (Z.of_nat k)))
                   (seq 0 1001) = true) by (vm_compute; reflexivity).
  rewrite forallb_forall in Hall.
  specialize (Hall (Z.to_nat n)). rewrite Z2Nat.id in Hall by lia.
  apply Hall. apply in_seq. lia.
Qed.

Lemma simulate_statsFrom (random : number) :
  valid random = true ->
  le (of_Z 0) random = true -> lt random (of_Z 1) = true ->
  exists n, 0 <= n <= 1000 /\ simulate random = statsFrom n.
Proof.
  intros Hv H0 H1.
  destruct (unit_at_most random Hv H0 (lt_le _ _ H1)) as [->|Hr].
  - exists 0. split; [lia|]. vm_compute. reflexivity.
  - destruct (Math_floor_at_most 1000 _ ltac:(lia) (mul_1000_at_most _ Hr))
      as [n [Hn Hf]].
    exists n. split; [exact Hn|]. unfold simulate, statsFrom. rewrite Hf.
    reflexivity.
Qed.

End SimulatedImport.

(** X18. The simulated import always reports errors.  For every value
    [Math.random()] can return (a number in [0, 1)) and every state the
    timer finds, also one reset in the meantime, the callback sets the
    status to success with a total between 500 and 1500, between 25 and
    75 errors, and imported + errors = total; the message is the one
    with errors, so the [Successfully imported] branch is never taken,
    and the progress bar divides by a total that is not zero. *)
Theorem simulated_import_always_reports_errors
    (numberToString : number -> string) (random : number)
    (st : UploadPanel.State) :
  valid random = true ->
  le (of_Z 0) random = true -> lt random (of_Z 1) = true ->
  let st' := UploadPanel.onTimeout numberToString random st in
  let s := UploadPanel.stats st' in
  UploadPanel.status st' = UploadPanel.success
  /\ UploadPanel.status
       (UploadPanel.onTimeout numberToString random (UploadPanel.resetUpload st))
     = UploadPanel.success
  /\ le (of_Z 500) (UploadPanel.total s) = true
  /\ le (UploadPanel.total s) (of_Z 1500) = true
  /\ le (of_Z 25) (UploadPanel.errors s) = true
  /\ le (UploadPanel.errors s) (of_Z 75) = true
  /\ eq (add (UploadPanel.imported s) (UploadPanel.errors s)) (UploadPanel.total s)
     = true
  /\ UploadPanel.message st'
     = "Imported " +:+ numberToString (UploadPanel.imported s)
         +:+ " records with " +:+ numberToString (UploadPanel.errors s)
         +:+ " errors"
  /\ snd (UploadPanel.barWidth s) = [UploadPanel.total s]
  /\ is_zero (UploadPanel.total s) = false.
Proof.
  intros Hv H0 H1 st' s.
  destruct (simulate_statsFrom random Hv H0 H1) as [n [Hn Hs]].
  pose proof (statsFrom_plausible n Hn) as Hp.
  unfold UploadPanel.plausible in Hp.
  repeat (apply andb_true_iff in Hp as [Hp ?]).
  assert (Hne : eq (UploadPanel.errors (UploadPanel.statsFrom n)) (of_Z 0) = false)
    by (apply negb_true_iff; assumption).
  assert (Hst : forall st0,
             UploadPanel.onTimeout numberToString random st0
             = UploadPanel.setMessage
                 ("Imported "
                    +:+ numberToString (UploadPanel.imported (UploadPanel.statsFrom n))
                    +:+ " records with "
                    +:+ numberToString (UploadPanel.errors (UploadPanel.statsFrom n))
                    +:+ " errors")
                 (UploadPanel.setStatus UploadPanel.success
                    (UploadPanel.setStats (UploadPanel.statsFrom n) st0))).
  { intros st0. unfold UploadPanel.onTimeout. rewrite Hs. cbv zeta.
    rewrite Hne. reflexivity. }
  subst s st'. rewrite !Hst.
  cbn [UploadPanel.setMessage UploadPanel.setStatus UploadPanel.setStats
       UploadPanel.status UploadPanel.stats UploadPanel.message].
  repeat (split; [first [reflexivity|assumption]|]).
  split.
  - unfold UploadPanel.barWidth.
    replace (gt (UploadPanel.total (UploadPanel.statsFrom n)) (of_Z 0)) with true
      by (symmetry; assumption).
    reflexivity.
  - apply gt_zero_not_zero. assumption.
Qed.

Lemma simulated_import_always_reports_errors_witness :
  UploadPanel.message
    (UploadPanel.onTimeout (fun _ => "n") (decimal 5 10) UploadPanel.initialState)
  = "Imported n records with n errors".
Proof.
  apply (simulated_import_always_reports_errors (fun _ => "n") (decimal 5 10)
           UploadPanel.initialState); vm_compute; reflexivity.
Defined.

(** ** LineChart and BarChart on any data *)
Section ChartMarks.
Import Charts.

Lemma map_imap {A B C} (g : B -> C) (f : nat -> A -> B) (h : A -> C)
    (l : list A) :
  (forall i x, g (f i x) = h x) -> map g (imap f l) = map h l.
Proof.
  revert f. induction l as [|a l IH]; intros f H; [reflexivity|].
  cbn [imap map]. rewrite H. f_equal. apply IH. intros i x. apply H.
Qed.

Lemma Forall_imap {A B} (P : B -> Prop) (f : nat -> A -> B) (l : list A) :
  (forall i x, P (f i x)) -> Forall P (imap f l).
Proof.
  revert f. induction l as [|a l IH]; intros f H; [constructor|].
  cbn [imap]. constructor; [apply H|]. apply IH. intros i x. apply H.
Qed.

Lemma max_step_None (values : list number) :
  fold_left max_step values None = None.
Proof. induction values as [|v values IH]; [reflexivity|exact IH]. Qed.

(** [Math.max] of arguments one of which is NaN is NaN. *)
Lemma Math_max_nan (values : list number) :
  Exists (fun v => is_nan v = true) values -> Math_max values = S754_nan.
Proof.
  unfold Math_max. generalize (Some (S754_infinity true)) as highest.
  induction values as [|v values IH]; intros highest H.
  - inversion H.
  - cbn [fold_left]. apply Exists_cons in H as [Hv|H].
    + destruct highest as [h|]; cbn [max_step]; [rewrite Hv|];
        rewrite max_step_None; reflexivity.
    + apply IH, H.
Qed.

Lemma mul_nan_r (x : number) : mul x S754_nan = S754_nan.
Proof. destruct x; reflexivity. Qed.

Lemma sub_nan_r (x : number) : sub x S754_nan = S754_nan.
Proof. destruct x; reflexivity. Qed.

Lemma div_nan_r (x : number) : div x S754_nan = S754_nan.
Proof. destruct x; reflexivity. Qed.

End ChartMarks.

(** X19. The line chart draws every item: for a non-empty list there is
    one point per item, in order, carrying the item's value, and one axis
    label per item with the item's label.  One NaN value is enough to
    lose the whole line: the maximum is then NaN and so is the height of
    every point. *)
Theorem line_chart_draws_every_item
    (numberToString : number -> string) (data : list Charts.LineItem) :
  data <> [] ->
  exists pathData areaData points labels,
    fst (Charts.LineChart numberToString data)
    = Charts.LineSvg pathData areaData points labels
    /\ map Charts.pvalue points = map Charts.value data
    /\ map snd labels = map Charts.label data
    /\ (Exists (fun item => is_nan (Charts.value item) = true) data ->
        Forall (fun point => Charts.y point = S754_nan) points).
Proof.
  intros Hne. destruct data as [|d data]; [contradiction|].
  set (items := d :: data). unfold Charts.LineChart.
  cbn [length Nat.eqb]. cbv zeta. unfold Charts.bind, Charts.divide, Charts.ret.
  cbn [fst]. eexists _, _, _, _. split; [reflexivity|].
  split; [apply map_imap; reflexivity|].
  split; [apply map_imap; reflexivity|].
  intros Hnan. apply Forall_imap. intros i item. cbn [Charts.y].
  rewrite Math_max_nan.
  - rewrite div_nan_r, mul_nan_r, sub_nan_r. reflexivity.
  - apply Exists_app. left.
    change (Exists (fun v => is_nan v = true) (Charts.value <$> items)).
    apply Exists_fmap. exact Hnan.
Qed.

Lemma line_chart_draws_every_item_witness :
  exists pathData areaData points labels,
    fst (Charts.LineChart Samples.noString
           [ {| Charts.label := "a"; Charts.value := of_Z 3 |} ])
    = Charts.LineSvg pathData areaData points labels
    /\ map Charts.pvalue points = [of_Z 3].
Proof.
  destruct (line_chart_draws_every_item Samples.noString
              [ {| Charts.label := "a"; Charts.value := of_Z 3 |} ])
    as (pathData & areaData & points & labels & H & Hv & _).
  - discriminate.
  - exists pathData, areaData, points, labels. split; [exact H|exact Hv].
Defined.

(** X20. The bar chart draws every item: for a non-empty list there is
    one column per item, in order, with the item's label and the sum of
    its two counts.  When no stacked value is above zero, and as soon as
    one of them is NaN, nothing is divided and every height is the count
    times 0. *)
Theorem bar_chart_draws_every_item (data : list Charts.BarItem) :
  data <> [] ->
  exists bars,
    fst (Charts.BarChart data) = Charts.BarColumns bars
    /\ map Charts.caption bars = map Charts.blabel data
    /\ map Charts.total bars
       = map (fun item => add (Charts.churned item) (Charts.stayed item)) data
    /\ (Exists (fun item =>
                  is_nan (add (Charts.churned item) (Charts.stayed item)) = true)
          data ->
        snd (Charts.BarChart data) = []
        /\ map Charts.churnedHeight bars
           = map (fun item => mul (Charts.churned item) (of_Z 0)) data
        /\ map Charts.stayedHeight bars
           = map (fun item => mul (Charts.stayed item) (of_Z 0)) data).
Proof.
  intros Hne. destruct data as [|d data]; [contradiction|].
  set (items := d :: data). unfold Charts.BarChart.
  cbn [length Nat.eqb]. cbv zeta.
  set (maxValue := Math_max _).
  assert (Hnan : Exists (fun item =>
                           is_nan (add (Charts.churned item) (Charts.stayed item)) = true)
                   items -> maxValue = S754_nan).
  { intros H. subst maxValue. apply Math_max_nan.
    change (Exists (fun v => is_nan v = true)
              ((fun item => add (Charts.churned item) (Charts.stayed item))
                 <$> items)).
    apply Exists_fmap. exact H. }
  unfold Charts.bind. destruct (Charts.barScale maxValue) as [scale ds] eqn:Es.
  cbn [Charts.ret fst snd]. eexists. split; [reflexivity|].
  rewrite !map_map. cbn [Charts.caption Charts.total Charts.churnedHeight
                         Charts.stayedHeight].
  split; [reflexivity|]. split; [reflexivity|].
  intros H. rewrite (Hnan H) in Es. injection Es as <- <-.
  repeat split.
Qed.

Lemma bar_chart_draws_every_item_witness :
  exists bars,
    fst (Charts.BarChart
           [ {| Charts.blabel := "0-12"; Charts.churned := of_Z 45;
                Charts.stayed := of_Z 120 |} ])
    = Charts.BarColumns bars
    /\ map Charts.caption bars = ["0-12"].
Proof.
  destruct (bar_chart_draws_every_item
              [ {| Charts.blabel := "0-12"; Charts.churned := of_Z 45;
                   Charts.stayed := of_Z 120 |} ])
    as (bars & H & Hc & _).
  - discriminate.
  - exists bars. split; [exact H|exact Hc].
Defined.

(** ** A request spelt out in the chat *)
Section SpeltOut.
Import Extraction Spelling.

Lemma matchLabel_Some (label s rest : string) :
  matchLabel label s = Some rest ->
  exists label', s = label' +:+ rest /\ toUpperCase label' = toUpperCase label.
Proof.
  revert s. induction label as [|l label IH]; intros s H.
  - injection H as <-. exists "". split; reflexivity.
  - destruct s as [|t s]; [discriminate H|]. cbn [matchLabel] in H.
    destruct (sameLetter t l) eqn:E; [|discriminate H].
    apply Ascii.eqb_eq in E. destruct (IH s H) as [label' [-> Hup]].
    exists (String t label'). split; [reflexivity|].
    unfold toUpperCase in *. cbn [mapString]. rewrite E, Hup. reflexivity.
Qed.

Lemma matchHere_Some (p : ascii -> bool) (label s capture : string) :
  matchHere p label s = Some capture ->
  exists label' c rest,
    s = label' +:+ String c rest
    /\ toUpperCase label' = toUpperCase label
    /\ isSeparator c = true.
Proof.
  unfold matchHere. intros H.
  destruct (matchLabel label s) as [[|c rest]|] eqn:E; try discriminate H.
  destruct (isSeparator c) eqn:Ec; [|discriminate H].
  destruct (matchLabel_Some _ _ _ E) as [label' [-> Hup]].
  exists label', c, rest. auto.
Qed.

Lemma notWhiteSpace_upperChar (c : ascii) :
  notWhiteSpace (upperChar c) = notWhiteSpace c.
Proof. destruct c as [[|] [|] [|] [|] [|] [|] [|] [|]]; vm_compute; reflexivity. Qed.

Lemma allChars_upper_ws (s : string) :
  allChars notWhiteSpace (toUpperCase s) = allChars notWhiteSpace s.
Proof.
  unfold toUpperCase. induction s as [|c s IH]; [reflexivity|].
  cbn [mapString allChars]. rewrite IH, notWhiteSpace_upperChar. reflexivity.
Qed.

(** Two strings that are equal up to letter case are in the same
    classes of characters that ignore case. *)
Lemma same_label_classes (label label' : string) :
  toUpperCase label' = toUpperCase label ->
  allChars notSeparator label' = allChars notSeparator label
  /\ allChars notWhiteSpace label' = allChars notWhiteSpace label.
Proof.
  intros H. split.
  - rewrite <- (allChars_upper label'), <- (allChars_upper label), H. reflexivity.
  - rewrite <- (allChars_upper_ws label'), <- (allChars_upper_ws label), H.
    reflexivity.
Qed.

Lemma append_split (s1 t1 s2 t2 : string) :
  s1 +:+ t1 = s2 +:+ t2 ->
  (exists m, s2 = s1 +:+ m /\ t1 = m +:+ t2)
  \/ (exists m, s1 = s2 +:+ m /\ t2 = m +:+ t1).
Proof.
  revert s2. induction s1 as [|a s1 IH]; intros s2 H.
  - left. exists s2. split; [reflexivity|exact H].
  - destruct s2 as [|b s2].
    + right. exists (String a s1). split; [reflexivity|]. symmetry. exact H.
    + rewrite !append_cons in H. injection H as <- H.
      destruct (IH s2 H) as [[m [-> ->]]|[m [-> ->]]].
      * left. exists m. split; reflexivity.
      * right. exists m. split; reflexivity.
Qed.

(** The text in front of the first separator is determined. *)
Lemma first_separator (a b x y : string) (c d : ascii) :
  a +:+ String c x = b +:+ String d y ->
  allChars notSeparator a = true -> allChars notSeparator b = true ->
  isSeparator c = true -> isSeparator d = true ->
  a = b.
Proof.
  revert b. induction a as [|a0 a IH]; intros b H Ha Hb Hc Hd.
  - destruct b as [|b0 b]; [reflexivity|].
    change ("" +:+ String c x) with (String c x) in H.
    rewrite append_cons in H. injection H as <- _.
    cbn [allChars] in Hb. unfold notSeparator in Hb. rewrite Hc in Hb.
    discriminate Hb.
  - destruct b as [|b0 b].
    + change ("" +:+ String d y) with (String d y) in H.
      rewrite append_cons in H. injection H as -> _.
      cbn [allChars] in Ha. unfold notSeparator in Ha. rewrite Hd in Ha.
      discriminate Ha.
    + rewrite !append_cons in H. injection H as <- H.
      cbn [allChars] in Ha, Hb.
      apply andb_true_iff in Ha as [_ Ha]. apply andb_true_iff in Hb as [_ Hb].
      f_equal. apply (IH b H Ha Hb Hc Hd).
Qed.

Lemma exec_skip_when (p : ascii -> bool) (label pre tail : string) :
  (forall s1 s2, pre = s1 +:+ s2 -> s2 <> "" ->
     matchHere p label (s2 +:+ tail) = None) ->
  exec p label (pre +:+ tail) = exec p label tail.
Proof.
  induction pre as [|a pre IH]; intros H; [reflexivity|].
  rewrite append_cons. cbn [exec]. rewrite <- append_cons.
  rewrite (H "" (String a pre) eq_refl) by discriminate.
  apply IH. intros s1 s2 -> Hne. apply (H (String a s1) s2); [reflexivity|exact Hne].
Qed.

Lemma noSuffixIs_app (label s1 s2 : string) :
  noSuffixIs label (s1 +:+ s2) = true -> noSuffixIs label s2 = true.
Proof.
  induction s1 as [|a s1 IH]; intros H; [exact H|].
  rewrite append_cons in H. cbn [noSuffixIs] in H.
  apply andb_true_iff in H as [_ H]. apply IH, H.
Qed.

Lemma noSuffixIs_here (label other : string) :
  noSuffixIs label other = true -> toUpperCase other <> toUpperCase label.
Proof.
  intros H. destruct other; cbn [noSuffixIs] in H;
    apply andb_true_iff in H as [H _]; apply negb_true_iff in H;
    apply String.eqb_neq in H; exact H.
Qed.

Lemma exec_skip_label (p : ascii -> bool) (label other tail : string) (sep : ascii) :
  allChars notSeparator label = true ->
  allChars notSeparator other = true ->
  noSuffixIs label other = true ->
  isSeparator sep = true ->
  exec p label (other +:+ String sep tail) = exec p label (String sep tail).
Proof.
  intros Hl Ho Hno Hsep. apply exec_skip_when. intros s1 s2 -> Hne.
  destruct (matchHere p label (s2 +:+ String sep tail)) as [capture|] eqn:E;
    [exfalso|reflexivity].
  destruct (matchHere_Some _ _ _ _ E) as (label' & c & rest & Heq & Hup & Hc).
  rewrite allChars_app in Ho. apply andb_true_iff in Ho as [_ Ho].
  destruct (same_label_classes _ _ Hup) as [Hcl _]. rewrite Hl in Hcl.
  pose proof (first_separator _ _ _ _ _ _ Heq Ho Hcl Hsep Hc) as <-.
  apply noSuffixIs_app, noSuffixIs_here in Hno. contradiction.
Qed.

Lemma exec_skip_separator (p : ascii -> bool) (label tail : string) (sep : ascii) :
  allChars notSeparator label = true -> label <> "" ->
  isSeparator sep = true ->
  exec p label (String sep tail) = exec p label tail.
Proof.
  intros Hl Hne Hsep. cbn [exec].
  destruct (matchHere p label (String sep tail)) as [capture|] eqn:E;
    [exfalso|reflexivity].
  destruct (matchHere_Some _ _ _ _ E) as (label' & c & rest & Heq & Hup & Hc).
  destruct (same_label_classes _ _ Hup) as [Hcl _]. rewrite Hl in Hcl.
  destruct label' as [|l label'].
  - destruct label; [contradiction|discriminate Hup].
  - rewrite append_cons in Heq. injection Heq as <- _.
    cbn [allChars] in Hcl. unfold notSeparator in Hcl. rewrite Hsep in Hcl.
    discriminate Hcl.
Qed.

Lemma suffix_of_spaced (g s1 s2 : string) :
  g +:+ " " = s1 +:+ s2 -> s2 <> "" ->
  exists s2', s2 = s2' +:+ " " /\ exists g1, g = g1 +:+ s2'.
Proof.
  intros H Hne. destruct (append_split _ _ _ _ H) as [[m [-> Hm]]|[m [-> Hm]]].
  - destruct m as [|c m].
    + exists "". split; [symmetry; exact Hm|]. exists g.
      rewrite append_empty_r. reflexivity.
    + rewrite append_cons in Hm. injection Hm as _ Hm.
      destruct m; [|discriminate Hm].
      change ("" +:+ s2) with s2 in Hm. congruence.
  - exists m. split; [exact Hm|]. exists s1. reflexivity.
Qed.

Lemma exec_skip_spaced (p : ascii -> bool) (label g tail : string) :
  allChars notSeparator label = true ->
  allChars notWhiteSpace label = true ->
  allChars notSeparator g = true ->
  exec p label ((g +:+ " ") +:+ tail) = exec p label tail.
Proof.
  intros Hl Hw Hg. apply exec_skip_when. intros s1 s2 Heq Hne.
  destruct (suffix_of_spaced _ _ _ Heq Hne) as [s2' [-> [g1 ->]]].
  rewrite allChars_app in Hg. apply andb_true_iff in Hg as [_ Hg].
  destruct (matchHere p label ((s2' +:+ " ") +:+ tail)) as [capture|] eqn:E;
    [exfalso|reflexivity].
  destruct (matchHere_Some _ _ _ _ E) as (label' & c & rest & Hsplit & Hup & Hc).
  destruct (same_label_classes _ _ Hup) as [Hcl Hcw].
  rewrite Hl in Hcl. rewrite Hw in Hcw.
  destruct (append_split _ _ _ _ Hsplit) as [[m [-> Hm]]|[m [Hm Hrest]]].
  - rewrite !allChars_app in Hcw. cbn [allChars] in Hcw.
    rewrite andb_true_iff in Hcw. destruct Hcw as [Hcw _].
    rewrite andb_true_iff in Hcw. destruct Hcw as [_ Hcw]. discriminate Hcw.
  - destruct m as [|c' m].
    + rewrite append_empty_r in Hm. subst label'.
      rewrite allChars_app in Hcw. cbn [allChars] in Hcw.
      rewrite andb_true_iff in Hcw. destruct Hcw as [_ Hcw]. discriminate Hcw.
    + rewrite append_cons in Hrest. injection Hrest as <- _.
      assert (Hs : allChars notSeparator (s2' +:+ " ") = true)
        by (rewrite allChars_app, Hg; reflexivity).
      rewrite Hm, allChars_app in Hs. cbn [allChars] in Hs.
      unfold notSeparator at 2 in Hs. rewrite Hc in Hs.
      rewrite andb_true_iff in Hs. destruct Hs as [_ Hs]. discriminate Hs.
Qed.

End SpeltOut.

Section SpeltOutFields.
Import Extraction Spelling.

Lemma spell_then (field : string * string) (rest : string) :
  spell field +:+ rest = field.1 +:+ String ":" (" " +:+ field.2 +:+ rest).
Proof.
  unfold spell. rewrite append_assoc.
  change (": " +:+ field.2) with (String ":" (" " +:+ field.2)).
  rewrite append_cons, append_assoc. reflexivity.
Qed.

Lemma spellOut_cons (field next : string * string) (rest : list (string * string)) :
  spellOut (field :: next :: rest)
  = spell field +:+ ", " +:+ spellOut (next :: rest).
Proof. reflexivity. Qed.

Lemma exec_spellOut (p : ascii -> bool) (label : string)
    (fields : list (string * string)) :
  allChars notSeparator label = true ->
  allChars notWhiteSpace label = true ->
  label <> "" ->
  p ","%char = false ->
  Forall (readable p label) fields ->
  exec p label (spellOut fields)
  = snd <$> List.find (fun field => String.eqb field.1 label) fields.
Proof.
  intros Hl Hw Hne Hcomma Hall.
  induction fields as [|field rest IH].
  - cbn. unfold matchHere. destruct label; [contradiction|reflexivity].
  - apply Forall_cons in Hall as [(Hf1 & Hf2 & Hf) Hall].
    specialize (IH Hall). cbn [List.find].
    destruct (String.eqb field.1 label) eqn:E.
    + apply String.eqb_eq in E. destruct Hf as (Hv & Hs & Hp).
      cbn [fmap option_fmap option_map].
      assert (Hshape : exists tail, spellOut (field :: rest) = spell field +:+ tail
                                    /\ startsWith p tail = false).
      { destruct rest as [|next rest].
        - exists "". split; [|reflexivity].
          change (spellOut [field]) with (spell field).
          rewrite append_empty_r. reflexivity.
        - exists (", " +:+ spellOut (next :: rest)). split; [apply spellOut_cons|].
          exact Hcomma. }
      destruct Hshape as [tail [-> Htail]]. rewrite spell_then, E.
      apply (exec_found p label label "" " " field.2 tail ":");
        try assumption; reflexivity.
    + assert (Hno : noSuffixIs label field.1 = true) by exact Hf.
      destruct rest as [|next rest].
      * change (spellOut [field]) with (spell field).
        rewrite <- (append_empty_r (spell field)), spell_then.
        rewrite exec_skip_label by (assumption || reflexivity).
        rewrite exec_skip_separator by (assumption || reflexivity).
        apply exec_no_separator.
        rewrite append_empty_r. change (" " +:+ field.2) with (String " " field.2).
        cbn [allChars]. rewrite Hf2. reflexivity.
      * rewrite spellOut_cons, spell_then.
        rewrite exec_skip_label by (assumption || reflexivity).
        rewrite exec_skip_separator by (assumption || reflexivity).
        replace (" " +:+ field.2 +:+ ", " +:+ spellOut (next :: rest))
          with (((" " +:+ field.2 +:+ ",") +:+ " ") +:+ spellOut (next :: rest)).
        2:{ rewrite !append_assoc. reflexivity. }
        rewrite exec_skip_spaced; [exact IH|assumption|assumption|].
        rewrite !allChars_app, Hf2. reflexivity.
Qed.

End SpeltOutFields.

Section SpeltOutRequest.
Import Extraction Spelling.

Lemma rev_app_append (a b acc : string) :
  String.rev_app (a +:+ b) acc = String.rev_app b (String.rev_app a acc).
Proof.
  revert acc. induction a as [|c a IH]; intros acc; [reflexivity|].
  rewrite append_cons. cbn [String.rev_app]. apply IH.
Qed.

Lemma rev_app_acc (s acc : string) :
  String.rev_app s acc = String.rev_app s "" +:+ acc.
Proof.
  revert acc. induction s as [|c s IH]; intros acc; [reflexivity|].
  cbn [String.rev_app]. rewrite (IH (String c acc)), (IH (String c "")).
  rewrite append_assoc. reflexivity.
Qed.

Lemma trimStart_snoc (w : string) (c : ascii) :
  isWhiteSpace c = false ->
  exists w', trimStart (w +:+ String c "") = w' +:+ String c "".
Proof.
  intros Hc. induction w as [|a w IH].
  - exists "". change ("" +:+ String c "") with (String c "").
    cbn [trimStart]. rewrite Hc. reflexivity.
  - rewrite append_cons. cbn [trimStart]. destruct (isWhiteSpace a); [exact IH|].
    exists (String a w). reflexivity.
Qed.

(** Trimming keeps a first character that is not white space. *)
Lemma trim_cons (c : ascii) (s : string) :
  isWhiteSpace c = false -> exists u, trim (String c s) = String c u.
Proof.
  intros Hc. unfold trim. cbn [trimStart]. rewrite Hc.
  unfold trimEnd, String.rev. cbn [String.rev_app].
  rewrite (rev_app_acc s (String c "")).
  destruct (trimStart_snoc (String.rev_app s "") c Hc) as [w' ->].
  rewrite rev_app_append. cbn [String.rev_app].
  exists (String.rev_app w' ""). reflexivity.
Qed.

Lemma allChars_impl (p q : ascii -> bool) (s : string) :
  (forall c, p c = true -> q c = true) ->
  allChars p s = true -> allChars q s = true.
Proof.
  intros Hpq. induction s as [|c s IH]; [reflexivity|].
  cbn [allChars]. rewrite !andb_true_iff. intros [Hc Hs]. auto.
Qed.

Lemma fieldClass_cases (label : string) :
  fieldClass label = isDigit \/ fieldClass label = isDateChar
  \/ fieldClass label = isLetterOrSpace.
Proof.
  unfold fieldClass. destruct (bool_decide _); [auto|].
  destruct (String.eqb _ _); auto.
Qed.

Lemma fieldClass_not_separator (label : string) (c : ascii) :
  fieldClass label c = true -> notSeparator c = true.
Proof.
  destruct (fieldClass_cases label) as [->|[->| ->]];
    destruct c as [[|] [|] [|] [|] [|] [|] [|] [|]]; vm_compute;
    intros H; first [reflexivity|discriminate H].
Qed.

Lemma fieldClass_comma (label : string) : fieldClass label ","%char = false.
Proof. destruct (fieldClass_cases label) as [->|[->| ->]]; reflexivity. Qed.

Lemma requiredFields_shape (label : string) :
  label ∈ InsightsPanel.requiredFields ->
  allChars notSeparator label = true
  /\ allChars notWhiteSpace label = true
  /\ label <> "".
Proof.
  intros H. unfold InsightsPanel.requiredFields in H.
  repeat (apply elem_of_cons in H as [->|H];
          [repeat split; discriminate|]).
  apply elem_of_nil in H as [].
Qed.

Lemma requiredFields_no_suffix (label other : string) :
  label ∈ InsightsPanel.requiredFields ->
  other ∈ InsightsPanel.requiredFields ->
  String.eqb other label = false ->
  noSuffixIs label other = true.
Proof.
  intros Hl Ho.
  assert (Hall : forallb (fun l =>
                   forallb (fun o => String.eqb o l || noSuffixIs l o)
                     InsightsPanel.requiredFields)
                   InsightsPanel.requiredFields = true)
    by (vm_compute; reflexivity).
  rewrite forallb_forall in Hall. apply list_elem_of_In in Hl, Ho.
  specialize (Hall label Hl). rewrite forallb_forall in Hall.
  specialize (Hall other Ho). intros E. rewrite E in Hall. exact Hall.
Qed.

Lemma wellFormed_readable (label : string) (field : string * string) :
  label ∈ InsightsPanel.requiredFields ->
  wellFormedField field = true ->
  readable (fieldClass label) label field.
Proof.
  intros Hl Hf. unfold wellFormedField in Hf.
  apply andb_true_iff in Hf as [Hf Hws]. apply andb_true_iff in Hf as [Hf Hclass].
  apply andb_true_iff in Hf as [Hreq Hne].
  apply bool_decide_eq_true in Hreq.
  apply negb_true_iff in Hne, Hws. apply String.eqb_neq in Hne.
  split; [apply (requiredFields_shape _ Hreq)|].
  split; [apply (allChars_impl _ _ _ (fieldClass_not_separator field.1) Hclass)|].
  destruct (String.eqb field.1 label) eqn:E.
  - apply String.eqb_eq in E. rewrite <- E. auto.
  - apply requiredFields_no_suffix; assumption.
Qed.

Lemma exec_wellFormed (label : string) (fields : list (string * string)) :
  label ∈ InsightsPanel.requiredFields ->
  Forall (fun field => wellFormedField field = true) fields ->
  exec (fieldClass label) label (spellOut fields)
  = snd <$> List.find (fun field => String.eqb field.1 label) fields.
Proof.
  intros Hl Hall. destruct (requiredFields_shape _ Hl) as (Hs & Hw & Hne).
  apply exec_spellOut; try assumption; [apply fieldClass_comma|].
  eapply Forall_impl; [exact Hall|].
  intros field Hf. apply wellFormed_readable; assumption.
Qed.

Lemma quickParse_lookup (text k : string) :
  k ∈ InsightsPanel.requiredFields ->
  quickParse text !! k
  = Some (match exec (fieldClass k) k text with
          | Some capture => fieldValue k capture
          | None => JUndefined
          end).
Proof.
  intros Hk. unfold InsightsPanel.requiredFields in Hk.
  unfold quickParse, numberFrom, stringFrom, dateFrom, fieldClass, fieldValue.
  rewrite !list_to_map_cons.
  repeat (apply elem_of_cons in Hk as [->|Hk];
          [repeat (rewrite lookup_insert_ne by discriminate);
           rewrite lookup_insert_eq;
           match goal with
           | |- context [bool_decide (?k ∈ numericFields)] =>
               let b := eval vm_compute in (bool_decide (k ∈ numericFields)) in
               replace (bool_decide (k ∈ numericFields)) with b
                 by (vm_compute; reflexivity)
           end;
           try match goal with
               | |- context [String.eqb ?k "date_of_registration"] =>
                   let b := eval vm_compute in (String.eqb k "date_of_registration") in
                   replace (String.eqb k "date_of_registration") with b
                     by (vm_compute; reflexivity)
               end;
           reflexivity|]).
  apply elem_of_nil in Hk as [].
Qed.

Lemma fieldValue_coerced (Number : string -> number) (k capture : string) :
  (if decide (k ∈ numericFields)
   then toNum Number (fieldValue k capture) else fieldValue k capture)
  = fieldValue k capture.
Proof.
  destruct (decide (k ∈ numericFields)) as [Hk|]; [|reflexivity].
  unfold fieldValue. rewrite bool_decide_eq_true_2 by exact Hk. reflexivity.
Qed.

Lemma firstValue_present (k : string) (fields : list (string * string)) :
  Forall (fun field => wellFormedField field = true) fields ->
  k ∈ map fst fields ->
  exists c value, fieldValue k (String c value) = firstValue k fields
                  /\ isWhiteSpace c = false.
Proof.
  intros Hall Hk. unfold firstValue.
  destruct (List.find _ fields) as [field|] eqn:E.
  - apply find_some in E as [Hin _].
    rewrite Forall_forall in Hall. apply list_elem_of_In in Hin.
    specialize (Hall field Hin). unfold wellFormedField in Hall.
    apply andb_true_iff in Hall as [Hall Hws].
    apply andb_true_iff in Hall as [Hall _].
    apply andb_true_iff in Hall as [_ Hne].
    destruct field.2 as [|c value]; [discriminate Hne|].
    exists c, value. split; [reflexivity|].
    apply negb_true_iff in Hws. exact Hws.
  - exfalso. apply list_elem_of_In, in_map_iff in Hk as [field [Hf Hin]].
    pose proof (find_none _ _ E field Hin) as Hno. cbn beta in Hno.
    rewrite Hf, String.eqb_refl in Hno. discriminate Hno.
Qed.

Lemma fieldValue_not_missing (k value : string) (c : ascii) :
  isWhiteSpace c = false ->
  InsightsPanel.isMissing (fieldValue k (String c value)) = false.
Proof.
  intros Hc. unfold fieldValue.
  destruct (bool_decide _); [reflexivity|].
  destruct (String.eqb k _); cbn [InsightsPanel.isMissing].
  - destruct (trim_cons c value Hc) as [u ->]. reflexivity.
  - destruct (trim_cons c value Hc) as [u ->].
    destruct (trim_cons c u Hc) as [u' ->]. reflexivity.
Qed.

End SpeltOutRequest.

Section SpeltOutChat.
Import Extraction Spelling.

Variable toFixed : number -> nat -> string.
Variable numberToString : number -> string.
Variable Number : string -> number.
Variable JSON_parse : string -> option (gmap string JsValue).
Variable generateContent : string -> option string.
Variable predictChurn : gmap string JsValue -> Outcome PredictionResponse.
Variables nowSent dateSent nowReplied dateReplied : number.

Lemma extract_spellOut (fields : list (string * string)) (k : string) :
  Forall (fun field => wellFormedField field = true) fields ->
  k ∈ InsightsPanel.requiredFields ->
  InsightsPanel.get
    (extractPredictionRequest Number JSON_parse generateContent None
       (spellOut fields)) k
  = firstValue k fields.
Proof.
  intros Hall Hk.
  change (extractPredictionRequest Number JSON_parse generateContent None
            (spellOut fields))
    with (coerceTypes Number (quickParse (spellOut fields))).
  rewrite coerceTypes_get. unfold InsightsPanel.get.
  rewrite (quickParse_lookup _ _ Hk), (exec_wellFormed _ _ Hk Hall).
  cbn [default from_option id]. unfold firstValue.
  destruct (List.find _ fields) as [field|]; cbn [fmap option_fmap option_map].
  - apply fieldValue_coerced.
  - destruct (decide _); reflexivity.
Qed.

Lemma spellOut_complete (fields : list (string * string)) :
  Forall (fun field => wellFormedField field = true) fields ->
  (forall k, k ∈ InsightsPanel.requiredFields -> k ∈ map fst fields) ->
  InsightsPanel.missingFields
    (extractPredictionRequest Number JSON_parse generateContent None
       (spellOut fields))
  = [].
Proof.
  intros Hall Hk. apply elem_of_nil_inv. intros k Hin.
  apply missingFields_spec in Hin as [Hreq Hmiss].
  rewrite (extract_spellOut _ _ Hall Hreq) in Hmiss.
  destruct (firstValue_present k fields Hall (Hk k Hreq)) as (c & value & Hv & Hc).
  rewrite <- Hv, (fieldValue_not_missing k value c Hc) in Hmiss.
  discriminate Hmiss.
Qed.

End SpeltOutChat.

(** X21. A request spelt out in the chat is predicted.  When the
    message, once trimmed, reads [label: value, label: value, ...] with
    well-formed fields that cover the 12 required labels, in any order,
    then without a Gemini key the quick parse gives every required field
    the value of the first field so named (a number for the numeric
    labels, the text trimmed for the others), nothing is missing, the
    prediction API is called exactly once, with that request, and the
    reply is the formatted prediction, or the error text when the call
    is rejected. *)
Theorem spelt_out_request_is_predicted
    (toFixed : number -> nat -> string) (numberToString : number -> string)
    (Number : string -> number)
    (JSON_parse : string -> option (gmap string JsValue))
    (generateContent : string -> option string)
    (predictChurn : gmap string JsValue -> Outcome PredictionResponse)
    (nowSent dateSent nowReplied dateReplied : number)
    (fields : list (string * string)) (st : InsightsPanel.State) :
  Forall (fun field => Spelling.wellFormedField field = true) fields ->
  (forall k, k ∈ InsightsPanel.requiredFields -> k ∈ map fst fields) ->
  trim (InsightsPanel.input st) = Spelling.spellOut fields ->
  InsightsPanel.loading st = false ->
  let req :=
    Extraction.extractPredictionRequest Number JSON_parse generateContent None
      (Spelling.spellOut fields) in
  let out :=
    InsightsPanel.handleSend toFixed numberToString
      (Extraction.world Number JSON_parse generateContent None predictChurn
         nowSent dateSent nowReplied dateReplied) st in
  (forall k, k ∈ InsightsPanel.requiredFields ->
     InsightsPanel.get req k = Spelling.firstValue k fields)
  /\ InsightsPanel.missingFields req = []
  /\ snd out = [req]
  /\ reply (fst out)
     = Some (match predictChurn req with
             | Resolved prediction =>
                 InsightsPanel.formatPredictionMessage toFixed prediction
             | Rejected err =>
                 or_default (response_data_error err) InsightsPanel.predictionFailed
             end).
Proof.
  intros Hall Hcover Htext Hl req out.
  assert (Hmissing : InsightsPanel.missingFields req = [])
    by (apply spellOut_complete; assumption).
  split; [intros k Hk; apply extract_spellOut; assumption|].
  split; [exact Hmissing|].
  assert (Hin : String.eqb (trim (InsightsPanel.input st)) "" = false).
  { rewrite Htext. apply String.eqb_neq. intros Hempty.
    assert (Hage : "age" ∈ InsightsPanel.requiredFields)
      by (apply (bool_decide_unpack _); vm_compute; exact I).
    pose proof (extract_spellOut Number JSON_parse generateContent fields "age"
                  Hall Hage) as Hget.
    destruct (firstValue_present "age" fields Hall (Hcover _ Hage))
      as (c & value & Hv & _).
    rewrite <- Hv, Hempty in Hget. vm_compute in Hget. discriminate Hget. }
  subst out. rewrite (handleSend_open toFixed numberToString _ st Hin Hl).
  cbv zeta. rewrite Htext. unfold InsightsPanel.respond.
  cbn [Extraction.world InsightsPanel.extractPredictionRequest
       InsightsPanel.predictChurn InsightsPanel.apiKey]. fold req.
  rewrite Hmissing. cbn [length Nat.eqb]. unfold reply.
  cbn [fst InsightsPanel.messages].
  change (InsightsPanel.messages st ++ [?a; ?b])
    with (InsightsPanel.messages st ++ [a] ++ [b]).
  rewrite app_assoc, last_snoc. cbn [fmap option_fmap option_map InsightsPanel.content].
  destruct (predictChurn req); split; reflexivity.
Qed.

Lemma spelt_out_request_is_predicted_witness :
  length
    (snd (InsightsPanel.handleSend Samples.noFormat Samples.noString
            (Extraction.world (fun _ => S754_nan) (fun _ => None) (fun _ => None)
               None (fun _ => Rejected Samples.unreachable)
               (of_Z 1) (of_Z 1) (of_Z 2) (of_Z 2))
            (Samples.chat
               (Spelling.spellOut
                  [ ("telecom_partner", "Reliance Jio"); ("gender", "F");
                    ("age", "35"); ("state", "Karnataka");
                    ("city", "Bangalore"); ("pincode", "560001");
                    ("date_of_registration", "1/1/2020");
                    ("num_dependents", "2"); ("estimated_salary", "75000");
                    ("calls_made", "50"); ("sms_sent", "30");
                    ("data_used", "5000") ]))))
  = 1%nat.
Proof.
  destruct (spelt_out_request_is_predicted Samples.noFormat Samples.noString
              (fun _ => S754_nan) (fun _ => None) (fun _ => None)
              (fun _ => Rejected Samples.unreachable)
              (of_Z 1) (of_Z 1) (of_Z 2) (of_Z 2)
              [ ("telecom_partner", "Reliance Jio"); ("gender", "F");
                ("age", "35"); ("state", "Karnataka");
                ("city", "Bangalore"); ("pincode", "560001");
                ("date_of_registration", "1/1/2020");
                ("num_dependents", "2"); ("estimated_salary", "75000");
                ("calls_made", "50"); ("sms_sent", "30");
                ("data_used", "5000") ]
              (Samples.chat
                 (Spelling.spellOut
                    [ ("telecom_partner", "Reliance Jio"); ("gender", "F");
                      ("age", "35"); ("state", "Karnataka");
                      ("city", "Bangalore"); ("pincode", "560001");
                      ("date_of_registration", "1/1/2020");
                      ("num_dependents", "2"); ("estimated_salary", "75000");
                      ("calls_made", "50"); ("sms_sent", "30");
                      ("data_used", "5000") ])))
    as (_ & _ & Hcalls & _).
  - repeat constructor.
  - intros k Hk. unfold InsightsPanel.requiredFields in Hk.
    repeat (apply elem_of_cons in Hk as [->|Hk];
            [apply (bool_decide_unpack _); vm_compute; exact I|]).
    apply elem_of_nil in Hk as [].
  - vm_compute. reflexivity.
  - reflexivity.
  - rewrite Hcalls. reflexivity.
Defined.

(** ** A chat session *)
Section ChatSession.
Import InsightsPanel Session.

Variable toFixed : number -> nat -> string.
Variable numberToString : number -> string.

Lemma join_cons_nonempty (sep first : string) (c : ascii) (rest : list string) :
  JS.join sep (String c first :: rest) <> "".
Proof. destruct rest; cbn [JS.join]; [|rewrite append_cons]; discriminate. Qed.

Lemma generateAIResponse_nonempty (question : string) :
  generateAIResponse question <> "".
Proof.
  unfold generateAIResponse. cbv zeta.
  repeat match goal with
         | |- context [if ?b then _ else _] => destruct b
         end; discriminate.
Qed.

Lemma formatPredictionMessage_nonempty (prediction : PredictionResponse) :
  formatPredictionMessage toFixed prediction <> "".
Proof.
  unfold formatPredictionMessage. cbv zeta. cbn [app].
  rewrite append_cons. apply join_cons_nonempty.
Qed.

Lemma clarification_nonempty (missing : list string) : clarification missing <> "".
Proof. unfold clarification. rewrite append_cons. discriminate. Qed.

Lemma finish_wellFormed (date : number) (sends : nat) (m : Machine)
    (p : Pending) (w : World) (answer : string) :
  wellFormed date sends m -> pending m = Some p -> answer <> "" ->
  wellFormed date sends (finish numberToString w answer m).
Proof.
  intros (Hl & exchanges & tail & Hm & Hall & Hu & Hc & Hs) Hp Ha.
  unfold inFlight in Hc. rewrite Hp in Hu, Hc. cbn [unanswered] in Hu.
  destruct Hu as (u & -> & Hrole & Hcontent & Htext).
  split; [reflexivity|].
  eexists (exchanges ++ [(u, _)]), [].
  unfold finish, inFlight. cbn [ui pending calls messages].
  rewrite Hm, map_app, concat_app, length_app.
  cbn [map concat exchange fst snd app length unanswered] in *.
  rewrite !app_nil_r, <- !app_assoc. cbn [app].
  split; [reflexivity|]. split.
  - apply Forall_app. split; [exact Hall|]. constructor; [|constructor].
    unfold answered. cbn [fst snd role content].
    rewrite Hcontent. auto.
  - split; [reflexivity|]. destruct (phase p); lia.
Qed.

Lemma resume_wellFormed (date : number) (sends : nat) (m : Machine) (p : Pending) :
  wellFormed date sends m -> pending m = Some p ->
  wellFormed date sends (resume toFixed numberToString p m).
Proof.
  intros Hw Hp. unfold resume. cbv zeta.
  destruct (phase p) as [|request] eqn:Ephase.
  - destruct (extractPredictionRequest (world p) (text p)) as [req|];
      [|apply (finish_wellFormed date sends m p); auto using generateAIResponse_nonempty].
    destruct (length (missingFields req) =? 0)%nat.
    + destruct Hw as (Hl & exchanges & tail & Hm & Hall & Hu & Hc & Hs).
      unfold inFlight, busy in *. rewrite Hp in Hu, Hc, Hl. rewrite Ephase in Hc.
      split; [exact Hl|]. exists exchanges, tail. unfold inFlight.
      cbn [ui pending calls phase unanswered text] in *.
      rewrite length_app. cbn [length].
      repeat split; try assumption; lia.
    + destruct (negb _);
        apply (finish_wellFormed date sends m p);
        auto using generateAIResponse_nonempty, clarification_nonempty.
  - destruct (predictChurn (world p) request) as [prediction|err];
      apply (finish_wellFormed date sends m p); auto;
      first [apply formatPredictionMessage_nonempty
            |apply or_default_nonempty; discriminate].
Qed.

Lemma wellFormed_later (date : number) (sends : nat) (m : Machine) :
  wellFormed date sends m -> wellFormed date (S sends) m.
Proof.
  intros (Hl & exchanges & tail & Hm & Hall & Hu & Hc & Hs).
  split; [exact Hl|]. exists exchanges, tail. repeat split; try assumption; lia.
Qed.

Lemma begin_wellFormed (date : number) (sends : nat) (m : Machine) (w : World) :
  wellFormed date sends m ->
  wellFormed date (S sends) (begin numberToString w m).
Proof.
  intros Hw. unfold begin. cbv zeta.
  destruct (String.eqb (trim (input (ui m))) "") eqn:Hin;
    [apply wellFormed_later, Hw|].
  destruct (loading (ui m)) eqn:Hload; [apply wellFormed_later, Hw|].
  cbn [orb].
  destruct Hw as (Hl & exchanges & tail & Hm & Hall & Hu & Hc & Hs).
  unfold busy, inFlight in *. rewrite Hload in Hl.
  destruct (pending m); [discriminate Hl|]. cbn [unanswered] in Hu. subst tail.
  split; [reflexivity|]. eexists exchanges, [_].
  cbn [ui pending calls messages unanswered text phase length] in *.
  rewrite Hm, app_nil_r. split; [reflexivity|]. split; [exact Hall|].
  split.
  - eexists. split; [reflexivity|]. cbn [role content].
    repeat split. apply String.eqb_neq, Hin.
  - split; lia.
Qed.

Lemma step_wellFormed (date : number) (sends : nat) (m : Machine) (e : Event) :
  wellFormed date sends m ->
  wellFormed date (sends + (if isSend e then 1 else 0))
    (step toFixed numberToString m e).
Proof.
  intros Hw. destruct e as [value|question|w|]; cbn [step isSend];
    rewrite ?Nat.add_0_r.
  - destruct (loading (ui m)); [exact Hw|]. exact Hw.
  - exact Hw.
  - rewrite Nat.add_1_r. apply begin_wellFormed, Hw.
  - destruct (pending m) as [p|] eqn:Hp; [|exact Hw].
    apply resume_wellFormed; assumption.
Qed.

Lemma run_wellFormed (date : number) (events : list Event) :
  wellFormed date (length (List.filter isSend events))
    (run toFixed numberToString events date).
Proof.
  unfold run. induction events as [|e events IH] using rev_ind.
  - split; [reflexivity|]. exists [], []. repeat split; [constructor|cbn; lia..].
  - rewrite fold_left_app, List.filter_app, length_app. cbn [fold_left].
    replace (length (List.filter isSend [e])) with (if isSend e then 1 else 0)%nat
      by (cbn [List.filter]; destruct (isSend e); reflexivity).
    apply step_wellFormed, IH.
Qed.

(** Once the prediction has been asked for, the next promise to settle
    is the last. *)
Lemma resume_predicting (m : Machine) (p : Pending) :
  phase p <> Extracting ->
  pending (resume toFixed numberToString p m) = None.
Proof.
  intros Hph. unfold resume. cbv zeta.
  destruct (phase p) as [|request]; [contradiction Hph; reflexivity|].
  destruct (predictChurn (world p) request); reflexivity.
Qed.

(** After the extraction, the call has ended or awaits the prediction. *)
Lemma resume_extracting (m : Machine) (p : Pending) :
  match pending (resume toFixed numberToString p m) with
  | Some p' => phase p' <> Extracting
  | None => True
  end.
Proof.
  unfold resume. cbv zeta.
  destruct (phase p) as [|request].
  - destruct (extractPredictionRequest (world p) (text p)) as [req|];
      [|exact I].
    destruct (length (missingFields req) =? 0)%nat;
      [cbn [pending phase]; discriminate|].
    destruct (negb _); exact I.
  - destruct (predictChurn (world p) request); exact I.
Qed.

(** A call under way ends after two promises at most. *)
Lemma settle_twice (m : Machine) :
  pending (step toFixed numberToString
             (step toFixed numberToString m Settle) Settle) = None.
Proof.
  cbn [step]. destruct (pending m) as [p|] eqn:Hp; [|rewrite Hp; exact Hp].
  pose proof (resume_extracting m p) as Hr.
  destruct (pending (resume toFixed numberToString p m)) as [p'|] eqn:Hp';
    [|exact Hp'].
  apply resume_predicting, Hr.
Qed.

Lemma resume_Extracting (w : World) (t : string) (m : Machine) :
  resume toFixed numberToString
    {| world := w; text := t; phase := Extracting |} m
  = match extractPredictionRequest w t with
    | Some req =>
        if (length (missingFields req) =? 0)%nat then
          {| ui := ui m;
             pending := Some {| world := w; text := t;
                                phase := Predicting req |};
             calls := calls m ++ [req] |}
        else if negb (String.eqb (default "" (apiKey w)) "") then
          finish numberToString w (clarification (missingFields req)) m
        else finish numberToString w (generateAIResponse t) m
    | None => finish numberToString w (generateAIResponse t) m
    end.
Proof. reflexivity. Qed.

Lemma resume_Predicting (w : World) (t : string)
    (req : gmap string JsValue) (m : Machine) :
  resume toFixed numberToString
    {| world := w; text := t; phase := Predicting req |} m
  = match predictChurn w req with
    | Resolved prediction =>
        finish numberToString w (formatPredictionMessage toFixed prediction) m
    | Rejected err =>
        finish numberToString w
          (or_default (response_data_error err) predictionFailed) m
    end.
Proof. reflexivity. Qed.

(** A send that is left to settle ends in the state [handleSend]
    describes, with the calls it lists. *)
Lemma send_settled (m : Machine) (w : World) :
  pending m = None -> loading (ui m) = false ->
  let m' :=
    step toFixed numberToString
      (step toFixed numberToString
         (step toFixed numberToString m (Send w)) Settle) Settle in
  ui m' = fst (handleSend toFixed numberToString w (ui m))
  /\ calls m' = calls m ++ snd (handleSend toFixed numberToString w (ui m))
  /\ pending m' = None.
Proof.
  intros Hp Hl m'. subst m'. cbn [step]. unfold begin. cbv zeta.
  destruct (String.eqb (trim (input (ui m))) "") eqn:Hin.
  - cbn [orb]. rewrite Hp. rewrite Hp.
    unfold handleSend. rewrite Hin. cbn [orb fst snd].
    rewrite app_nil_r. auto.
  - rewrite Hl. cbn [orb pending].
    rewrite (handleSend_open toFixed numberToString w (ui m) Hin Hl).
    cbv zeta. cbn [fst snd]. unfold respond.
    rewrite resume_Extracting.
    destruct (extractPredictionRequest w (trim (input (ui m)))) as [req|].
    + cbv zeta. destruct (length (missingFields req) =? 0)%nat.
      * cbn [pending]. rewrite resume_Predicting.
        destruct (predictChurn w req); unfold finish;
          cbn [ui calls pending messages input fst snd];
          rewrite <- app_assoc; auto.
      * destruct (negb _); unfold finish;
          cbn [ui calls pending messages input fst snd];
          rewrite <- app_assoc, app_nil_r; auto.
    + unfold finish. cbn [ui calls pending messages input fst snd].
      rewrite <- app_assoc, app_nil_r. auto.
Qed.

End ChatSession.

(** X22. The chat history is well formed in every state of a session,
    also while a reply is awaited.  From the opening state, after any
    sequence of events (typing, quick-insight clicks, sends, each in a
    world of its own, and promises settling), [loading] is set exactly
    while a [handleSend] is under way, and the history is the greeting,
    then whole exchanges (a user message that is not empty, then an
    assistant reply that is not empty), then, exactly while a reply is
    awaited, the user's message it will answer.  There are never more
    user messages than sends, nor more prediction calls than answered
    messages plus the one call in flight.  A call under way ends after
    two promises at most, and a send left to settle gives the state and
    the calls of [handleSend]. *)
Theorem chat_history_is_well_formed
    (toFixed : number -> nat -> string) (numberToString : number -> string)
    (date : number) (events : list Session.Event) :
  let m := Session.run toFixed numberToString events date in
  let step := Session.step toFixed numberToString in
  InsightsPanel.loading (Session.ui m) = Session.busy m
  /\ (exists exchanges tail,
        InsightsPanel.messages (Session.ui m)
        = Session.greeting date
            :: concat (map Session.exchange exchanges) ++ tail
        /\ Forall Session.answered exchanges
        /\ Session.unanswered (Session.pending m) tail
        /\ (length (Session.calls m)
            <= length exchanges + Session.inFlight m)%nat
        /\ (length exchanges + length tail
            <= length (List.filter Session.isSend events))%nat)
  /\ Session.pending (step (step m Session.Settle) Session.Settle) = None
  /\ (Session.pending m = None ->
      forall w,
        let m' :=
          step (step (step m (Session.Send w)) Session.Settle) Session.Settle in
        Session.ui m'
        = fst (InsightsPanel.handleSend toFixed numberToString w (Session.ui m))
        /\ Session.calls m'
           = Session.calls m
               ++ snd (InsightsPanel.handleSend toFixed numberToString w
                         (Session.ui m))).
Proof.
  intros m step.
  pose proof (run_wellFormed toFixed numberToString date events) as Hw.
  fold m in Hw. destruct Hw as [Hl Hrest].
  split; [exact Hl|]. split; [exact Hrest|].
  split; [apply settle_twice|].
  intros Hp w m'.
  assert (Hload : InsightsPanel.loading (Session.ui m) = false)
    by (rewrite Hl; unfold Session.busy; rewrite Hp; reflexivity).
  destruct (send_settled toFixed numberToString m w Hp Hload) as (H1 & H2 & _).
  split; assumption.
Qed.

(** ** An upload session *)
Section UploadInvariant.
Import UploadPanel UploadSession.

Variable numberToString : number -> string.

(** The invariant of the session. *)
Lemma handleFile_consistent (file : File) (st : State) :
  consistent numberToString (handleFile file st).1
  /\ (status (handleFile file st).1 = processing -> (handleFile file st).2 = true)
  /\ status (handleFile file st).1 <> idle.
Proof.
  unfold handleFile.
  destruct (negb _ && negb _); [|destruct (gt _ _)];
    cbn [fst snd setMessage setStatus status]; unfold consistent;
    cbn [setMessage setStatus status message]; repeat split; auto;
    discriminate.
Qed.

Lemma onTimeout_consistent (random : number) (st : State) :
  valid random = true -> le (of_Z 0) random = true -> lt random (of_Z 1) = true ->
  consistent numberToString (onTimeout numberToString random st)
  /\ status (onTimeout numberToString random st) = success.
Proof.
  intros Hv H0 H1.
  destruct (simulate_statsFrom random Hv H0 H1) as [n [Hn Hs]].
  pose proof (statsFrom_plausible n Hn) as Hp.
  assert (Hne : eq (errors (statsFrom n)) (of_Z 0) = false).
  { unfold plausible in Hp. rewrite !andb_true_iff in Hp.
    destruct Hp as [[_ Hp] _]. apply negb_true_iff, Hp. }
  unfold onTimeout. rewrite Hs. cbv zeta. rewrite Hne.
  unfold consistent.
  cbn [setMessage setStatus setStats status stats message].
  repeat split. exact Hp.
Qed.

Lemma handleDrag_consistent (type : string) (st : State) :
  consistent numberToString st ->
  consistent numberToString (handleDrag type st)
  /\ status (handleDrag type st) = status st.
Proof.
  intros Hc. unfold handleDrag.
  destruct (_ || _); [split; [exact Hc|reflexivity]|].
  destruct (String.eqb _ _); split; first [exact Hc|reflexivity].
Qed.

End UploadInvariant.

(** X23. In an upload session the status, the message and the
    statistics always agree, whatever the user does and whenever the
    timers fire: idle goes with no message and no statistics, processing
    with [Processing file...], error with one of the two error messages,
    success with plausible statistics and the message that reports
    errors.  While the status is processing a timer is pending, so the
    spinner never stays for ever. *)
Theorem upload_display_is_consistent
    (numberToString : number -> string) (events : list UploadSession.Event) :
  Forall UploadSession.randomInRange events ->
  let m := UploadSession.run numberToString events in
  UploadSession.consistent numberToString (UploadSession.ui m)
  /\ (UploadPanel.status (UploadSession.ui m) = UploadPanel.processing ->
      (0 < UploadSession.timers m)%nat).
Proof.
  unfold UploadSession.run.
  induction events as [|e events IH] using rev_ind; intros Hall.
  - split; [repeat split|discriminate].
  - apply Forall_app in Hall as [Hall He]. apply Forall_cons in He as [He _].
    specialize (IH Hall). cbv zeta in *. rewrite fold_left_app. cbn [fold_left].
    destruct (fold_left _ events UploadSession.initial) as [st n].
    cbn [UploadSession.ui UploadSession.timers] in IH. destruct IH as [Hc Hp].
    destruct e as [type|files|files|random|];
      cbn [UploadSession.step UploadSession.ui UploadSession.timers].
    + destruct (handleDrag_consistent numberToString type st Hc) as [Hd ->].
      split; [exact Hd|exact Hp].
    + destruct files as [|file files];
        cbn [UploadSession.handleFiles UploadSession.ui UploadSession.timers].
      * split; [exact Hc|exact Hp].
      * destruct (handleFile_consistent numberToString file
                    (UploadPanel.setDragActive false st)) as (H1 & H2 & _).
        split; [exact H1|]. intros H. rewrite (H2 H). lia.
    + destruct (UploadPanel.status st) eqn:Es;
        [|cbn [UploadSession.ui UploadSession.timers];
          split; [exact Hc|intros _; apply Hp; reflexivity]|..];
        (destruct files as [|file files];
         cbn [UploadSession.handleFiles UploadSession.ui UploadSession.timers];
         [split; [exact Hc|rewrite Es; intros H; discriminate H]|];
         destruct (handleFile_consistent numberToString file st) as (H1 & H2 & _);
         split; [exact H1|]; intros H; rewrite (H2 H); lia).
    + destruct n as [|n]; cbn [UploadSession.ui UploadSession.timers].
      * split; [exact Hc|exact Hp].
      * destruct He as (Hv & H0 & H1).
        destruct (onTimeout_consistent numberToString random st Hv H0 H1)
          as [Hcons Hs].
        split; [exact Hcons|]. rewrite Hs. intros H. discriminate H.
    + destruct (UploadPanel.status st) eqn:Es;
        cbn [UploadSession.ui UploadSession.timers];
        [split; [exact Hc|rewrite Es; intros H; discriminate H]|..];
        (split; [repeat split|intros H; discriminate H]).
Qed.

Lemma upload_display_is_consistent_witness :
  UploadSession.consistent (fun _ => "n")
    (UploadSession.ui
       (UploadSession.run (fun _ => "n")
          [ UploadSession.Drop
              [ {| UploadPanel.name := "customers.csv"; UploadPanel.type := "";
                   UploadPanel.size := of_Z 2048 |} ];
            UploadSession.Reset;
            UploadSession.Timeout (decimal 5 10) ])).
Proof.
  apply (upload_display_is_consistent (fun _ => "n")
           [ UploadSession.Drop
               [ {| UploadPanel.name := "customers.csv"; UploadPanel.type := "";
                    UploadPanel.size := of_Z 2048 |} ];
             UploadSession.Reset;
             UploadSession.Timeout (decimal 5 10) ]).
  repeat constructor; vm_compute; reflexivity.
Defined.
